(** * Backup engine: a shallow embedding of [backup_logic.py] and of the
    [ParallelSSHBackupWorker] class of [main.py].

    Fault model.  The operations on the items of a run may fail: stat,
    directory creation and copy on the local side, every SFTP call and every
    read of a local file on the remote side.  Creating the artefacts of a
    run (the destination root, the metadata and log documents, the archive,
    [last_backup.json]) may fail and is then fatal for the run.  A line
    written to the log file, which is opened with [encoding="utf-8"], raises
    [UnicodeEncodeError] when it carries a path that does not encode.  The
    sinks supplied by the shell ([log_callback], [progress_callback]) are
    total: they only extend a trace.

    Paths follow [posixpath].  A path is the string of bytes the file system
    holds: what Python obtains from these bytes by [surrogateescape] encodes
    to UTF-8 exactly when the bytes are valid UTF-8.  Time stamps are
    integers that embed the order of the floating point values returned by
    [os.path.getmtime].

    The SFTP session is the one [paramiko] opens: [read] on a remote file
    returns [bytes] in every mode, [write] accepts a [str], and the
    attributes of [stat] that the server did not send are [None]. *)

From Stdlib Require Import ZArith QArith Qround String Ascii List Lia Permutation.
From Stdlib Require Import DecimalString.
From Stdlib.Strings Require Import Byte.
From stdpp Require Import gmap strings list.
Import ListNotations.

(* ===================================================================== *)
(** * The Python built-ins the two modules call *)
(* ===================================================================== *)

Module Py.

(** [s.startswith(pre)] *)
Definition startswith (s pre : string) : bool := String.prefix pre s.

(** [s.endswith(c)] for a one-character [c] *)
Fixpoint endswith_char (s : string) (c : ascii) : bool :=
  match s with
  | EmptyString => false
  | String a EmptyString => Ascii.eqb a c
  | String _ r => endswith_char r c
  end.

(** [s.replace(old, new)] for one-character [old] and [new] *)
Fixpoint replace_char (old new : ascii) (s : string) : string :=
  match s with
  | EmptyString => EmptyString
  | String a r => String (if Ascii.eqb a old then new else a) (replace_char old new r)
  end.

(** [s.lstrip(chars)] and [s.rstrip(chars)], [chars] given as a predicate *)
Fixpoint lstrip (p : ascii -> bool) (s : string) : string :=
  match s with
  | EmptyString => EmptyString
  | String a r => if p a then lstrip p r else s
  end.

Fixpoint rstrip (p : ascii -> bool) (s : string) : string :=
  match s with
  | EmptyString => EmptyString
  | String a r =>
      match rstrip p r with
      | EmptyString => if p a then EmptyString else String a EmptyString
      | r' => String a r'
      end
  end.

(** The white space of [str.strip()] within ASCII: TAB, LF, VT, FF, CR,
    FS, GS, RS, US and the blank. *)
Definition is_space (a : ascii) : bool :=
  let n := nat_of_ascii a in
  ((9 <=? n) && (n <=? 13)) || ((28 <=? n) && (n <=? 32)).

Definition strip (s : string) : string := rstrip is_space (lstrip is_space s).

Definition is_char (c : ascii) (a : ascii) : bool := Ascii.eqb a c.

(** [s.split(sep)] for a one-character [sep]; the result is never empty *)
Fixpoint split (sep : ascii) (s : string) : list string :=
  match s with
  | EmptyString => [EmptyString]
  | String a r =>
      match split sep r with
      | [] => [String a EmptyString]
      | hd :: tl =>
          if Ascii.eqb a sep then EmptyString :: hd :: tl else String a hd :: tl
      end
  end.

(** [sep.join(parts)] *)
Fixpoint join (sep : string) (parts : list string) : string :=
  match parts with
  | [] => EmptyString
  | [x] => x
  | x :: r => x +:+ sep +:+ join sep r
  end.

(** [s.encode("utf-8")] succeeds: the bytes of [s] are well-formed UTF-8
    (no stray continuation byte, no truncated or overlong sequence, no
    surrogate, nothing beyond U+10FFFF). *)
Definition byte_in (lo hi : nat) (a : ascii) : bool :=
  (lo <=? nat_of_ascii a) && (nat_of_ascii a <=? hi).

Definition continuation (a : ascii) : bool := byte_in 128 191 a.

Definition second_of_three (lead b : ascii) : bool :=
  if byte_in 224 224 lead then byte_in 160 191 b
  else if byte_in 237 237 lead then byte_in 128 159 b
  else continuation b.

Definition second_of_four (lead b : ascii) : bool :=
  if byte_in 240 240 lead then byte_in 144 191 b
  else if byte_in 244 244 lead then byte_in 128 143 b
  else continuation b.

Fixpoint utf8_valid (s : string) : bool :=
  match s with
  | EmptyString => true
  | String a r =>
      if byte_in 0 127 a then utf8_valid r
      else if byte_in 194 223 a then
        match r with
        | String b r' => continuation b && utf8_valid r'
        | _ => false
        end
      else if byte_in 224 239 a then
        match r with
        | String b (String c r') => second_of_three a b && continuation c && utf8_valid r'
        | _ => false
        end
      else if byte_in 240 244 a then
        match r with
        | String b (String c (String d r')) =>
            second_of_four a b && continuation c && continuation d && utf8_valid r'
        | _ => false
        end
      else false
  end.

(** [b.strip()] on a [bytes] object: ASCII white space is blank, TAB, LF,
    VT, FF and CR. *)
Definition is_bytes_space (b : byte) : bool :=
  let n := N.to_nat (Byte.to_N b) in
  ((9 <=? n) && (n <=? 13)) || (n =? 32).

Fixpoint bytes_lstrip (l : list byte) : list byte :=
  match l with
  | [] => []
  | b :: r => if is_bytes_space b then bytes_lstrip r else l
  end.

Definition bytes_strip (l : list byte) : list byte :=
  rev (bytes_lstrip (rev (bytes_lstrip l))).

(** [s == b] for a [str] and a [bytes] object: objects of the two types
    never compare equal. *)
Definition str_eq_bytes (s : string) (b : list byte) : bool := false.

(** [int(x)] on a float: truncation toward zero.  The float is given by
    the rational it denotes. *)
Definition int_of_float (x : Q) : Z := Z.quot (Qnum x) (Z.pos (Qden x)).

End Py.

(** [posixpath] *)
Module posixpath.

Definition slash : ascii := "/"%char.

(** [posixpath.join(a, b)] *)
Definition join (a b : string) : string :=
  if Py.startswith b "/" then b
  else if String.eqb a EmptyString || Py.endswith_char a slash then a +:+ b
  else a +:+ "/" +:+ b.

(** [posixpath.basename(p)]: what follows the last slash *)
Definition basename (p : string) : string :=
  List.last (Py.split slash p) EmptyString.

(** [posixpath.dirname(p)]: what precedes the last slash, trailing slashes
    removed unless nothing else is left *)
Definition dirname (p : string) : string :=
  match rev (Py.split slash p) with
  | [] | [_] => EmptyString
  | _ :: front =>
      let head := Py.join "/" (rev front) +:+ "/" in
      match Py.lstrip (Py.is_char slash) head with
      | EmptyString => head
      | _ => Py.rstrip (Py.is_char slash) head
      end
  end.

(** [posixpath.normpath(path)] *)
Definition normpath (path : string) : string :=
  if String.eqb path EmptyString then "."
  else
    let initial_slashes :=
      if Py.startswith path "/" then
        if Py.startswith path "//" && negb (Py.startswith path "///") then 2 else 1
      else 0 in
    let new_comps :=
      fold_left
        (fun new_comps comp =>
           if String.eqb comp EmptyString || String.eqb comp "." then new_comps
           else if negb (String.eqb comp "..")
                   || (Nat.eqb initial_slashes 0 && Nat.eqb (length new_comps) 0)
                   || String.eqb (List.last new_comps EmptyString) ".."
                then new_comps ++ [comp]
                else removelast new_comps)
        (Py.split slash path) [] in
    let path := Py.join "" (repeat "/" initial_slashes) +:+ Py.join "/" new_comps in
    if String.eqb path EmptyString then "." else path.

End posixpath.

(** [os.walk] *)
Module os.

(** What [os.walk] lists below a directory: the names of the entries that
    are not directories, and the sub-directories by name. *)
#[warnings="-register-all"] Inductive dir_tree :=
| DirNode (files : list string) (subdirs : list (string * dir_tree)).

(** One triple [(root, dirs, files)] yielded by [os.walk]; [we_rel] holds
    the names that lead from the top of the walk to [root]. *)
Record walk_entry := {
  we_root : string;
  we_rel : list string;
  we_dirs : list string;
  we_files : list string }.

(** [os.walk(top)], top-down.  The consumer filters [dirs] in place before
    the generator descends; [keep] is that filter. *)
Fixpoint walk (keep : string -> bool) (root : string) (rel : list string)
    (t : dir_tree) : list walk_entry :=
  match t with
  | DirNode files subdirs =>
      {| we_root := root; we_rel := rel;
         we_dirs := List.filter keep (List.map fst subdirs);
         we_files := files |}
      :: (fix descend (ds : list (string * dir_tree)) : list walk_entry :=
            match ds with
            | [] => []
            | (d, t') :: ds' =>
                (if keep d
                 then walk keep (posixpath.join root d) (rel ++ [d]) t'
                 else [])
                ++ descend ds'
            end) subdirs
  end.

End os.

(** [hashlib.md5]: RFC 1321 on lists of bytes. *)
Module hashlib.

Definition mask32 (x : Z) : Z := Z.land x 4294967295.

Definition not32 (x : Z) : Z := Z.lxor x 4294967295.

Definition rotl32 (x c : Z) : Z :=
  mask32 (Z.lor (Z.shiftl x c) (Z.shiftr x (32 - c))).

Definition shifts : list Z :=
  [7; 12; 17; 22; 7; 12; 17; 22; 7; 12; 17; 22; 7; 12; 17; 22;
   5; 9; 14; 20; 5; 9; 14; 20; 5; 9; 14; 20; 5; 9; 14; 20;
   4; 11; 16; 23; 4; 11; 16; 23; 4; 11; 16; 23; 4; 11; 16; 23;
   6; 10; 15; 21; 6; 10; 15; 21; 6; 10; 15; 21; 6; 10; 15; 21]%Z.

(** [floor(2^32 * abs(sin(i + 1)))] for [i] from 0 to 63 *)
Definition sines : list Z :=
  [3614090360; 3905402710; 606105819; 3250441966; 4118548399; 1200080426;
   2821735955; 4249261313; 1770035416; 2336552879; 4294925233; 2304563134;
   1804603682; 4254626195; 2792965006; 1236535329; 4129170786; 3225465664;
   643717713; 3921069994; 3593408605; 38016083; 3634488961; 3889429448;
   568446438; 3275163606; 4107603335; 1163531501; 2850285829; 4243563512;
   1735328473; 2368359562; 4294588738; 2272392833; 1839030562; 4259657740;
   2763975236; 1272893353; 4139469664; 3200236656; 681279174; 3936430074;
   3572445317; 76029189; 3654602809; 3873151461; 530742520; 3299628645;
   4096336452; 1126891415; 2878612391; 4237533241; 1700485571; 2399980690;
   4293915773; 2240044497; 1873313359; 4264355552; 2734768916; 1309151649;
   4149444226; 3174756917; 718787259; 3951481745]%Z.

Definition state : Type := Z * Z * Z * Z.

Definition initial : state := (1732584193, 4023233417, 2562383102, 271733878)%Z.

(** Operation [i] of the 64 on the block of words [M]. *)
Definition operation (M : list Z) (st : state) (i : nat) : state :=
  let '(a, b, c, d) := st in
  let '(f, g) :=
    if i <? 16 then (Z.lor (Z.land b c) (Z.land (not32 b) d), i)
    else if i <? 32 then (Z.lor (Z.land d b) (Z.land (not32 d) c), (5 * i + 1) mod 16)
    else if i <? 48 then (Z.lxor b (Z.lxor c d), (3 * i + 5) mod 16)
    else (Z.lxor c (Z.lor b (not32 d)), (7 * i) mod 16) in
  let f := mask32 (f + a + nth i sines 0 + nth g M 0)%Z in
  (d, mask32 (b + rotl32 f (nth i shifts 0%Z))%Z, b, c).

Definition block (M : list Z) (st : state) : state :=
  let '(a0, b0, c0, d0) := st in
  let '(a, b, c, d) := fold_left (operation M) (seq 0 64) st in
  (mask32 (a0 + a), mask32 (b0 + b), mask32 (c0 + c), mask32 (d0 + d))%Z.

(** Little-endian words of 32 bits. *)
Fixpoint words (bs : list Z) : list Z :=
  match bs with
  | b0 :: b1 :: b2 :: b3 :: r => (b0 + 256 * b1 + 65536 * b2 + 16777216 * b3)%Z :: words r
  | _ => []
  end.

Definition little_endian (count : nat) (x : Z) : list Z :=
  List.map (fun k => (Z.shiftr x (8 * Z.of_nat k) mod 256)%Z) (seq 0 count).

(** The message, the bit 1, zeros up to 56 modulo 64 and the length in
    bits on 64 bits. *)
Definition padded (msg : list Z) : list Z :=
  let n := length msg in
  msg ++ [128%Z] ++ repeat 0%Z ((64 - (n + 9) mod 64) mod 64)
      ++ little_endian 8 (8 * Z.of_nat n).

Fixpoint blocks (fuel : nat) (ws : list Z) (st : state) : state :=
  match fuel with
  | 0 => st
  | S fuel' =>
      match ws with
      | [] => st
      | _ => blocks fuel' (skipn 16 ws) (block (firstn 16 ws) st)
      end
  end.

Definition hex_digit (n : Z) : ascii :=
  nth (Z.to_nat n)
    ["0"; "1"; "2"; "3"; "4"; "5"; "6"; "7"; "8"; "9"; "a"; "b"; "c"; "d"; "e"; "f"]%char
    "0"%char.

Definition hex (bs : list Z) : string :=
  fold_right (fun b acc => String (hex_digit (b / 16)) (String (hex_digit (b mod 16)) acc))
    EmptyString bs.

(** [hashlib.md5(data).hexdigest()] *)
Definition md5_hex (data : list byte) : string :=
  let ws := words (padded (List.map (fun b => Z.of_N (Byte.to_N b)) data)) in
  let '(a, b, c, d) := blocks (length ws) ws initial in
  hex (little_endian 4 a ++ little_endian 4 b ++ little_endian 4 c ++ little_endian 4 d).

(** The digest object: what it has been fed. *)
Definition md5 : list byte := [].

Definition update (h chunk : list byte) : list byte := h ++ chunk.

Definition hexdigest (h : list byte) : string := md5_hex h.

End hashlib.

(** The Python values that [json.dump] is handed, and what its default
    encoder accepts. *)
Module json.

(** A naive [datetime], as [datetime.now()] returns it. *)
Record datetime := {
  year : nat; month : nat; day : nat;
  hour : nat; minute : nat; second : nat; microsecond : nat }.

Definition digit (n : nat) : ascii := ascii_of_nat (48 + n mod 10).

(** [f"{n:0{width}d}"] for [n < 10 ** width] *)
Fixpoint zero_padded (width n : nat) : string :=
  match width with
  | 0 => EmptyString
  | S w => zero_padded w (n / 10) +:+ String (digit n) EmptyString
  end.

(** [d.isoformat()] *)
Definition isoformat (d : datetime) : string :=
  zero_padded 4 (year d) +:+ "-" +:+ zero_padded 2 (month d) +:+ "-"
  +:+ zero_padded 2 (day d) +:+ "T" +:+ zero_padded 2 (hour d) +:+ ":"
  +:+ zero_padded 2 (minute d) +:+ ":" +:+ zero_padded 2 (second d)
  +:+ (if Nat.eqb (microsecond d) 0 then EmptyString
       else "." +:+ zero_padded 6 (microsecond d)).




End json.

(* ===================================================================== *)
(** * backup_logic.py: [BackupManager] *)
(* ===================================================================== *)

Module BackupManager.

Import os.

(** ** The file system seen by a run *)

(** What [os.stat] reports for a path. *)
Record file_meta := { st_size : Z; st_mtime : Z }.

(** [os.path.relpath(os.path.join(root, file), top)] for a [root] reached
    by [os.walk(top)] through the directories [rel]. *)
Definition relpath (rel : list string) (file : string) : string :=
  Py.join "/" (rel ++ [file]).

(** ** Exceptions, events and artefacts *)

Inductive exn := PermissionError | OSError | KeyError | UnicodeEncodeError | OtherException.

Inductive level := info | warning | error | success.

Inductive message :=
| MsgStarting
| MsgSources (ndirs nfiles : nat)
| MsgTarget (dir : string)
| MsgDirNotFound (path : string)
| MsgFileNotFound (path : string)
| MsgStatFailed (path : string)
| MsgNoFiles
| MsgFound (n : nat)
| MsgStopped
| MsgCopiedSoFar (copied total : nat)
| MsgNoPermission (path : string)
| MsgCopyError (path : string)
| MsgArchiveCreating (path : string)
| MsgArchiveAddError (path : string)
| MsgArchiveCreated (path : string)
| MsgDone
| MsgStatistics (copied skipped : nat)
| MsgDuration (seconds : Z)
| MsgBackupError (e : exn).

(** A call of [log_callback] or of [progress_callback]. *)
Inductive event :=
| Log (msg : message) (lvl : level)
| Progress (current total : nat) (path : string).

(** A line of [backup_log.txt]. *)
Inductive log_line :=
| LineStarted
| LineTotal (n : nat)
| LineRule
| LineSkipped (src : string)
| LineCopied (src dst : string)
| LineFinished
| LineCopiedTotal (n : nat)
| LineSkippedTotal (n : nat).

Inductive source_kind := directory | file.

(** An element of the list built by [_collect_files]; [source_root] is a
    key of the dict only for the items found below a source directory. *)
Record file_info := {
  source_path : string;
  relative_path : string;
  size : Z;
  source_type : source_kind;
  source_root : option string }.

Record stats := {
  total_files : nat;
  files_copied : nat;
  files_skipped : nat;
  total_size : Z;
  start_time : option Z;
  end_time : option Z }.

(** The [metadata] dict of [start_backup]. *)
Record metadata := {
  md_backup_name : string;
  md_timestamp : string;
  md_incremental : bool;
  md_compress : bool;
  md_preserve_structure : bool;
  md_directories : list string;
  md_files : list string }.

(** The document written to [last_backup.json]. *)
Record backup_info := {
  bi_last_backup : string;
  bi_backup_path : string;
  bi_stats : stats }.

(** The constructor arguments; a callback is recorded by whether one was
    supplied. *)
Record config := {
  source_dirs : list string;
  source_files : list string;
  target_dir : string;
  incremental : bool;
  skip_hidden : bool;
  compress : bool;
  preserve_structure : bool;
  progress_callback : bool;
  log_callback : bool }.

(** What is outside the manager: the stop flag as the successive polls find
    it, the directory listings, the clock, and the faults of the fallible
    calls (per item, by the index [enumerate] gives it). *)
Record environment := {
  stop_flag : nat -> bool;
  listing : gmap string dir_tree;
  clock_stamp : string;
  clock_iso : string;
  clock_start : Z;
  clock_end : Z;
  makedirs_root_fault : option exn;
  open_metadata_fault : option exn;
  open_log_fault : option exn;
  open_archive_fault : option exn;
  save_info_fault : option exn;
  makedirs_fault : nat -> option exn;
  copy_fault : nat -> option exn }.

(** The manager object together with the files and traces it acts on. *)
Record manager := {
  m_stats : stats;
  backup_path : string;
  fs : gmap string file_meta;
  polls : nat;
  events : list event;
  backup_log : list log_line;
  backup_metadata : option metadata;
  archive : list (string * string);
  last_backup : option backup_info }.

Definition set_stats (f : stats -> stats) (m : manager) : manager :=
  {| m_stats := f (m_stats m); backup_path := backup_path m; fs := fs m;
     polls := polls m; events := events m; backup_log := backup_log m;
     backup_metadata := backup_metadata m; archive := archive m;
     last_backup := last_backup m |}.

Definition set_backup_path (p : string) (m : manager) : manager :=
  {| m_stats := m_stats m; backup_path := p; fs := fs m;
     polls := polls m; events := events m; backup_log := backup_log m;
     backup_metadata := backup_metadata m; archive := archive m;
     last_backup := last_backup m |}.

Definition set_fs (f : gmap string file_meta) (m : manager) : manager :=
  {| m_stats := m_stats m; backup_path := backup_path m; fs := f;
     polls := polls m; events := events m; backup_log := backup_log m;
     backup_metadata := backup_metadata m; archive := archive m;
     last_backup := last_backup m |}.

Definition tick_poll (m : manager) : manager :=
  {| m_stats := m_stats m; backup_path := backup_path m; fs := fs m;
     polls := S (polls m); events := events m; backup_log := backup_log m;
     backup_metadata := backup_metadata m; archive := archive m;
     last_backup := last_backup m |}.

Definition emit (e : event) (m : manager) : manager :=
  {| m_stats := m_stats m; backup_path := backup_path m; fs := fs m;
     polls := polls m; events := events m ++ [e]; backup_log := backup_log m;
     backup_metadata := backup_metadata m; archive := archive m;
     last_backup := last_backup m |}.

Definition append_line (l : log_line) (m : manager) : manager :=
  {| m_stats := m_stats m; backup_path := backup_path m; fs := fs m;
     polls := polls m; events := events m; backup_log := backup_log m ++ [l];
     backup_metadata := backup_metadata m; archive := archive m;
     last_backup := last_backup m |}.

(** The paths of a line encode. *)
Definition line_encodable (l : log_line) : bool :=
  match l with
  | LineSkipped src => Py.utf8_valid src
  | LineCopied src dst => Py.utf8_valid src && Py.utf8_valid dst
  | _ => true
  end.

(** [log.write(line)] *)
Definition log_write (l : log_line) (m : manager) : exn + manager :=
  if line_encodable l then inr (append_line l m) else inl UnicodeEncodeError.

Definition set_backup_log (l : list log_line) (m : manager) : manager :=
  {| m_stats := m_stats m; backup_path := backup_path m; fs := fs m;
     polls := polls m; events := events m; backup_log := l;
     backup_metadata := backup_metadata m; archive := archive m;
     last_backup := last_backup m |}.

Definition set_backup_metadata (md : metadata) (m : manager) : manager :=
  {| m_stats := m_stats m; backup_path := backup_path m; fs := fs m;
     polls := polls m; events := events m; backup_log := backup_log m;
     backup_metadata := Some md; archive := archive m;
     last_backup := last_backup m |}.

Definition archive_add (arcname src : string) (m : manager) : manager :=
  {| m_stats := m_stats m; backup_path := backup_path m; fs := fs m;
     polls := polls m; events := events m; backup_log := backup_log m;
     backup_metadata := backup_metadata m; archive := archive m ++ [(arcname, src)];
     last_backup := last_backup m |}.

Definition set_last_backup (b : backup_info) (m : manager) : manager :=
  {| m_stats := m_stats m; backup_path := backup_path m; fs := fs m;
     polls := polls m; events := events m; backup_log := backup_log m;
     backup_metadata := backup_metadata m; archive := archive m;
     last_backup := Some b |}.

Definition with_total_files (n : nat) (s : stats) : stats :=
  {| total_files := n; files_copied := files_copied s;
     files_skipped := files_skipped s; total_size := total_size s;
     start_time := start_time s; end_time := end_time s |}.

Definition incr_copied (s : stats) : stats :=
  {| total_files := total_files s; files_copied := S (files_copied s);
     files_skipped := files_skipped s; total_size := total_size s;
     start_time := start_time s; end_time := end_time s |}.

Definition incr_skipped (s : stats) : stats :=
  {| total_files := total_files s; files_copied := files_copied s;
     files_skipped := S (files_skipped s); total_size := total_size s;
     start_time := start_time s; end_time := end_time s |}.

Definition add_total_size (n : Z) (s : stats) : stats :=
  {| total_files := total_files s; files_copied := files_copied s;
     files_skipped := files_skipped s; total_size := (total_size s + n)%Z;
     start_time := start_time s; end_time := end_time s |}.

Definition with_start_time (t : Z) (s : stats) : stats :=
  {| total_files := total_files s; files_copied := files_copied s;
     files_skipped := files_skipped s; total_size := total_size s;
     start_time := Some t; end_time := end_time s |}.

Definition with_end_time (t : Z) (s : stats) : stats :=
  {| total_files := total_files s; files_copied := files_copied s;
     files_skipped := files_skipped s; total_size := total_size s;
     start_time := start_time s; end_time := Some t |}.

(** [__init__]: the statistics of a fresh manager. *)
Definition init_stats : stats :=
  {| total_files := 0; files_copied := 0; files_skipped := 0; total_size := 0;
     start_time := None; end_time := None |}.

Definition init (files : gmap string file_meta) : manager :=
  {| m_stats := init_stats; backup_path := EmptyString; fs := files; polls := 0;
     events := []; backup_log := []; backup_metadata := None; archive := [];
     last_backup := None |}.

(** [self._stop_flag.is_set()] *)
Definition poll (env : environment) (m : manager) : bool * manager :=
  (stop_flag env (polls m), tick_poll m).

(** [_log] *)
Definition log (cfg : config) (msg : message) (lvl : level) (m : manager) : manager :=
  if log_callback cfg then emit (Log msg lvl) m else m.

Definition path_exists (m : manager) (p : string) : bool :=
  match fs m !! p with Some _ => true | None => false end.

Definition getsize (m : manager) (p : string) : option Z := st_size <$> fs m !! p.

Definition getmtime (m : manager) (p : string) : option Z := st_mtime <$> fs m !! p.

(** ** [_collect_files] *)

(** The filter applied to [dirs] in place:
    [dirs[:] = [d for d in dirs if not d.startswith(".")]] under
    [skip_hidden], nothing otherwise. *)
Definition keep_dir (cfg : config) (d : string) : bool :=
  negb (skip_hidden cfg && Py.startswith d ".").

Definition walk (cfg : config) (env : environment) (source_dir : string) : list walk_entry :=
  match listing env !! source_dir with
  | Some t => os.walk (keep_dir cfg) source_dir [] t
  | None => []
  end.

Definition directory_item (source_dir : string) (e : walk_entry) (name : string)
    (file_size : Z) : file_info :=
  {| source_path := posixpath.join (we_root e) name;
     relative_path := relpath (we_rel e) name;
     size := file_size;
     source_type := directory;
     source_root := Some source_dir |}.

Definition file_item (file_path : string) (file_size : Z) : file_info :=
  {| source_path := file_path;
     relative_path := posixpath.basename file_path;
     size := file_size;
     source_type := file;
     source_root := None |}.

(** [for file in files]; the boolean tells that the loop left through
    [return all_files]. *)
Fixpoint collect_walk_files (cfg : config) (env : environment) (source_dir : string)
    (e : walk_entry) (names : list string) (all_files : list file_info) (m : manager)
    : list file_info * manager * bool :=
  match names with
  | [] => (all_files, m, false)
  | name :: rest =>
      let (stop, m) := poll env m in
      if stop then (all_files, m, true)
      else
        let file_path := posixpath.join (we_root e) name in
        if skip_hidden cfg && Py.startswith name "." then
          collect_walk_files cfg env source_dir e rest all_files m
        else
          match getsize m file_path with
          | Some file_size =>
              collect_walk_files cfg env source_dir e rest
                (all_files ++ [directory_item source_dir e name file_size])
                (set_stats (add_total_size file_size) m)
          | None =>
              collect_walk_files cfg env source_dir e rest all_files
                (log cfg (MsgStatFailed file_path) warning m)
          end
  end.

(** [for root, dirs, files in os.walk(source_dir)] *)
Fixpoint collect_walk (cfg : config) (env : environment) (source_dir : string)
    (entries : list walk_entry) (all_files : list file_info) (m : manager)
    : list file_info * manager * bool :=
  match entries with
  | [] => (all_files, m, false)
  | e :: rest =>
      let '(all_files, m, returned) :=
        collect_walk_files cfg env source_dir e (we_files e) all_files m in
      if returned then (all_files, m, true)
      else collect_walk cfg env source_dir rest all_files m
  end.

(** [for source_dir in self.source_dirs] *)
Fixpoint collect_dirs (cfg : config) (env : environment) (dirs : list string)
    (all_files : list file_info) (m : manager) : list file_info * manager * bool :=
  match dirs with
  | [] => (all_files, m, false)
  | source_dir :: rest =>
      let (stop, m) := poll env m in
      if stop then (all_files, m, false)
      else if negb (path_exists m source_dir) then
        collect_dirs cfg env rest all_files (log cfg (MsgDirNotFound source_dir) warning m)
      else
        let '(all_files, m, returned) :=
          collect_walk cfg env source_dir (walk cfg env source_dir) all_files m in
        if returned then (all_files, m, true)
        else collect_dirs cfg env rest all_files m
  end.

(** [for file_path in self.source_files] *)
Fixpoint collect_files_loop (cfg : config) (env : environment) (paths : list string)
    (all_files : list file_info) (m : manager) : list file_info * manager :=
  match paths with
  | [] => (all_files, m)
  | file_path :: rest =>
      let (stop, m) := poll env m in
      if stop then (all_files, m)
      else if negb (path_exists m file_path) then
        collect_files_loop cfg env rest all_files
          (log cfg (MsgFileNotFound file_path) warning m)
      else
        match getsize m file_path with
        | Some file_size =>
            collect_files_loop cfg env rest (all_files ++ [file_item file_path file_size])
              (set_stats (add_total_size file_size) m)
        | None =>
            collect_files_loop cfg env rest all_files
              (log cfg (MsgStatFailed file_path) warning m)
        end
  end.

Definition _collect_files (cfg : config) (env : environment) (m : manager)
    : list file_info * manager :=
  let '(all_files, m, returned) := collect_dirs cfg env (source_dirs cfg) [] m in
  if returned then (all_files, m)
  else collect_files_loop cfg env (source_files cfg) all_files m.

(** ** [_should_skip_file] *)

Definition _should_skip_file (m : manager) (source_path target_path : string) : bool :=
  if negb (path_exists m target_path) then false
  else
    match getmtime m source_path, getmtime m target_path with
    | Some source_mtime, Some target_mtime => (source_mtime <=? target_mtime)%Z
    | _, _ => false
    end.

(** ** [_copy_files] *)

Inductive result :=
| Returned (m : manager)
| Raised (e : exn) (m : manager).

Definition is_directory (k : source_kind) : bool :=
  match k with directory => true | file => false end.

(** [source_root.replace(":", "_").lstrip("/")] *)
Definition sanitized_root (r : string) : string :=
  Py.lstrip (Py.is_char "/") (Py.replace_char ":" "_" r).

Definition target_path_of (cfg : config) (backup_path : string) (fi : file_info)
    : exn + string :=
  if preserve_structure cfg && is_directory (source_type fi) then
    match source_root fi with
    | Some r =>
        inr (posixpath.join (posixpath.join backup_path (sanitized_root r))
               (relative_path fi))
    | None => inl KeyError
    end
  else inr (posixpath.join backup_path (posixpath.basename (source_path fi))).

(** [shutil.copy2]: the destination receives the content and the stat
    record of the source. *)
Definition copy2 (env : environment) (i : nat) (src dst : string) (m : manager)
    : exn + manager :=
  match copy_fault env i with
  | Some e => inl e
  | None =>
      match fs m !! src with
      | None => inl OSError
      | Some meta => inr (set_fs (<[dst := meta]> (fs m)) m)
      end
  end.

(** The body of the [try] for one item: the exception raised if any, with
    the manager and [copied_count] as they are when the body is left. *)
Definition copy_body (cfg : config) (env : environment) (total i : nat)
    (fi : file_info) (copied_count : nat) (m : manager) : option exn * manager * nat :=
  match target_path_of cfg (backup_path m) fi with
  | inl e => (Some e, m, copied_count)
  | inr target_path =>
      match makedirs_fault env i with
      | Some e => (Some e, m, copied_count)
      | None =>
          if incremental cfg && _should_skip_file m (source_path fi) target_path then
            let m := set_stats incr_skipped m in
            match log_write (LineSkipped (source_path fi)) m with
            | inl e => (Some e, m, copied_count)
            | inr m => (None, m, copied_count)
            end
          else
            match copy2 env i (source_path fi) target_path m with
            | inl e => (Some e, m, copied_count)
            | inr m =>
                let m := set_stats incr_copied m in
                let copied_count := S copied_count in
                match log_write (LineCopied (source_path fi) target_path) m with
                | inl e => (Some e, m, copied_count)
                | inr m =>
                    let m := if progress_callback cfg
                             then emit (Progress (S i) total (source_path fi)) m else m in
                    let m := if Nat.eqb (copied_count mod 10) 0
                             then log cfg (MsgCopiedSoFar copied_count total) info m
                             else m in
                    (None, m, copied_count)
                end
            end
      end
  end.

(** One item: the [try] with its two handlers. *)
Definition copy_item (cfg : config) (env : environment) (total i : nat)
    (fi : file_info) (copied_count : nat) (m : manager) : manager * nat :=
  let '(raised, m, copied_count) := copy_body cfg env total i fi copied_count m in
  match raised with
  | None => (m, copied_count)
  | Some PermissionError =>
      (set_stats incr_skipped (log cfg (MsgNoPermission (source_path fi)) warning m),
       copied_count)
  | Some _ =>
      (set_stats incr_skipped (log cfg (MsgCopyError (source_path fi)) warning m),
       copied_count)
  end.

(** [for i, file_info in enumerate(files)] *)
Fixpoint copy_loop (cfg : config) (env : environment) (total i : nat)
    (files : list file_info) (copied_count : nat) (m : manager) : manager :=
  match files with
  | [] => m
  | fi :: rest =>
      let (stop, m) := poll env m in
      if stop then log cfg MsgStopped warning m
      else
        let (m, copied_count) := copy_item cfg env total i fi copied_count m in
        copy_loop cfg env total (S i) rest copied_count m
  end.

Definition log_footer (m : manager) : manager :=
  let m := append_line LineRule m in
  let m := append_line LineFinished m in
  let m := append_line (LineCopiedTotal (files_copied (m_stats m))) m in
  append_line (LineSkippedTotal (files_skipped (m_stats m))) m.

(** [json.dump(metadata, f, ensure_ascii=False)] into a file opened with
    [encoding="utf-8"] goes through when the strings of the document
    encode. *)
Definition metadata_encodable (md : metadata) : bool :=
  forallb Py.utf8_valid
    (md_backup_name md :: md_timestamp md :: md_directories md ++ md_files md).

Definition _copy_files (cfg : config) (env : environment) (files : list file_info)
    (md : metadata) (m : manager) : result :=
  match open_metadata_fault env with
  | Some e => Raised e m
  | None =>
    if negb (metadata_encodable md) then Raised UnicodeEncodeError m
    else
      let m := set_backup_metadata md m in
      match open_log_fault env with
      | Some e => Raised e m
      | None =>
          let m := set_backup_log [] m in
          let m := append_line LineStarted m in
          let m := append_line (LineTotal (length files)) m in
          let m := append_line LineRule m in
          let m := copy_loop cfg env (length files) 0 files 0 m in
          Returned (log_footer m)
      end
  end.

(** ** [_create_compressed_backup] *)

Definition arcname_of (cfg : config) (fi : file_info) : exn + string :=
  if preserve_structure cfg && is_directory (source_type fi) then
    match source_root fi with
    | Some r => inr (posixpath.join (sanitized_root r) (relative_path fi))
    | None => inl KeyError
    end
  else inr (posixpath.basename (source_path fi)).

Definition archive_body (cfg : config) (env : environment) (total i : nat)
    (fi : file_info) (m : manager) : exn + manager :=
  match arcname_of cfg fi with
  | inl e => inl e
  | inr arcname =>
      match copy_fault env i with
      | Some e => inl e
      | None =>
          match fs m !! source_path fi with
          | None => inl OSError
          | Some _ =>
              if negb (Py.utf8_valid arcname) then inl UnicodeEncodeError else
              let m := archive_add arcname (source_path fi) m in
              let m := set_stats incr_copied m in
              inr (if progress_callback cfg
                   then emit (Progress (S i) total (source_path fi)) m else m)
          end
      end
  end.

Definition archive_item (cfg : config) (env : environment) (total i : nat)
    (fi : file_info) (m : manager) : manager :=
  match archive_body cfg env total i fi m with
  | inr m => m
  | inl _ =>
      set_stats incr_skipped (log cfg (MsgArchiveAddError (source_path fi)) warning m)
  end.

Fixpoint archive_loop (cfg : config) (env : environment) (total i : nat)
    (files : list file_info) (m : manager) : manager :=
  match files with
  | [] => m
  | fi :: rest =>
      let (stop, m) := poll env m in
      if stop then m
      else archive_loop cfg env total (S i) rest (archive_item cfg env total i fi m)
  end.

Definition _create_compressed_backup (cfg : config) (env : environment)
    (files : list file_info) (md : metadata) (m : manager) : result :=
  let archive_path := posixpath.join (backup_path m) "backup.zip" in
  let m := log cfg (MsgArchiveCreating archive_path) info m in
  match open_archive_fault env with
  | Some e => Raised e m
  | None =>
    if negb (metadata_encodable md) then Raised UnicodeEncodeError m
    else
      let m := set_backup_metadata md m in
      let m := archive_loop cfg env (length files) 0 files m in
      Returned (log cfg (MsgArchiveCreated archive_path) success m)
  end.

(** ** [save_backup_info] and [start_backup] *)

Definition save_backup_info (env : environment) (md : metadata) (m : manager) : result :=
  match save_info_fault env with
  | Some e => Raised e m
  | None =>
    if negb (Py.utf8_valid (md_timestamp md) && Py.utf8_valid (backup_path m))
    then Raised UnicodeEncodeError m
    else
      Returned (set_last_backup
                  {| bi_last_backup := md_timestamp md;
                     bi_backup_path := backup_path m;
                     bi_stats := m_stats m |} m)
  end.

Definition backup_name (env : environment) : string := "backup_" +:+ clock_stamp env.

Definition metadata_of (cfg : config) (env : environment) : metadata :=
  {| md_backup_name := backup_name env;
     md_timestamp := clock_iso env;
     md_incremental := incremental cfg;
     md_compress := compress cfg;
     md_preserve_structure := preserve_structure cfg;
     md_directories := source_dirs cfg;
     md_files := source_files cfg |}.

(** The body of the [try] of [start_backup]. *)
Definition start_backup_body (cfg : config) (env : environment) (m : manager) : result :=
  let m := set_stats (with_start_time (clock_start env)) m in
  let m := log cfg MsgStarting info m in
  let m := log cfg (MsgSources (length (source_dirs cfg)) (length (source_files cfg))) info m in
  let m := log cfg (MsgTarget (target_dir cfg)) info m in
  let m := set_backup_path (posixpath.join (target_dir cfg) (backup_name env)) m in
  match makedirs_root_fault env with
  | Some e => Raised e m
  | None =>
      let md := metadata_of cfg env in
      let (all_files, m) := _collect_files cfg env m in
      let m := set_stats (with_total_files (length all_files)) m in
      if Nat.eqb (total_files (m_stats m)) 0 then Returned (log cfg MsgNoFiles warning m)
      else
        let m := log cfg (MsgFound (total_files (m_stats m))) info m in
        match (if compress cfg
               then _create_compressed_backup cfg env all_files md m
               else _copy_files cfg env all_files md m) with
        | Raised e m => Raised e m
        | Returned m =>
            match save_backup_info env md m with
            | Raised e m => Raised e m
            | Returned m =>
                let m := set_stats (with_end_time (clock_end env)) m in
                let m := log cfg MsgDone success m in
                let m := log cfg (MsgStatistics (files_copied (m_stats m))
                                    (files_skipped (m_stats m))) info m in
                Returned (log cfg (MsgDuration (clock_end env - clock_start env)) info m)
            end
        end
  end.

(** [start_backup]: an exception is logged and raised again. *)
Definition start_backup (cfg : config) (env : environment) (m : manager) : result :=
  match start_backup_body cfg env m with
  | Raised e m => Raised e (log cfg (MsgBackupError e) error m)
  | Returned m => Returned m
  end.

(** ** [_to_json_safe] *)


(** ** [_get_file_hash] *)

(** [for chunk in iter(lambda: f.read(4096), b"")]: the reads stop at the
    first empty one; [fuel] bounds their number. *)
Fixpoint hash_chunks (fuel : nat) (data hash_md5 : list byte) : list byte :=
  match fuel with
  | 0 => hash_md5
  | S fuel' =>
      match firstn 4096 data with
      | [] => hash_md5
      | chunk => hash_chunks fuel' (skipn 4096 data) (hashlib.update hash_md5 chunk)
      end
  end.

(** [read_bytes] gives the content of the files that can be opened and
    read; for the others [open] raises. *)
Definition _get_file_hash (read_bytes : string -> option (list byte)) (filepath : string)
    : exn + string :=
  match read_bytes filepath with
  | None => inl OSError
  | Some data => inr (hashlib.hexdigest (hash_chunks (S (length data)) data hashlib.md5))
  end.

End BackupManager.

(* ===================================================================== *)
(** * backup_logic.py: the functions of the module *)
(* ===================================================================== *)

Module backup_logic.

Import os.

(** What the functions see of the files: [getsize] is [None] where
    [os.path.getsize] raises [OSError], and [tree] is [None] for a path that
    [os.walk] cannot list. *)
Record files := {
  path_exists : string -> bool;
  isfile : string -> bool;
  isdir : string -> bool;
  getsize : string -> option Z;
  tree : string -> option dir_tree }.

(** ** [validate_paths] *)

(** The dict that is returned. *)
Record validation := { valid : list string; invalid : list string }.

Definition validate_paths (f : files) (paths : list string) : validation :=
  fold_left
    (fun result path =>
       if path_exists f path
       then {| valid := valid result ++ [path]; invalid := invalid result |}
       else {| valid := valid result; invalid := invalid result ++ [path] |})
    paths {| valid := []; invalid := [] |}.

(** ** [calculate_backup_size] *)

(** [total_size += os.path.getsize(path)] in a [try] that passes on
    [OSError]. *)
Definition add_size (f : files) (total_size : Z) (path : string) : Z :=
  match getsize f path with
  | Some n => (total_size + n)%Z
  | None => total_size
  end.

(** [for root, dirs, files in os.walk(path): for file in files]; [dirs] is
    left as it is, so that every directory is walked. *)
Definition walk_sizes (f : files) (path : string) (total_size : Z) : Z :=
  match tree f path with
  | None => total_size
  | Some t =>
      fold_left
        (fun total_size e =>
           fold_left (fun total_size file =>
                        add_size f total_size (posixpath.join (we_root e) file))
             (we_files e) total_size)
        (os.walk (fun _ => true) path [] t) total_size
  end.

Definition calculate_backup_size (f : files) (paths : list string) : Z :=
  fold_left
    (fun total_size path =>
       if isfile f path then add_size f total_size path
       else if isdir f path then walk_sizes f path total_size
       else total_size)
    paths 0%Z.

(** ** [format_size] *)

(** The value of [size_bytes]: the [int] that was passed, then the [float]s
    that the divisions give; a [float] is given by the rational it
    denotes. *)
Inductive number := Int (n : Z) | Float (x : Q).

(** [float(n)]: the nearest double, ties to even; [None] stands for
    [OverflowError]. *)
Definition float_of_int (n : Z) : option Q :=
  let a := Z.abs n in
  if (a <? 2 ^ 53)%Z then Some (inject_Z n)
  else
    let shift := (Z.log2 a - 52)%Z in
    let q := Z.shiftr a shift in
    let r := (a - Z.shiftl q shift)%Z in
    let half := Z.shiftl 1 (shift - 1) in
    let q := if (half <? r)%Z || ((r =? half)%Z && Z.odd q) then (q + 1)%Z else q in
    let v := Z.shiftl q shift in
    if (2 ^ 1024 <=? v)%Z then None else Some (inject_Z (Z.sgn n * v)).

Definition decimal (n : Z) : string := NilZero.string_of_uint (N.to_uint (Z.to_N n)).

(** [f"{x:.2f}"] for a float: the decimal expansion of the exact value,
    rounded to two places, ties to even. *)
Definition format_2f (x : Q) : string :=
  let num := (Z.abs (Qnum x) * 100)%Z in
  let den := Z.pos (Qden x) in
  let floor := (num / den)%Z in
  let rest := (num mod den)%Z in
  let hundredths :=
    if (den <? 2 * rest)%Z || ((2 * rest =? den)%Z && Z.odd floor)
    then (floor + 1)%Z else floor in
  let cents := (hundredths mod 100)%Z in
  (if (Qnum x <? 0)%Z then "-" else "")
  +:+ decimal (hundredths / 100) +:+ "."
  +:+ (if (cents <? 10)%Z then "0" else "") +:+ decimal cents.

(** [size_bytes < 1024.0] *)
Definition below_1024 (size_bytes : number) : bool :=
  match size_bytes with
  | Int n => (n <? 1024)%Z
  | Float x => negb (Qle_bool 1024 x)
  end.

(** [f"{size_bytes:.2f}"]: an [int] is converted to a [float] first. *)
Definition format_number (size_bytes : number) : option string :=
  match size_bytes with
  | Int n => format_2f <$> float_of_int n
  | Float x => Some (format_2f x)
  end.

(** [size_bytes /= 1024.0]: dividing a double that is at least 1024 by a
    power of two is exact. *)
Definition divide_by_1024 (size_bytes : number) : option number :=
  match size_bytes with
  | Int n => (fun x => Float (x / 1024)) <$> float_of_int n
  | Float x => Some (Float (x / 1024))
  end.

(** [for unit in units], then the [return] after the loop. *)
Fixpoint format_loop (units : list string) (size_bytes : number) : option string :=
  match units with
  | [] => (fun s => s +:+ " PB") <$> format_number size_bytes
  | unit :: rest =>
      if below_1024 size_bytes
      then (fun s => s +:+ " " +:+ unit) <$> format_number size_bytes
      else match divide_by_1024 size_bytes with
           | Some quotient => format_loop rest quotient
           | None => None
           end
  end.

Definition format_size (size_bytes : Z) : option string :=
  format_loop ["B"; "KB"; "MB"; "GB"; "TB"] (Int size_bytes).

End backup_logic.

(* ===================================================================== *)
(** * main.py: [ParallelSSHBackupWorker] *)
(* ===================================================================== *)

Module ParallelSSHBackupWorker.

Import os.

Definition backslash : ascii := "\"%char.

Record config := {
  remote_target_dir : string;
  source_dirs : list string;
  source_files : list string;
  incremental : bool;
  skip_hidden : bool;
  preserve_structure : bool;
  compress : bool;
  max_workers : nat;
  use_hash_check : bool }.

(** An element of the list built by [_collect_files], later of the queue:
    [(local_path, remote_rel)]. *)
Definition item : Type := string * string.

Inductive level := info | warning | error | success.

Inductive message :=
| MsgParamikoMissing
| MsgNoFiles
| MsgConnecting
| MsgTarget (remote_root : string)
| MsgParallel (workers : nat)
| MsgUploadError (remote_rel : string)
| MsgFinished (copied skipped failed : nat)
| MsgSessionError.

Inductive event :=
| Log (msg : message) (lvl : level)
| Progress (current total : nat) (text : string).

(** A request sent over the SFTP session. *)
Inductive sftp_call :=
| Stat (path : string)
| Mkdir (path : string)
| Put (local_path remote_path : string)
| OpenRead (path : string)
| OpenWrite (path : string) (data : string).

(** An attribute of the object [sftp.stat] returns: the object may lack
    it, or hold [None] when the server did not send it, or an integer. *)
Inductive attribute := Absent | NoneValue | IntValue (z : Z).

Record sftp_attrs := { st_size : attribute; st_mtime : attribute }.

(** [int(getattr(st, name, default))]: [int(None)] raises [TypeError]. *)
Definition int_getattr (a : attribute) (default : Z) : option Z :=
  match a with
  | Absent => Some default
  | NoneValue => None
  | IntValue z => Some z
  end.

(** What the session and the local files answer while one item is dealt
    with; [None] and [false] stand for a raised exception. *)
Record responses := {
  sftp_stat : string -> option sftp_attrs;
  sftp_read : string -> option (list byte);
  sftp_put : string -> string -> bool;
  sftp_write : string -> string -> bool;
  sftp_mkdir : string -> bool;
  getsize : string -> option Z;
  getmtime : string -> option Q;
  read_bytes : string -> option (list byte) }.

Record stats := {
  total_files : nat;
  files_copied : nat;
  total_size_mb : Q;
  skipped : nat;
  failed : nat }.

Definition init_stats : stats :=
  {| total_files := 0; files_copied := 0; total_size_mb := 0; skipped := 0; failed := 0 |}.

Definition incr_copied (s : stats) : stats :=
  {| total_files := total_files s; files_copied := S (files_copied s);
     total_size_mb := total_size_mb s; skipped := skipped s; failed := failed s |}.

Definition incr_skipped (s : stats) : stats :=
  {| total_files := total_files s; files_copied := files_copied s;
     total_size_mb := total_size_mb s; skipped := S (skipped s); failed := failed s |}.

Definition incr_failed (s : stats) : stats :=
  {| total_files := total_files s; files_copied := files_copied s;
     total_size_mb := total_size_mb s; skipped := skipped s; failed := S (failed s) |}.

(** ** [_is_hidden_rel] *)

Definition _is_hidden_rel (rel_path : string) : bool :=
  existsb
    (fun p => Py.startswith p "." && negb (String.eqb p "." || String.eqb p ".."))
    (Py.split "/" (Py.replace_char backslash "/" rel_path)).

(** ** [_collect_files] *)

Definition keep_dir (cfg : config) (d : string) : bool :=
  negb (skip_hidden cfg && Py.startswith d ".").

(** [os.path.basename(src_dir.rstrip("\\/")) or "folder"] *)
Definition base_name_of (src_dir : string) : string :=
  let b := posixpath.basename
             (Py.rstrip (fun a => Ascii.eqb a backslash || Ascii.eqb a "/") src_dir) in
  if String.eqb b EmptyString then "folder" else b.

(** [rel_posix] for the file [fn] of the triple [e]: [os.path.relpath(root,
    src_dir)] is the path of the directories walked through, or [.] at the
    top, which the code turns into the empty string. *)
Definition rel_posix_of (e : walk_entry) (fn : string) : string :=
  let rel_root := Py.join "/" (we_rel e) in
  let rel := if String.eqb rel_root EmptyString then fn else posixpath.join rel_root fn in
  Py.replace_char backslash "/" rel.

(** [for fn in files]; the stop flag is read once per file, [stop n] is
    what the [n]-th read finds. *)
Fixpoint collect_walk_files (cfg : config) (stop : nat -> bool) (base_name : string)
    (e : walk_entry) (fns : list string) (items : list item) (polls : nat)
    : list item * nat :=
  match fns with
  | [] => (items, polls)
  | fn :: rest =>
      if stop polls then (items, S polls)
      else if skip_hidden cfg && Py.startswith fn "." then
        collect_walk_files cfg stop base_name e rest items (S polls)
      else
        let local_path := posixpath.join (we_root e) fn in
        let rel_posix := rel_posix_of e fn in
        if skip_hidden cfg && _is_hidden_rel rel_posix then
          collect_walk_files cfg stop base_name e rest items (S polls)
        else
          let remote_rel :=
            if preserve_structure cfg then posixpath.join base_name rel_posix
            else posixpath.basename local_path in
          collect_walk_files cfg stop base_name e rest
            (items ++ [(local_path, remote_rel)]) (S polls)
  end.

(** [for root, dirs, files in os.walk(src_dir)] *)
Fixpoint collect_walk (cfg : config) (stop : nat -> bool) (base_name : string)
    (entries : list walk_entry) (items : list item) (polls : nat) : list item * nat :=
  match entries with
  | [] => (items, polls)
  | e :: rest =>
      if stop polls then (items, S polls)
      else
        let (items, polls) :=
          collect_walk_files cfg stop base_name e (we_files e) items (S polls) in
        collect_walk cfg stop base_name rest items polls
  end.

(** [for src_dir in self.source_dirs] *)
Fixpoint collect_dirs (cfg : config) (stop : nat -> bool) (listing : gmap string dir_tree)
    (dirs : list string) (items : list item) (polls : nat) : list item * nat :=
  match dirs with
  | [] => (items, polls)
  | src_dir :: rest =>
      let entries :=
        match listing !! src_dir with
        | Some t => os.walk (keep_dir cfg) src_dir [] t
        | None => []
        end in
      let (items, polls) :=
        collect_walk cfg stop (base_name_of src_dir) entries items polls in
      collect_dirs cfg stop listing rest items polls
  end.

(** [for fp in self.source_files] *)
Fixpoint collect_single_files (cfg : config) (stop : nat -> bool) (fps : list string)
    (items : list item) (polls : nat) : list item * nat :=
  match fps with
  | [] => (items, polls)
  | fp :: rest =>
      if stop polls then (items, S polls)
      else
        let name := posixpath.basename fp in
        if skip_hidden cfg && Py.startswith name "." then
          collect_single_files cfg stop rest items (S polls)
        else collect_single_files cfg stop rest (items ++ [(fp, name)]) (S polls)
  end.

(** The sum of the sizes that can be read. *)
Definition total_bytes_of (size_of : string -> option Z) (items : list item) : Z :=
  fold_left (fun total it => match size_of (fst it) with
                             | Some n => (total + n)%Z
                             | None => total
                             end) items 0%Z.

(** [_collect_files]: the items, the statistics it sets, the number of
    reads of the stop flag. *)
Definition _collect_files (cfg : config) (stop : nat -> bool)
    (listing : gmap string dir_tree) (size_of : string -> option Z) (st : stats)
    : list item * stats * nat :=
  let (items, polls) := collect_dirs cfg stop listing (source_dirs cfg) [] 0 in
  let (items, polls) := collect_single_files cfg stop (source_files cfg) items polls in
  let total_bytes := total_bytes_of size_of items in
  (items,
   {| total_files := length items; files_copied := files_copied st;
      total_size_mb := inject_Z total_bytes / inject_Z (1024 * 1024);
      skipped := skipped st; failed := failed st |},
   polls).

(** ** [_remote_norm] and [_mkdirs] *)

Definition _remote_norm (path : string) : string :=
  let p := Py.replace_char backslash "/" path in
  let p := if Py.startswith p "/" then p else "/" +:+ p in
  let p := posixpath.normpath p in
  if String.eqb p "." then "/" else p.

Fixpoint mkdirs_loop (r : responses) (parts : list string) (cur : string) : list sftp_call :=
  match parts with
  | [] => []
  | part :: rest =>
      if String.eqb part EmptyString then mkdirs_loop r rest cur
      else
        let cur := if String.eqb cur "/" then "/" +:+ part else posixpath.join cur part in
        (match sftp_stat r cur with
         | Some _ => [Stat cur]
         | None => [Stat cur; Mkdir cur]
         end) ++ mkdirs_loop r rest cur
  end.

Definition _mkdirs (r : responses) (remote_dir : string) : list sftp_call :=
  let remote_dir := _remote_norm remote_dir in
  if String.eqb remote_dir "/" || String.eqb remote_dir EmptyString then []
  else
    let is_slash := Py.is_char "/" in
    mkdirs_loop r (Py.split "/" (Py.rstrip is_slash (Py.lstrip is_slash remote_dir))) "/".

(** ** [_calculate_md5] *)

(** [while chunk := f.read(chunk_size): md5.update(chunk)]; [fuel] bounds
    the number of reads. *)
Fixpoint md5_chunks (chunk_size fuel : nat) (data : list byte) (h : list byte)
    : list byte :=
  match fuel with
  | 0 => h
  | S fuel' =>
      match firstn chunk_size data with
      | [] => h
      | chunk => md5_chunks chunk_size fuel' (skipn chunk_size data) (hashlib.update h chunk)
      end
  end.

Definition _calculate_md5 (r : responses) (filepath : string) (chunk_size : nat)
    : option string :=
  match read_bytes r filepath with
  | None => None
  | Some data =>
      Some (hashlib.hexdigest (md5_chunks chunk_size (S (length data)) data hashlib.md5))
  end.

(** The default [chunk_size=8192]. *)
Definition default_chunk_size : nat := 8 * 1024.

(** ** [_should_skip_incremental] *)

(** The first [try]: size and modification time. *)
Definition metadata_check (r : responses) (local_path remote_path : string) : bool :=
  match sftp_stat r remote_path with
  | None => false
  | Some st =>
      match getsize r local_path with
      | None => false
      | Some local_size =>
          match getmtime r local_path with
          | None => false
          | Some mtime =>
              let local_mtime := Py.int_of_float mtime in
              match int_getattr (st_mtime st) 0 with
              | None => false
              | Some remote_mtime =>
                  match int_getattr (st_size st) (-1) with
                  | None => false
                  | Some remote_size =>
                      (remote_size =? local_size)%Z && (local_mtime <=? remote_mtime)%Z
                  end
              end
          end
      end
  end.

(** The second [try]: the side-car digest.  [f.read()] on the file that
    [sftp.open] returns yields [bytes]; [local_hash] is the [str] that
    [hexdigest] returns. *)
Definition hash_check (r : responses) (local_path remote_path : string) : bool :=
  match sftp_read r (remote_path +:+ ".hash") with
  | None => false
  | Some data =>
      let remote_hash := Py.bytes_strip data in
      match _calculate_md5 r local_path default_chunk_size with
      | None => false
      | Some local_hash => Py.str_eq_bytes local_hash remote_hash
      end
  end.

(** The answer together with the requests sent to the session. *)
Definition _should_skip_incremental (cfg : config) (r : responses)
    (local_path remote_path : string) : bool * list sftp_call :=
  if negb (incremental cfg) then (false, [])
  else if metadata_check r local_path remote_path then (true, [Stat remote_path])
  else if use_hash_check cfg then
    (hash_check r local_path remote_path,
     [Stat remote_path; OpenRead (remote_path +:+ ".hash")])
  else (false, [Stat remote_path]).

(** ** [_upload_file] *)

Definition _upload_file (cfg : config) (r : responses)
    (local_path remote_path remote_rel : string) : bool * list sftp_call * list event :=
  let calls := _mkdirs r (posixpath.dirname remote_path) ++ [Put local_path remote_path] in
  if negb (sftp_put r local_path remote_path) then
    (false, calls, [Log (MsgUploadError remote_rel) error])
  else if use_hash_check cfg then
    match _calculate_md5 r local_path default_chunk_size with
    | None => (false, calls, [Log (MsgUploadError remote_rel) error])
    | Some local_hash =>
        (true, calls ++ [OpenWrite (remote_path +:+ ".hash") local_hash], [])
    end
  else (true, calls, []).

(** ** [_upload_worker] *)

Inductive outcome := Skipped | Uploaded | Failed.

(** [posixpath.join(remote_root, remote_rel.replace(backslash, "/"))] *)
Definition remote_path_of (cfg : config) (remote_rel : string) : string :=
  let remote_root := _remote_norm (remote_target_dir cfg) in
  posixpath.join remote_root (Py.replace_char backslash "/" remote_rel).

(** The body of the loop for the item taken from the queue. *)
Definition process (cfg : config) (r : responses) (it : item)
    : outcome * list sftp_call * list event :=
  let (local_path, remote_rel) := it in
  let remote_path := remote_path_of cfg remote_rel in
  let (skip, calls) := _should_skip_incremental cfg r local_path remote_path in
  if skip then (Skipped, calls, [Progress 1 0 ("Skipped: " +:+ remote_rel)])
  else
    let '(ok, calls', evs) := _upload_file cfg r local_path remote_path remote_rel in
    (if ok then Uploaded else Failed, calls ++ calls', evs).

Definition count (o : outcome) (s : stats) : stats :=
  match o with
  | Skipped => incr_skipped s
  | Uploaded => incr_copied s
  | Failed => incr_failed s
  end.

(** Where a worker thread stands: at the test of [while not
    self._stop_flag], past it and about to call [get_nowait], holding an
    item, or out of its loop. *)
Inductive worker :=
| AtLoopHead
| AtQueue
| Holding (it : item)
| Exited.

(** The worker object while the pool runs; [unfinished_tasks] is the
    counter of the queue that [put] raises, [task_done] lowers and [join]
    waits on. *)
Record scheduler := {
  queue : list item;
  unfinished_tasks : nat;
  workers : list worker;
  stop_flag : bool;
  s_stats : stats;
  events : list event;
  calls : list sftp_call }.

Definition with_worker (w : nat) (x : worker) (s : scheduler) : scheduler :=
  {| queue := queue s; unfinished_tasks := unfinished_tasks s;
     workers := <[w := x]> (workers s); stop_flag := stop_flag s;
     s_stats := s_stats s; events := events s; calls := calls s |}.

Definition take_item (w : nat) (it : item) (rest : list item) (s : scheduler) : scheduler :=
  {| queue := rest; unfinished_tasks := unfinished_tasks s;
     workers := <[w := Holding it]> (workers s); stop_flag := stop_flag s;
     s_stats := s_stats s; events := events s; calls := calls s |}.

Definition task_done (w : nat) (res : outcome * list sftp_call * list event)
    (s : scheduler) : scheduler :=
  {| queue := queue s; unfinished_tasks := pred (unfinished_tasks s);
     workers := <[w := AtLoopHead]> (workers s); stop_flag := stop_flag s;
     s_stats := count (fst (fst res)) (s_stats s);
     events := events s ++ snd res; calls := calls s ++ snd (fst res) |}.

Definition set_stop (s : scheduler) : scheduler :=
  {| queue := queue s; unfinished_tasks := unfinished_tasks s;
     workers := workers s; stop_flag := true;
     s_stats := s_stats s; events := events s; calls := calls s |}.

(** One atomic move of one thread. *)
Inductive step (cfg : config) : scheduler -> scheduler -> Prop :=
| step_test_clear w s :
    workers s !! w = Some AtLoopHead -> stop_flag s = false ->
    step cfg s (with_worker w AtQueue s)
| step_test_set w s :
    workers s !! w = Some AtLoopHead -> stop_flag s = true ->
    step cfg s (with_worker w Exited s)
| step_get w s it rest :
    workers s !! w = Some AtQueue -> queue s = it :: rest ->
    step cfg s (take_item w it rest s)
| step_empty w s :
    workers s !! w = Some AtQueue -> queue s = [] ->
    step cfg s (with_worker w Exited s)
| step_item w s it r :
    workers s !! w = Some (Holding it) ->
    step cfg s (task_done w (process cfg r it) s)
| step_stop s :
    step cfg s (set_stop s).

Inductive reachable (cfg : config) (s0 : scheduler) : scheduler -> Prop :=
| reach_start : reachable cfg s0 s0
| reach_step s s' : reachable cfg s0 s -> step cfg s s' -> reachable cfg s0 s'.

(** [self._queue.join()] returns. *)
Definition joined (s : scheduler) : Prop := unfinished_tasks s = 0.

(** ** [start_backup] *)

Record world := {
  paramiko_present : bool;
  stop_reads : nat -> bool;
  listing : gmap string dir_tree;
  local_size : string -> option Z;
  connects : bool;
  root_responses : responses }.

(** The three ways [start_backup] goes on after collection: nothing to
    send, no session, or the pool started on the filled queue. *)
Inductive started :=
| NothingToDo (st : stats) (evs : list event)
| NoSession (st : stats) (evs : list event)
| Pool (s : scheduler).

Definition start_backup (cfg : config) (wd : world) : started :=
  if negb (paramiko_present wd) then
    NothingToDo init_stats [Log MsgParamikoMissing error]
  else
    let '(items, st, polls) :=
      _collect_files cfg (stop_reads wd) (listing wd) (local_size wd) init_stats in
    match items with
    | [] => NothingToDo st [Log MsgNoFiles warning]
    | _ =>
        if negb (connects wd) then
          NoSession st [Log MsgConnecting info; Log MsgSessionError error]
        else
          let remote_root := _remote_norm (remote_target_dir cfg) in
          Pool {| queue := items; unfinished_tasks := length items;
                  workers := repeat AtLoopHead (max_workers cfg);
                  stop_flag := stop_reads wd polls;
                  s_stats := st;
                  events := [Log MsgConnecting info; Log (MsgTarget remote_root) success;
                             Log (MsgParallel (max_workers cfg)) info];
                  calls := _mkdirs (root_responses wd) remote_root |}
    end.

(** What [start_backup] logs once [join] has returned. *)
Definition report (s : scheduler) : event :=
  Log (MsgFinished (files_copied (s_stats s)) (skipped (s_stats s)) (failed (s_stats s)))
      (if Nat.eqb (failed (s_stats s)) 0 then success else warning).

End ParallelSSHBackupWorker.

(* ===================================================================== *)
(** * main.py: [PoogaloBackup], the parts that hold no widget *)
(* ===================================================================== *)

Module PoogaloBackup.

(** ** The log store: [_normalize_level] and [add_log] *)

Record log_entry := { ts : string; level : string; msg : string }.

Definition _normalize_level (log_type : string) : string :=
  if String.eqb log_type "error" then "ERROR"
  else if String.eqb log_type "warning" then "WARN"
  else if String.eqb log_type "success" then "INFO"
  else "INFO".

(** [l[-k:]] for [k >= 0]: the whole list when [k] is 0, since [-0] is 0. *)
Definition last_entries {A : Type} (k : nat) (l : list A) : list A :=
  if Nat.eqb k 0 then l else skipn (length l - k) l.

(** What [add_log] does to [self.logs_data]; [now] is the time stamp
    [strftime] gives. *)
Definition add_log (max_logs_keep : nat) (now : string) (logs_data : list log_entry)
    (message log_type : string) : list log_entry :=
  let logs_data :=
    logs_data ++ [{| ts := now; level := _normalize_level log_type; msg := message |}] in
  if max_logs_keep <? length logs_data then last_entries max_logs_keep logs_data
  else logs_data.

(** The entries that [add_log] then shows in the mini log of the sources
    page: [self.logs_data[-200:]]. *)
Definition mini_log (logs_data : list log_entry) : list log_entry :=
  last_entries 200 logs_data.

(** ** [_ssh_norm] and [ssh_go_up] *)

Definition _ssh_norm (p : string) : string :=
  let p := Py.replace_char ParallelSSHBackupWorker.backslash "/" p in
  let p := if Py.startswith p "/" then p else "/" +:+ p in
  let p := posixpath.normpath p in
  if String.eqb p "." then "/" else p.

(** [self.ssh_current_path] after [ssh_go_up]: without a session, and at
    the root, the method returns at once; otherwise the parent is stored and
    [ssh_refresh] stores its normal form. *)
Definition ssh_go_up (connected : bool) (ssh_current_path : string) : string :=
  if negb connected then ssh_current_path
  else
    let cur := _ssh_norm ssh_current_path in
    if String.eqb cur "/" then ssh_current_path
    else
      let parent := posixpath.dirname (Py.rstrip (Py.is_char "/") cur) in
      let parent := if String.eqb parent EmptyString then "/" else parent in
      _ssh_norm parent.

(** ** The rows of the remote browser and [ssh_rename] *)

(** The path that [ssh_refresh] gives the row of the entry [name] of the
    directory [cur]. *)
Definition row_path (cur name : string) : string :=
  if negb (String.eqb cur "/") then posixpath.join cur name else "/" +:+ name.

(** The new path that [ssh_rename] asks the server for. *)
Definition ssh_rename_target (old_path new_name : string) : string :=
  let dir_path := posixpath.dirname old_path in
  posixpath.join dir_path new_name.

(** ** [_ssh_delete_recursive] *)

(** An entry of a remote directory as [listdir_attr] reports it: a
    directory with its entries, or anything else. *)
#[warnings="-register-all"] Inductive remote_node :=
| RemoteFile
| RemoteDir (entries : list (string * remote_node)).

Inductive sftp_request :=
| ListDir (path : string)
| Remove (path : string)
| Rmdir (path : string).

(** The requests sent, and whether the call returned; [raises] tells the
    requests that the server refuses, and listing what is not a directory
    is refused. *)
Fixpoint _ssh_delete_recursive (raises : sftp_request -> bool) (path : string)
    (node : remote_node) : list sftp_request * bool :=
  match node with
  | RemoteFile => ([ListDir path], false)
  | RemoteDir entries =>
      if raises (ListDir path) then ([ListDir path], false)
      else
        let '(requests, returned) :=
          (fix each (entries : list (string * remote_node)) : list sftp_request * bool :=
             match entries with
             | [] => ([], true)
             | (filename, entry) :: rest =>
                 let entry_path := posixpath.join path filename in
                 let '(requests, returned) :=
                   match entry with
                   | RemoteDir _ => _ssh_delete_recursive raises entry_path entry
                   | RemoteFile =>
                       ([Remove entry_path], negb (raises (Remove entry_path)))
                   end in
                 if returned
                 then let '(more, returned) := each rest in (requests ++ more, returned)
                 else (requests, false)
             end) entries in
        if returned
        then ([ListDir path] ++ requests ++ [Rmdir path], negb (raises (Rmdir path)))
        else ([ListDir path] ++ requests, false)
  end.

(** ** The lists of sources and the profiles

    [self.source_dirs] and [self.source_files] are list objects, and so
    are the lists inside a profile read from [profiles.json]:
    [load_profile] stores these very objects in the application.  [heap]
    gives the content of each list object; of the application, this keeps
    the fields that hold the sources. *)

Record app := {
  heap : gmap nat (list string);
  next_ref : nat;
  source_dirs : nat;
  source_files : nat }.

(** The dict of a profile: the list objects under its keys
    [source_dirs] and [source_files], where it has them. *)
Record profile := { profile_dirs : option nat; profile_files : option nat }.

Definition content (s : app) (r : nat) : list string := default [] (heap s !! r).

Definition set_content (r : nat) (l : list string) (s : app) : app :=
  {| heap := <[r := l]> (heap s); next_ref := next_ref s;
     source_dirs := source_dirs s; source_files := source_files s |}.

(** A new list object. *)
Definition alloc (l : list string) (s : app) : nat * app :=
  (next_ref s,
   {| heap := <[next_ref s := l]> (heap s); next_ref := S (next_ref s);
      source_dirs := source_dirs s; source_files := source_files s |}).

(** [l.pop(index)]: the element and the rest, or [IndexError]. *)
Definition pop (index : Z) (l : list string) : option (string * list string) :=
  let n := Z.of_nat (length l) in
  let i := if (index <? 0)%Z then (index + n)%Z else index in
  if ((0 <=? i) && (i <? n))%Z then
    match nth_error l (Z.to_nat i) with
    | Some x => Some (x, firstn (Z.to_nat i) l ++ skipn (S (Z.to_nat i)) l)
    | None => None
    end
  else None.

(** [on_directory_selected] of [select_directory]; [path] is [ev.path]. *)
Definition on_directory_selected (path : option string) (s : app) : app :=
  match path with
  | Some p =>
      if String.eqb p EmptyString then s
      else set_content (source_dirs s) (content s (source_dirs s) ++ [p]) s
  | None => s
  end.

(** [on_files_selected] of [select_files]; [files] holds the paths of
    [ev.files], and is empty when there is none. *)
Definition on_files_selected (files : list string) (s : app) : app :=
  fold_left (fun s f => set_content (source_files s) (content s (source_files s) ++ [f]) s)
    files s.

Definition clear_sources (s : app) : app :=
  let s := set_content (source_dirs s) [] s in
  set_content (source_files s) [] s.

(** [remove_source]: an [IndexError] is caught and leaves the lists as
    they are. *)
Definition remove_source (index : Z) (source_type : string) (s : app) : app :=
  let r := if String.eqb source_type "dir" then source_dirs s else source_files s in
  match pop index (content s r) with
  | Some (_, rest) => set_content r rest s
  | None => s
  end.

(** [profile.get(key, [])] as [load_profile] uses it: the object under
    the key, or a new empty list. *)
Definition get_list (entry : option nat) (s : app) : nat * app :=
  match entry with
  | Some r => (r, s)
  | None => alloc [] s
  end.

(** [load_profile], for the sources: its first two statements, which no
    later failure undoes. *)
Definition load_profile (p : profile) (s : app) : app :=
  let (dirs, s) := get_list (profile_dirs p) s in
  let s := {| heap := heap s; next_ref := next_ref s;
              source_dirs := dirs; source_files := source_files s |} in
  let (files, s) := get_list (profile_files p) s in
  {| heap := heap s; next_ref := next_ref s;
     source_dirs := source_dirs s; source_files := files |}.

(** What [profiles.json] holds of a profile: the lists under the two
    keys, where present. *)
Record stored_profile := {
  stored_dirs : option (list string);
  stored_files : option (list string) }.

Definition parse_list (l : option (list string)) (s : app) : option nat * app :=
  match l with
  | Some l => let (r, s) := alloc l s in (Some r, s)
  | None => (None, s)
  end.

(** The dicts that [json.load] builds for [load_profiles_list], which
    hands each to the [load_profile] of its row: new objects at every
    read. *)
Fixpoint load_profiles_list (stored : list stored_profile) (s : app) : list profile * app :=
  match stored with
  | [] => ([], s)
  | sp :: rest =>
      let (dirs, s) := parse_list (stored_dirs sp) s in
      let (files, s) := parse_list (stored_files sp) s in
      let (ps, s) := load_profiles_list rest s in
      ({| profile_dirs := dirs; profile_files := files |} :: ps, s)
  end.

(** ** The profile store [profiles.json]

    The file is given by what reading it yields: it is missing, or
    [open] or [json.load] raises on it, or [json.load] returns a document.
    The documents are the values of JSON, which is what [json.load] returns
    and what the application puts into a profile. *)

#[warnings="-register-all"] Inductive doc :=
| DNull
| DBool (b : bool)
| DInt (n : Z)
| DFloat (x : Q)
| DStr (s : string)
| DList (items : list doc)
| DDict (members : list (string * doc)).

Inductive store := Missing | Unreadable | Stored (d : doc).

Definition _read_profiles (f : store) : list doc :=
  match f with
  | Stored (DList data) => data
  | _ => []
  end.

(** [open(..., "w")] may raise, which leaves the file as it is, and so may
    the writing after it, which leaves a truncated file. *)
Inductive write_fault := OpenFails | DumpFails.

(** The file afterwards, and whether the call raised. *)
Definition _write_profiles (fault : option write_fault) (profiles : list doc) (f : store)
    : store * bool :=
  match fault with
  | None => (Stored (DList profiles), false)
  | Some OpenFails => (f, true)
  | Some DumpFails => (Unreadable, true)
  end.

(** [d.get(key)] *)
Fixpoint dict_get (key : string) (members : list (string * doc)) : option doc :=
  match members with
  | [] => None
  | (k, v) :: rest => if String.eqb k key then Some v else dict_get key rest
  end.

(** [profile.get("timestamp") != timestamp_iso] for a dict [profile] *)
Definition other_timestamp (members : list (string * doc)) (timestamp_iso : string) : bool :=
  match dict_get "timestamp" members with
  | Some (DStr s) => negb (String.eqb s timestamp_iso)
  | _ => true
  end.

(** The profile that [save_profile] builds; [now] is
    [datetime.now().isoformat()]. *)
Definition new_profile (profile_name : string) (source_dirs source_files : list string)
    (target_dir : string) (settings : doc) (now : string) : doc :=
  DDict [("name", DStr profile_name);
         ("source_dirs", DList (List.map DStr source_dirs));
         ("source_files", DList (List.map DStr source_files));
         ("target_dir", DStr target_dir);
         ("settings", settings);
         ("timestamp", DStr now)].

(** [save_profile]: the file afterwards and the level of the message
    logged. *)
Definition save_profile (fault : option write_fault) (profile_name : string)
    (source_dirs source_files : list string) (target_dir : string) (settings : doc)
    (now : string) (f : store) : store * string :=
  if String.eqb profile_name EmptyString then (f, "warning")
  else
    let profile := new_profile profile_name source_dirs source_files target_dir settings now in
    let profiles := _read_profiles f ++ [profile] in
    let (f, raised) := _write_profiles fault profiles f in
    (f, if raised then "error" else "success").

(** [[p for p in profiles if p.get("timestamp") != timestamp_iso]]; an
    entry that is not a dict has no [get], which raises. *)
Fixpoint new_profiles (timestamp_iso : string) (profiles : list doc) : option (list doc) :=
  match profiles with
  | [] => Some []
  | DDict members :: rest =>
      match new_profiles timestamp_iso rest with
      | Some kept =>
          Some (if other_timestamp members timestamp_iso then DDict members :: kept else kept)
      | None => None
      end
  | _ :: _ => None
  end.

Definition delete_profile (fault : option write_fault) (timestamp_iso : string) (f : store)
    : store * string :=
  match new_profiles timestamp_iso (_read_profiles f) with
  | Some kept =>
      let (f, raised) := _write_profiles fault kept f in
      (f, if raised then "error" else "success")
  | None => (f, "error")
  end.

End PoogaloBackup.


(* ===================================================================== *)
(** * Properties *)
(* ===================================================================== *)

Import os BackupManager.

Definition never_stopped (env : environment) : Prop := forall n, stop_flag env n = false.

Definition sample_env (stamp : string) (dirs : gmap string dir_tree) : environment :=
  {| stop_flag := fun _ => false; listing := dirs;
     clock_stamp := stamp; clock_iso := stamp; clock_start := 0; clock_end := 1;
     makedirs_root_fault := None; open_metadata_fault := None; open_log_fault := None;
     open_archive_fault := None; save_info_fault := None;
     makedirs_fault := fun _ => None; copy_fault := fun _ => None |}.

Definition sample_cfg (dirs files : list string) : config :=
  {| source_dirs := dirs; source_files := files; target_dir := "/dst";
     incremental := true; skip_hidden := true; compress := false;
     preserve_structure := true; progress_callback := true; log_callback := true |}.

Definition meta (sz mt : Z) : file_meta := {| st_size := sz; st_mtime := mt |}.

Definition scenario_fs : gmap string file_meta :=
  <["/src" := meta 4096 5]> (<["/src/a" := meta 10 1]> (<["/src/b" := meta 20 2]>
  (<["/src/c" := meta 30 3]> (<["/src/.secret" := meta 10 4]> ∅)))).

Definition scenario_env : environment :=
  sample_env "20240101_000000" {[ "/src" := DirNode ["a"; "b"; "c"; ".secret"] [] ]}.

Example scenario_try :
  let r := _collect_files (sample_cfg ["/src"] []) scenario_env (init scenario_fs) in
  List.map relative_path (fst r) = ["a"; "b"; "c"] /\ total_size (m_stats (snd r)) = 60%Z.
Proof. vm_compute. split; reflexivity. Qed.

(** ** The local skip decision *)

(** C6. [_should_skip_file] answers [True] exactly when the destination
    entry exists and its modification time is at least that of the source
    (both times must be readable: an [OSError] yields [False]). *)
Theorem should_skip_file_iff (m : manager) (src dst : string) :
  _should_skip_file m src dst = true <->
  exists dmeta, fs m !! dst = Some dmeta /\
    exists smeta, fs m !! src = Some smeta /\ (st_mtime smeta <= st_mtime dmeta)%Z.
Proof.
  unfold _should_skip_file, path_exists, getmtime.
  destruct (fs m !! dst) as [dmeta|] eqn:Hd; simpl.
  - destruct (fs m !! src) as [smeta|] eqn:Hs; simpl.
    + rewrite Z.leb_le. split.
      * intros Hle. exists dmeta. split; [reflexivity|]. exists smeta. auto.
      * intros (d & Hd' & s & Hs' & Hle). congruence.
    + split; [discriminate|]. intros (d & _ & s & Hs' & _). discriminate.
  - split; [discriminate|]. intros (d & Hd' & _). discriminate.
Qed.

(** ** Events of level [error] *)

Definition is_error (e : event) : bool :=
  match e with Log _ error => true | _ => false end.

Definition error_events (m : manager) : list event := List.filter is_error (events m).

Lemma error_events_emit e m :
  error_events (emit e m) = error_events m ++ (if is_error e then [e] else []).
Proof. unfold error_events. simpl. rewrite List.filter_app. reflexivity. Qed.

Lemma error_events_log cfg msg lvl m :
  lvl <> error -> error_events (log cfg msg lvl m) = error_events m.
Proof.
  intros H. unfold log. destruct (log_callback cfg); [|reflexivity].
  rewrite error_events_emit. destruct lvl; simpl; try apply app_nil_r. congruence.
Qed.

Lemma error_events_progress (b : bool) i total p m :
  error_events (if b then emit (Progress i total p) m else m) = error_events m.
Proof. destruct b; [|reflexivity]. rewrite error_events_emit. apply app_nil_r. Qed.

(** ** Counting in the copy loop *)

Definition tally (m : manager) : nat :=
  files_copied (m_stats m) + files_skipped (m_stats m).

(** The number of items the loop takes up before a poll finds the stop flag
    set: the polls are numbered from [p], one per item. *)
Fixpoint processed (stop : nat -> bool) (p n : nat) : nat :=
  match n with
  | 0 => 0
  | S n' => if stop p then 0 else S (processed stop (S p) n')
  end.

Lemma processed_le stop p n : processed stop p n <= n.
Proof.
  revert p. induction n as [|n IH]; intros p; simpl; [lia|].
  destruct (stop p); [lia|]. specialize (IH (S p)). lia.
Qed.

Lemma processed_never stop p n : (forall k, stop k = false) -> processed stop p n = n.
Proof.
  intros H. revert p. induction n as [|n IH]; intros p; simpl; [reflexivity|].
  rewrite H, IH. reflexivity.
Qed.

(** The paths that the log line of an item carries encode. *)
Definition item_encodable (cfg : config) (bp : string) (fi : file_info) : bool :=
  Py.utf8_valid (source_path fi)
  && match target_path_of cfg bp fi with
     | inr target_path => Py.utf8_valid target_path
     | inl _ => true
     end.

Definition all_encodable (cfg : config) (bp : string) (files : list file_info) : Prop :=
  forall fi, In fi files -> item_encodable cfg bp fi = true.

Ltac item_cases :=
  unfold copy_item, copy_body, copy2, log_write, line_encodable, item_encodable,
    archive_item, archive_body, log, tally in *;
  repeat case_match; simplify_eq/=; try done; try lia.

Lemma log_stats cfg msg lvl m : m_stats (log cfg msg lvl m) = m_stats m.
Proof. unfold log. destruct (log_callback cfg); reflexivity. Qed.

Lemma log_polls cfg msg lvl m : polls (log cfg msg lvl m) = polls m.
Proof. unfold log. destruct (log_callback cfg); reflexivity. Qed.

Lemma log_backup_path cfg msg lvl m : backup_path (log cfg msg lvl m) = backup_path m.
Proof. unfold log. destruct (log_callback cfg); reflexivity. Qed.

Lemma log_fs cfg msg lvl m : fs (log cfg msg lvl m) = fs m.
Proof. unfold log. destruct (log_callback cfg); reflexivity. Qed.

(** An item adds one to the two counters together, or two when its log
    line raises after a counter has been raised. *)
Lemma copy_item_tally cfg env total i fi cc m :
  let r := copy_item cfg env total i fi cc m in
  (S (tally m) <= tally (fst r) <= S (S (tally m)))
  /\ total_files (m_stats (fst r)) = total_files (m_stats m)
  /\ polls (fst r) = polls m
  /\ backup_path (fst r) = backup_path m.
Proof. simpl. item_cases; repeat split; simpl; try done; lia. Qed.

Lemma copy_item_tally_encodable cfg env total i fi cc m :
  item_encodable cfg (backup_path m) fi = true ->
  tally (fst (copy_item cfg env total i fi cc m)) = S (tally m).
Proof.
  intros Henc. item_cases;
    repeat match goal with
           | H : _ && _ = true |- _ => apply andb_true_iff in H; destruct H
           | H : _ && _ = false |- _ => apply andb_false_iff in H; destruct H
           end; congruence.
Qed.

Lemma copy_loop_tally cfg env total files : forall i cc m,
  let m' := copy_loop cfg env total i files cc m in
  (tally m + processed (stop_flag env) (polls m) (length files) <= tally m'
   <= tally m + 2 * processed (stop_flag env) (polls m) (length files))
  /\ total_files (m_stats m') = total_files (m_stats m)
  /\ backup_path m' = backup_path m.
Proof.
  induction files as [|fi rest IH]; intros i cc m; simpl.
  - unfold tally. repeat split; lia.
  - destruct (stop_flag env (polls m)) eqn:Hstop.
    + unfold tally. rewrite log_stats, log_backup_path. simpl. repeat split; lia.
    + pose proof (copy_item_tally cfg env total i fi cc (tick_poll m)) as H.
      destruct (copy_item cfg env total i fi cc (tick_poll m)) as [m1 cc1].
      simpl in H. destruct H as (Ht & Hn & Hp & Hb).
      specialize (IH (S i) cc1 m1). simpl in IH. destruct IH as (IHt & IHn & IHb).
      rewrite IHn, IHb, Hn, Hb. rewrite Hp in IHt. unfold tally in *. simpl in *.
      repeat split; lia.
Qed.

Lemma copy_loop_tally_encodable cfg env total files : forall i cc m,
  all_encodable cfg (backup_path m) files ->
  tally (copy_loop cfg env total i files cc m)
  = tally m + processed (stop_flag env) (polls m) (length files).
Proof.
  induction files as [|fi rest IH]; intros i cc m Henc; simpl.
  - unfold tally. lia.
  - destruct (stop_flag env (polls m)) eqn:Hstop.
    + unfold tally. rewrite log_stats. simpl. lia.
    + pose proof (copy_item_tally cfg env total i fi cc (tick_poll m)) as H.
      pose proof (copy_item_tally_encodable cfg env total i fi cc (tick_poll m)
                    (Henc fi (or_introl eq_refl))) as He.
      destruct (copy_item cfg env total i fi cc (tick_poll m)) as [m1 cc1].
      simpl in H, He. destruct H as (_ & _ & Hp & Hb).
      rewrite IH, He, Hp by (rewrite Hb; intros fj Hj; apply Henc; right; exact Hj).
      unfold tally. simpl. lia.
Qed.

Lemma archive_item_tally cfg env total i fi m :
  let m' := archive_item cfg env total i fi m in
  tally m' = S (tally m)
  /\ total_files (m_stats m') = total_files (m_stats m)
  /\ polls m' = polls m
  /\ backup_path m' = backup_path m.
Proof. simpl. item_cases. Qed.

Lemma archive_loop_tally cfg env total files : forall i m,
  let m' := archive_loop cfg env total i files m in
  tally m' = tally m + processed (stop_flag env) (polls m) (length files)
  /\ total_files (m_stats m') = total_files (m_stats m)
  /\ backup_path m' = backup_path m.
Proof.
  induction files as [|fi rest IH]; intros i m; simpl.
  - unfold tally. repeat split; lia.
  - destruct (stop_flag env (polls m)) eqn:Hstop.
    + unfold tally. simpl. repeat split; lia.
    + pose proof (archive_item_tally cfg env total i fi (tick_poll m)) as H.
      simpl in H. destruct H as (Ht & Hn & Hp & Hb).
      specialize (IH (S i) (archive_item cfg env total i fi (tick_poll m))).
      simpl in IH. destruct IH as (IHt & IHn & IHb).
      rewrite IHt, IHn, IHb, Ht, Hn, Hp, Hb. unfold tally. simpl. repeat split; lia.
Qed.

(** What collection leaves untouched: the two counters, the files and the
    artefacts of the run. *)
Definition collect_frame (m m' : manager) : Prop :=
  files_copied (m_stats m') = files_copied (m_stats m)
  /\ files_skipped (m_stats m') = files_skipped (m_stats m)
  /\ backup_path m' = backup_path m
  /\ fs m' = fs m
  /\ backup_log m' = backup_log m
  /\ last_backup m' = last_backup m
  /\ error_events m' = error_events m.

Lemma collect_frame_refl m : collect_frame m m.
Proof. unfold collect_frame. tauto. Qed.

Lemma collect_frame_trans m1 m2 m3 :
  collect_frame m1 m2 -> collect_frame m2 m3 -> collect_frame m1 m3.
Proof. unfold collect_frame. intuition congruence. Qed.

Lemma collect_frame_log cfg msg m : collect_frame m (log cfg msg warning m).
Proof.
  unfold collect_frame. rewrite error_events_log by discriminate.
  unfold log. destruct (log_callback cfg); simpl; tauto.
Qed.

Lemma collect_frame_tick m : collect_frame m (tick_poll m).
Proof. unfold collect_frame. simpl. tauto. Qed.

Lemma collect_frame_size n m : collect_frame m (set_stats (add_total_size n) m).
Proof. unfold collect_frame. simpl. tauto. Qed.

Create HintDb frame.

#[local] Hint Resolve collect_frame_refl collect_frame_log collect_frame_tick
  collect_frame_size : frame.

Lemma collect_walk_files_frame cfg env sd e names : forall acc m,
  collect_frame m (snd (fst (collect_walk_files cfg env sd e names acc m))).
Proof.
  induction names as [|name rest IH]; intros acc m; simpl; [auto with frame|].
  destruct (stop_flag env (polls m)); [simpl; auto with frame|].
  destruct (skip_hidden cfg && Py.startswith name ".").
  - eapply collect_frame_trans; [|apply IH]. auto with frame.
  - unfold getsize. simpl. destruct (fs m !! _); simpl.
    + eapply collect_frame_trans; [|apply IH].
      eapply collect_frame_trans; [apply collect_frame_tick|apply collect_frame_size].
    + eapply collect_frame_trans; [|apply IH].
      eapply collect_frame_trans; [apply collect_frame_tick|apply collect_frame_log].
Qed.

Lemma collect_walk_frame cfg env sd entries : forall acc m,
  collect_frame m (snd (fst (collect_walk cfg env sd entries acc m))).
Proof.
  induction entries as [|e rest IH]; intros acc m; simpl; [auto with frame|].
  pose proof (collect_walk_files_frame cfg env sd e (we_files e) acc m) as H.
  destruct (collect_walk_files cfg env sd e (we_files e) acc m) as [[acc1 m1] ret].
  simpl in H. destruct ret; simpl; [exact H|].
  eapply collect_frame_trans; [exact H|apply IH].
Qed.

Lemma collect_dirs_frame cfg env dirs : forall acc m,
  collect_frame m (snd (fst (collect_dirs cfg env dirs acc m))).
Proof.
  induction dirs as [|d rest IH]; intros acc m; simpl; [auto with frame|].
  destruct (stop_flag env (polls m)); [simpl; auto with frame|].
  unfold path_exists. simpl. destruct (fs m !! d); simpl.
  - pose proof (collect_walk_frame cfg env d (walk cfg env d) acc (tick_poll m)) as H.
    destruct (collect_walk cfg env d (walk cfg env d) acc (tick_poll m)) as [[acc1 m1] ret].
    simpl in H. destruct ret; simpl.
    + eapply collect_frame_trans; [apply collect_frame_tick|exact H].
    + eapply collect_frame_trans; [|apply IH].
      eapply collect_frame_trans; [apply collect_frame_tick|exact H].
  - eapply collect_frame_trans; [|apply IH].
    eapply collect_frame_trans; [apply collect_frame_tick|apply collect_frame_log].
Qed.

Lemma collect_files_loop_frame cfg env paths : forall acc m,
  collect_frame m (snd (collect_files_loop cfg env paths acc m)).
Proof.
  induction paths as [|p rest IH]; intros acc m; simpl; [auto with frame|].
  destruct (stop_flag env (polls m)); [simpl; auto with frame|].
  unfold path_exists, getsize. simpl. destruct (fs m !! p); simpl.
  - eapply collect_frame_trans; [|apply IH].
    eapply collect_frame_trans; [apply collect_frame_tick|apply collect_frame_size].
  - eapply collect_frame_trans; [|apply IH].
    eapply collect_frame_trans; [apply collect_frame_tick|apply collect_frame_log].
Qed.

Lemma _collect_files_frame cfg env m :
  collect_frame m (snd (_collect_files cfg env m)).
Proof.
  unfold _collect_files.
  pose proof (collect_dirs_frame cfg env (source_dirs cfg) [] m) as H.
  destruct (collect_dirs cfg env (source_dirs cfg) [] m) as [[acc1 m1] ret].
  simpl in H. destruct ret; simpl; [exact H|].
  eapply collect_frame_trans; [exact H|apply collect_files_loop_frame].
Qed.

(** ** [start_backup] *)

(** The manager as [start_backup] hands it to [_collect_files]. *)
Definition prepared (cfg : config) (env : environment) (m : manager) : manager :=
  let m := set_stats (with_start_time (clock_start env)) m in
  let m := log cfg MsgStarting info m in
  let m := log cfg (MsgSources (length (source_dirs cfg)) (length (source_files cfg))) info m in
  let m := log cfg (MsgTarget (target_dir cfg)) info m in
  set_backup_path (posixpath.join (target_dir cfg) (backup_name env)) m.

(** The manifest of a run started on the files [files0]. *)
Definition manifest (cfg : config) (env : environment) (files0 : gmap string file_meta)
    : list file_info :=
  fst (_collect_files cfg env (prepared cfg env (init files0))).

Definition collected (cfg : config) (env : environment) (files0 : gmap string file_meta)
    : manager :=
  let r := _collect_files cfg env (prepared cfg env (init files0)) in
  log cfg (MsgFound (length (fst r))) info (set_stats (with_total_files (length (fst r))) (snd r)).

(** The closing steps of [start_backup] after the executor has returned. *)
Definition finished (cfg : config) (env : environment) (m : manager) : manager :=
  let m := set_stats (with_end_time (clock_end env)) m in
  let m := log cfg MsgDone success m in
  let m := log cfg (MsgStatistics (files_copied (m_stats m)) (files_skipped (m_stats m))) info m in
  log cfg (MsgDuration (clock_end env - clock_start env)) info m.

Lemma start_backup_body_unfold cfg env files0 :
  start_backup_body cfg env (init files0) =
  match makedirs_root_fault env with
  | Some e => Raised e (prepared cfg env (init files0))
  | None =>
      let all_files := manifest cfg env files0 in
      if Nat.eqb (length all_files) 0 then
        Returned (log cfg MsgNoFiles warning
                    (set_stats (with_total_files (length all_files))
                       (snd (_collect_files cfg env (prepared cfg env (init files0))))))
      else
        match (if compress cfg
               then _create_compressed_backup cfg env all_files (metadata_of cfg env)
                      (collected cfg env files0)
               else _copy_files cfg env all_files (metadata_of cfg env)
                      (collected cfg env files0)) with
        | Raised e m => Raised e m
        | Returned m =>
            match save_backup_info env (metadata_of cfg env) m with
            | Raised e m => Raised e m
            | Returned m => Returned (finished cfg env m)
            end
        end
  end.
Proof.
  unfold start_backup_body, manifest, collected, finished.
  fold (prepared cfg env (init files0)).
  destruct (makedirs_root_fault env); [reflexivity|].
  destruct (_collect_files cfg env (prepared cfg env (init files0))) as [all_files m1].
  reflexivity.
Qed.

Lemma prepared_init cfg env files0 :
  let m := prepared cfg env (init files0) in
  tally m = 0 /\ fs m = files0
  /\ backup_path m = posixpath.join (target_dir cfg) (backup_name env)
  /\ backup_log m = [] /\ last_backup m = None.
Proof. unfold prepared, log, tally. destruct (log_callback cfg); simpl; tauto. Qed.

Lemma collected_facts cfg env files0 :
  let m := collected cfg env files0 in
  tally m = 0 /\ fs m = files0
  /\ backup_path m = posixpath.join (target_dir cfg) (backup_name env)
  /\ total_files (m_stats m) = length (manifest cfg env files0)
  /\ last_backup m = None.
Proof.
  pose proof (prepared_init cfg env files0) as (Ht & Hf & Hb & Hl & Hlb).
  pose proof (_collect_files_frame cfg env (prepared cfg env (init files0)))
    as (Hc & Hs & Hp & Hfs & Hlog & Hlast & _).
  unfold collected, manifest, tally in *. simpl.
  rewrite log_stats, log_fs, log_backup_path. unfold log.
  destruct (log_callback cfg); simpl; (repeat split; [lia|congruence..]).
Qed.

Lemma prepared_errors cfg env files0 :
  error_events (prepared cfg env (init files0)) = [].
Proof.
  unfold prepared. change (error_events (set_backup_path ?p ?m)) with (error_events m).
  rewrite !error_events_log by discriminate. reflexivity.
Qed.

Lemma collected_errors cfg env files0 : error_events (collected cfg env files0) = [].
Proof.
  unfold collected. rewrite error_events_log by discriminate.
  change (error_events (set_stats ?f ?m)) with (error_events m).
  pose proof (_collect_files_frame cfg env (prepared cfg env (init files0))) as H.
  unfold collect_frame in H. destruct H as (_ & _ & _ & _ & _ & _ & H).
  rewrite H. apply prepared_errors.
Qed.

Ltac errors_simpl :=
  repeat first
    [ rewrite error_events_log by discriminate
    | rewrite error_events_emit; simpl; rewrite ?app_nil_r
    | progress change (error_events (set_stats ?f ?m)) with (error_events m)
    | progress change (error_events (set_fs ?f ?m)) with (error_events m)
    | progress change (error_events (append_line ?l ?m)) with (error_events m)
    | progress change (error_events (archive_add ?a ?b ?m)) with (error_events m)
    | progress change (error_events (tick_poll ?m)) with (error_events m) ].

Lemma copy_item_errors cfg env total i fi cc m :
  error_events (fst (copy_item cfg env total i fi cc m)) = error_events m.
Proof.
  unfold copy_item, copy_body, copy2, log_write.
  repeat case_match; simplify_eq/=; errors_simpl; reflexivity.
Qed.

Lemma copy_loop_errors cfg env total files : forall i cc m,
  error_events (copy_loop cfg env total i files cc m) = error_events m.
Proof.
  induction files as [|fi rest IH]; intros i cc m; simpl; [reflexivity|].
  destruct (stop_flag env (polls m)).
  - rewrite error_events_log by discriminate. reflexivity.
  - pose proof (copy_item_errors cfg env total i fi cc (tick_poll m)) as H.
    destruct (copy_item cfg env total i fi cc (tick_poll m)) as [m1 cc1].
    simpl in H. rewrite IH, H. reflexivity.
Qed.

Lemma archive_item_errors cfg env total i fi m :
  error_events (archive_item cfg env total i fi m) = error_events m.
Proof.
  unfold archive_item, archive_body.
  repeat case_match; simplify_eq/=; errors_simpl; reflexivity.
Qed.

Lemma archive_loop_errors cfg env total files : forall i m,
  error_events (archive_loop cfg env total i files m) = error_events m.
Proof.
  induction files as [|fi rest IH]; intros i m; simpl; [reflexivity|].
  destruct (stop_flag env (polls m)); [reflexivity|].
  rewrite IH, archive_item_errors. reflexivity.
Qed.

Lemma finished_facts cfg env m :
  let m' := finished cfg env m in
  files_copied (m_stats m') = files_copied (m_stats m)
  /\ files_skipped (m_stats m') = files_skipped (m_stats m)
  /\ total_files (m_stats m') = total_files (m_stats m)
  /\ backup_log m' = backup_log m
  /\ last_backup m' = last_backup m
  /\ backup_path m' = backup_path m
  /\ error_events m' = error_events m.
Proof.
  unfold finished. simpl. rewrite !error_events_log by discriminate.
  unfold log. destruct (log_callback cfg); simpl; tauto.
Qed.


(** Without a stop the loop equals itself on the whole list. *)
Lemma firstn_processed_all stop p (files : list file_info) :
  (forall k, stop k = false) ->
  firstn (processed stop p (length files)) files = files.
Proof. intros H. rewrite processed_never by exact H. apply firstn_all. Qed.


(** The directory a run writes to. *)
Definition run_directory (cfg : config) (env : environment) : string :=
  posixpath.join (target_dir cfg) (backup_name env).

(** The artefacts of the run can be created and written: no fault on the
    destination root and on the documents, and the strings that go into the
    JSON documents encode. *)
Definition no_setup_fault (cfg : config) (env : environment) : Prop :=
  makedirs_root_fault env = None /\ open_metadata_fault env = None
  /\ open_log_fault env = None /\ open_archive_fault env = None
  /\ save_info_fault env = None
  /\ metadata_encodable (metadata_of cfg env) = true
  /\ Py.utf8_valid (run_directory cfg env) = true.

(** The state in which [_copy_files] enters its loop. *)
Definition loop_start (files : list file_info) (md : metadata) (m : manager) : manager :=
  append_line LineRule (append_line (LineTotal (length files))
    (append_line LineStarted (set_backup_log [] (set_backup_metadata md m)))).

Lemma _copy_files_unfold cfg env files md m :
  open_metadata_fault env = None -> open_log_fault env = None ->
  metadata_encodable md = true ->
  _copy_files cfg env files md m =
  Returned (log_footer (copy_loop cfg env (length files) 0 files 0 (loop_start files md m))).
Proof. intros H1 H2 H3. unfold _copy_files. rewrite H1, H2, H3. reflexivity. Qed.

Lemma _copy_files_returned cfg env files md m m' :
  _copy_files cfg env files md m = Returned m' ->
  m' = log_footer (copy_loop cfg env (length files) 0 files 0 (loop_start files md m)).
Proof.
  unfold _copy_files. destruct (open_metadata_fault env); [discriminate|].
  destruct (metadata_encodable md); [|discriminate]. simpl.
  destruct (open_log_fault env); [discriminate|]. intros H. injection H as <-. reflexivity.
Qed.

Lemma _create_compressed_backup_returned cfg env files md m m' :
  _create_compressed_backup cfg env files md m = Returned m' ->
  m' = log cfg (MsgArchiveCreated (posixpath.join (backup_path m) "backup.zip")) success
         (archive_loop cfg env (length files) 0 files
            (set_backup_metadata md
               (log cfg (MsgArchiveCreating (posixpath.join (backup_path m) "backup.zip"))
                  info m))).
Proof.
  unfold _create_compressed_backup. destruct (open_archive_fault env); [discriminate|].
  destruct (metadata_encodable md); [|discriminate]. simpl.
  intros H. injection H as <-. reflexivity.
Qed.

(** One executor or the other, from the state [collected]: what a normal
    return leaves in the counters. *)
Lemma executor_tally cfg env files md m m' :
  (if compress cfg
   then _create_compressed_backup cfg env files md m
   else _copy_files cfg env files md m) = Returned m' ->
  (compress cfg = true \/ all_encodable cfg (backup_path m) files ->
   tally m' = tally m + processed (stop_flag env) (polls m) (length files))
  /\ total_files (m_stats m') = total_files (m_stats m)
  /\ backup_path m' = backup_path m
  /\ error_events m' = error_events m.
Proof.
  destruct (compress cfg) eqn:Hc; intros H.
  - apply _create_compressed_backup_returned in H. subst m'.
    unfold tally. rewrite log_stats, log_backup_path.
    rewrite error_events_log by discriminate. rewrite archive_loop_errors.
    match goal with |- context [archive_loop _ _ _ _ _ ?m0] =>
      pose proof (archive_loop_tally cfg env (length files) files 0 m0) as (Ht & Hn & Hb)
    end.
    unfold tally in Ht. rewrite Ht, Hn, Hb. errors_simpl.
    change (error_events (set_backup_metadata ?a ?b)) with (error_events b).
    errors_simpl. unfold log. destruct (log_callback cfg); simpl; repeat split; lia.
  - apply _copy_files_returned in H. subst m'.
    pose proof (copy_loop_tally cfg env (length files) files 0 0 (loop_start files md m))
      as (_ & Hn & Hb).
    change (error_events (log_footer ?x)) with (error_events x).
    rewrite copy_loop_errors.
    split; [|simpl in *; rewrite Hn, Hb; auto].
    intros [Hx|Henc]; [discriminate|].
    pose proof (copy_loop_tally_encodable cfg env (length files) files 0 0
                  (loop_start files md m) Henc) as Ht.
    unfold tally in *. simpl in *. exact Ht.
Qed.

Lemma save_backup_info_returned env md m m' :
  save_backup_info env md m = Returned m' ->
  m' = set_last_backup {| bi_last_backup := md_timestamp md;
                           bi_backup_path := backup_path m;
                           bi_stats := m_stats m |} m.
Proof.
  unfold save_backup_info. destruct (save_info_fault env); [discriminate|].
  destruct (Py.utf8_valid (md_timestamp md) && Py.utf8_valid (backup_path m)); [|discriminate].
  simpl. intros H. injection H as <-. reflexivity.
Qed.

(** A local run that returns: [total_files] is the size of the manifest, no
    event of level [error] was emitted, and, in archive mode or when the
    paths of the manifest encode, the two counters add up to the number of
    items the executor took up. *)
Lemma start_backup_returned cfg env files0 m' :
  start_backup cfg env (init files0) = Returned m' ->
  (compress cfg = true
   \/ all_encodable cfg (run_directory cfg env) (manifest cfg env files0) ->
   tally m' = processed (stop_flag env) (polls (collected cfg env files0))
                (length (manifest cfg env files0)))
  /\ total_files (m_stats m') = length (manifest cfg env files0)
  /\ error_events m' = [].
Proof.
  unfold start_backup. rewrite start_backup_body_unfold.
  destruct (makedirs_root_fault env); [discriminate|]. simpl.
  destruct (Nat.eqb (length (manifest cfg env files0)) 0) eqn:Hz.
  - apply Nat.eqb_eq in Hz. intros H. injection H as <-. rewrite Hz. simpl.
    pose proof (prepared_init cfg env files0) as (Ht & _).
    pose proof (_collect_files_frame cfg env (prepared cfg env (init files0)))
      as (Hc & Hs & _ & _ & _ & _ & He).
    unfold tally in *. rewrite log_stats. rewrite error_events_log by discriminate.
    errors_simpl. rewrite He, prepared_errors. simpl. repeat split; lia.
  - destruct (if compress cfg then _ else _) as [m1|] eqn:Hexec; [|discriminate].
    apply executor_tally in Hexec. destruct Hexec as (Ht & Hn & Hb & He).
    destruct (save_backup_info env (metadata_of cfg env) m1) as [m2|] eqn:Hsave; [|discriminate].
    apply save_backup_info_returned in Hsave. subst m2.
    intros H. injection H as <-.
    pose proof (collected_facts cfg env files0) as (Ht0 & _ & Hbp & Hn0 & _).
    match goal with |- context [finished cfg env ?x] =>
      pose proof (finished_facts cfg env x) as (Fc & Fs & Fn & _ & _ & _ & Fe) end.
    unfold tally in *. rewrite Fc, Fs, Fn, Fe. simpl.
    change (error_events (set_last_backup ?a ?b)) with (error_events b).
    rewrite He, collected_errors. rewrite Hbp in Ht. fold (run_directory cfg env) in Ht.
    split; [|split; [lia|reflexivity]].
    intros Henc. rewrite (Ht Henc). lia.
Qed.

Definition returned (r : result) : manager :=
  match r with Returned m => m | Raised _ m => m end.



(** An item whose [try] body raises, whatever the exception: the handler
    adds one to [files_skipped] and the loop goes on with the next item. *)
Lemma item_error_counts_as_skipped cfg env total i fi rest cc m0 e m1 cc1 :
  stop_flag env (polls m0) = false ->
  copy_body cfg env total i fi cc (tick_poll m0) = (Some e, m1, cc1) ->
  exists m2,
    files_skipped (m_stats m2) = S (files_skipped (m_stats m1))
    /\ files_copied (m_stats m2) = files_copied (m_stats m1)
    /\ copy_loop cfg env total i (fi :: rest) cc m0 =
       copy_loop cfg env total (S i) rest cc1 m2.
Proof.
  intros Hstop Hbody.
  exists (fst (copy_item cfg env total i fi cc (tick_poll m0))).
  simpl. rewrite Hstop. unfold copy_item. rewrite Hbody.
  destruct e; simpl; rewrite log_stats; simpl; auto.
Qed.

(** When the paths of the items encode, [_copy_files] returns with
    [files_copied + files_skipped] grown by the number of items taken up. *)
Lemma _copy_files_tally_encodable cfg env files md m m' :
  all_encodable cfg (backup_path m) files ->
  _copy_files cfg env files md m = Returned m' ->
  files_copied (m_stats m') + files_skipped (m_stats m') =
  files_copied (m_stats m) + files_skipped (m_stats m)
  + processed (stop_flag env) (polls m) (length files).
Proof.
  intros Henc Hret. apply _copy_files_returned in Hret. subst m'.
  pose proof (copy_loop_tally_encodable cfg env (length files) files 0 0
                (loop_start files md m) Henc) as Ht.
  unfold tally in Ht. simpl in *. exact Ht.
Qed.

(** A directory with a file whose name is Latin-1, not UTF-8:
    [caf\xe9.txt], next to the file [a]. *)
Definition latin1_name : string := "caf" +:+ String (ascii_of_nat 233) ".txt".

Definition latin1_fs : gmap string file_meta :=
  <["/src" := meta 4096 5]>
    (<[posixpath.join "/src" latin1_name := meta 10 1]> (<["/src/a" := meta 10 1]> ∅)).

Definition latin1_env : environment :=
  sample_env "20240101_000000" {[ "/src" := DirNode [latin1_name; "a"] [] ]}.

Definition latin1_item : file_info :=
  {| source_path := posixpath.join "/src" latin1_name;
     relative_path := latin1_name;
     size := 10;
     source_type := directory;
     source_root := Some "/src" |}.

Definition plain_item : file_info :=
  {| source_path := "/src/a"; relative_path := "a"; size := 10;
     source_type := directory; source_root := Some "/src" |}.

(** C10 on the code: [_copy_files] on two items, the first with a name that
    does not encode.  Both items are copied; the log line of the first
    raises after [files_copied] was raised, and the handler raises
    [files_skipped] for the same item: 2 items taken up, 3 counted. *)
Theorem copy_files_counts_an_item_twice :
  let cfg := sample_cfg ["/src"] [] in
  let files := [latin1_item; plain_item] in
  let m := set_backup_path "/dst/backup_20240101_000000" (init latin1_fs) in
  let r := _copy_files cfg latin1_env files (metadata_of cfg latin1_env) m in
  r = Returned (returned r)
  /\ processed (stop_flag latin1_env) (polls m) (length files) = 2
  /\ files_copied (m_stats (returned r)) = 2
  /\ files_skipped (m_stats (returned r)) = 1
  /\ backup_log (returned r) =
       [LineStarted; LineTotal 2; LineRule;
        LineCopied "/src/a" "/dst/backup_20240101_000000/src/a";
        LineRule; LineFinished; LineCopiedTotal 2; LineSkippedTotal 1].
Proof. vm_compute. repeat split; reflexivity. Qed.

(** C1 on the code: a local run over the directory returns with 2 files in
    the manifest, 2 copied and 1 skipped. *)
Theorem local_run_counts_an_item_twice :
  let cfg := sample_cfg ["/src"] [] in
  let r := start_backup cfg latin1_env (init latin1_fs) in
  never_stopped latin1_env
  /\ r = Returned (returned r)
  /\ manifest cfg latin1_env latin1_fs = [latin1_item; plain_item]
  /\ total_files (m_stats (returned r)) = 2
  /\ files_copied (m_stats (returned r)) = 2
  /\ files_skipped (m_stats (returned r)) = 1.
Proof. split; [intros n; reflexivity|]. vm_compute. repeat split; reflexivity. Qed.

Definition faulty_env : environment :=
  {| stop_flag := fun _ => false; listing := ∅;
     clock_stamp := "20240101_000000"; clock_iso := "2024-01-01T00:00:00";
     clock_start := 0; clock_end := 1;
     makedirs_root_fault := None; open_metadata_fault := None; open_log_fault := None;
     open_archive_fault := None; save_info_fault := None;
     makedirs_fault := fun _ => None;
     copy_fault := fun i => if Nat.eqb i 0 then Some PermissionError else None |}.

Definition two_files : list file_info := [file_item "/src/a" 10; file_item "/src/b" 20].

Example permission_error_is_skipped :
  let m' := returned (_copy_files (sample_cfg [] ["/src/a"; "/src/b"]) faulty_env two_files
                        (metadata_of (sample_cfg [] ["/src/a"; "/src/b"]) faulty_env)
                        (init scenario_fs)) in
  files_copied (m_stats m') = 1 /\ files_skipped (m_stats m') = 1.
Proof. vm_compute. split; reflexivity. Qed.


Definition stop_env (dirs : gmap string dir_tree) (first_set : nat) : environment :=
  {| stop_flag := fun n => Nat.leb first_set n; listing := dirs;
     clock_stamp := "20240101_000000"; clock_iso := "2024-01-01T00:00:00";
     clock_start := 0; clock_end := 1;
     makedirs_root_fault := None; open_metadata_fault := None; open_log_fault := None;
     open_archive_fault := None; save_info_fault := None;
     makedirs_fault := fun _ => None; copy_fault := fun _ => None |}.


Example cancellation_example :
  let m' := returned (start_backup (sample_cfg ["/src"] [])
                        (stop_env {[ "/src" := DirNode ["a"; "b"; "c"; ".secret"] [] ]} 6)
                        (init scenario_fs)) in
  files_copied (m_stats m') = 1 /\ files_skipped (m_stats m') = 0
  /\ total_files (m_stats m') = 3
  /\ backup_log m' =
       [LineStarted; LineTotal 3; LineRule;
        LineCopied "/src/a" "/dst/backup_20240101_000000/src/a";
        LineRule; LineFinished; LineCopiedTotal 1; LineSkippedTotal 0].
Proof. vm_compute. repeat split; reflexivity. Qed.



(** ** Two incremental runs *)

Section SecondRun.

Variable cfg : config.
Hypothesis incremental_on : incremental cfg = true.

(** The destination of an item is at least as recent as its source, so far
    as both can be named and read. *)
Definition fresh_enough (bp : string) (f : gmap string file_meta) (fi : file_info) : Prop :=
  match target_path_of cfg bp fi with
  | inl _ => True
  | inr tp =>
      match f !! source_path fi with
      | None => True
      | Some smeta => exists tmeta, f !! tp = Some tmeta /\ (st_mtime smeta <= st_mtime tmeta)%Z
      end
  end.

(** No destination of the manifest is a source of the manifest. *)
Definition apart (bp : string) (files : list file_info) : Prop :=
  forall fi fj tp, In fi files -> In fj files ->
    target_path_of cfg bp fi = inr tp -> tp <> source_path fj.

(** The files change only away from the sources of [files], and
    modification times only grow. *)
Definition grows (files : list file_info) (f f' : gmap string file_meta) : Prop :=
  (forall fj, In fj files -> f' !! source_path fj = f !! source_path fj)
  /\ (forall p tmeta, f !! p = Some tmeta ->
        exists tmeta', f' !! p = Some tmeta' /\ (st_mtime tmeta <= st_mtime tmeta')%Z).

Lemma grows_refl files f : grows files f f.
Proof. split; [reflexivity|]. intros p t H. exists t. split; [exact H|lia]. Qed.

Lemma grows_trans files f1 f2 f3 :
  grows files f1 f2 -> grows files f2 f3 -> grows files f1 f3.
Proof.
  intros [E1 G1] [E2 G2]. split.
  - intros fj Hin. rewrite E2, E1 by exact Hin. reflexivity.
  - intros p t H. destruct (G1 p t H) as (t' & H' & Hle).
    destruct (G2 p t' H') as (t'' & H'' & Hle'). exists t''. split; [exact H''|lia].
Qed.

Lemma fresh_enough_grows bp files f f' fi :
  In fi files -> grows files f f' -> fresh_enough bp f fi -> fresh_enough bp f' fi.
Proof.
  intros Hin [E G]. unfold fresh_enough.
  destruct (target_path_of cfg bp fi) as [e|tp]; [auto|].
  rewrite (E fi Hin). destruct (f !! source_path fi) as [smeta|]; [|auto].
  intros (t & Ht & Hle). destruct (G tp t Ht) as (t' & Ht' & Hle').
  exists t'. split; [exact Ht'|lia].
Qed.

Definition no_item_fault (env : environment) : Prop :=
  forall i, makedirs_fault env i = None /\ copy_fault env i = None.

(** What goes on with one item: whether it is copied, where to and with
    which stat record. *)
Definition copies (env : environment) (i : nat) (fi : file_info) (m : manager)
    : option (string * file_meta) :=
  match target_path_of cfg (backup_path m) fi with
  | inl _ => None
  | inr tp =>
      match makedirs_fault env i with
      | Some _ => None
      | None =>
          if incremental cfg && _should_skip_file m (source_path fi) tp then None
          else
            match copy_fault env i with
            | Some _ => None
            | None =>
                match fs m !! source_path fi with
                | None => None
                | Some smeta => Some (tp, smeta)
                end
            end
      end
  end.

Lemma copy_item_effect env total i fi cc m :
  let m1 := fst (copy_item cfg env total i fi cc m) in
  match copies env i fi m with
  | Some (tp, smeta) =>
      fs m1 = <[tp := smeta]> (fs m)
      /\ files_copied (m_stats m1) = S (files_copied (m_stats m))
  | None =>
      fs m1 = fs m
      /\ files_copied (m_stats m1) = files_copied (m_stats m)
      /\ S (files_skipped (m_stats m)) <= files_skipped (m_stats m1)
  end.
Proof.
  unfold copies, copy_item, copy_body, copy2, log_write.
  repeat case_match; simplify_eq/=; rewrite ?log_fs, ?log_stats; simpl;
    repeat split; try done; try lia;
    unfold log; repeat case_match; simpl; try done; lia.
Qed.

(** One item of a first run without item faults. *)
Lemma copy_item_first_run env total i fi cc m files :
  no_item_fault env -> In fi files -> apart (backup_path m) files ->
  let m1 := fst (copy_item cfg env total i fi cc m) in
  grows files (fs m) (fs m1) /\ fresh_enough (backup_path m) (fs m1) fi.
Proof.
  intros Hnf Hin Hap. destruct (Hnf i) as [Hmk Hcp].
  pose proof (copy_item_effect env total i fi cc m) as Heff. cbv zeta in *.
  unfold copies, fresh_enough in *.
  destruct (target_path_of cfg (backup_path m) fi) as [e|tp] eqn:Htp.
  { destruct Heff as (-> & _). split; auto using grows_refl. }
  rewrite Hmk, Hcp, incremental_on in Heff. simpl andb in Heff.
  destruct (_should_skip_file m (source_path fi) tp) eqn:Hskip.
  { destruct Heff as (-> & _). split; [apply grows_refl|].
    apply should_skip_file_iff in Hskip. destruct Hskip as (d & Hd & sm & Hs & Hle).
    rewrite Hs. exists d. auto. }
  destruct (fs m !! source_path fi) as [smeta|] eqn:Hsrc.
  2:{ destruct Heff as (-> & _). rewrite Hsrc. split; auto using grows_refl. }
  destruct Heff as (-> & _).
  assert (Hne : tp <> source_path fi) by exact (Hap fi fi tp Hin Hin Htp).
  split; [split|].
  - intros fj Hj. apply lookup_insert_ne. exact (Hap fi fj tp Hin Hj Htp).
  - intros p t Hp. destruct (decide (p = tp)) as [->|Hpne].
    + rewrite lookup_insert_eq. eexists. split; [reflexivity|].
      destruct (Z.le_gt_cases (st_mtime smeta) (st_mtime t)) as [Hle|Hgt]; [|lia].
      exfalso. assert (_should_skip_file m (source_path fi) tp = true) as Hc.
      { apply should_skip_file_iff. eauto. }
      congruence.
    + rewrite lookup_insert_ne by congruence. exists t. split; [exact Hp|lia].
  - rewrite lookup_insert_ne by exact Hne. rewrite Hsrc.
    exists smeta. rewrite lookup_insert_eq. split; [reflexivity|lia].
Qed.

Lemma copy_loop_first_run env total files : forall rest i cc m,
  no_item_fault env -> never_stopped env ->
  (forall fi, In fi rest -> In fi files) -> apart (backup_path m) files ->
  let m' := copy_loop cfg env total i rest cc m in
  grows files (fs m) (fs m')
  /\ forall fi, In fi rest -> fresh_enough (backup_path m) (fs m') fi.
Proof.
  induction rest as [|fi rest IH]; intros i cc m Hnf Hns Hsub Hap; simpl.
  { split; [apply grows_refl|]. intros fi []. }
  rewrite Hns.
  pose proof (copy_item_first_run env total i fi cc (tick_poll m) files Hnf
                (Hsub fi (or_introl eq_refl)) Hap) as H.
  pose proof (copy_item_tally cfg env total i fi cc (tick_poll m)) as Ht.
  destruct (copy_item cfg env total i fi cc (tick_poll m)) as [m1 cc1].
  simpl in H, Ht. destruct H as [Hg Hf]. destruct Ht as (_ & _ & _ & Hb).
  assert (Hap1 : apart (backup_path m1) files) by (rewrite Hb; exact Hap).
  destruct (IH (S i) cc1 m1 Hnf Hns (fun x Hx => Hsub x (or_intror Hx)) Hap1) as [IHg IHf].
  split; [eapply grows_trans; eauto|].
  intros fj [<-|Hj].
  - eapply fresh_enough_grows; [apply Hsub; left; reflexivity|exact IHg|exact Hf].
  - rewrite <- Hb. apply IHf. exact Hj.
Qed.

(** One item of a run that finds every destination fresh enough: nothing
    is copied, whatever fails. *)
Lemma copy_item_second_run env total i fi cc m :
  fresh_enough (backup_path m) (fs m) fi ->
  let m1 := fst (copy_item cfg env total i fi cc m) in
  fs m1 = fs m
  /\ files_copied (m_stats m1) = files_copied (m_stats m)
  /\ S (files_skipped (m_stats m)) <= files_skipped (m_stats m1).
Proof.
  intros Hfresh. pose proof (copy_item_effect env total i fi cc m) as Heff.
  cbv zeta in *. unfold copies, fresh_enough in *.
  destruct (target_path_of cfg (backup_path m) fi) as [e|tp] eqn:Htp; [exact Heff|].
  destruct (makedirs_fault env i) as [e|]; [exact Heff|].
  rewrite incremental_on in Heff. simpl andb in Heff.
  destruct (fs m !! source_path fi) as [smeta|] eqn:Hsrc.
  - destruct Hfresh as (t & Ht & Hle).
    assert (_should_skip_file m (source_path fi) tp = true) as Hs.
    { apply should_skip_file_iff. eauto. }
    rewrite Hs in Heff. exact Heff.
  - destruct (_should_skip_file m (source_path fi) tp); [exact Heff|].
    destruct (copy_fault env i); exact Heff.
Qed.

Lemma copy_loop_second_run env total : forall rest i cc m,
  never_stopped env ->
  (forall fi, In fi rest -> fresh_enough (backup_path m) (fs m) fi) ->
  all_encodable cfg (backup_path m) rest ->
  let m' := copy_loop cfg env total i rest cc m in
  files_copied (m_stats m') = files_copied (m_stats m)
  /\ files_skipped (m_stats m') = files_skipped (m_stats m) + length rest.
Proof.
  induction rest as [|fi rest IH]; intros i cc m Hns Hfresh Henc; simpl; [lia|].
  rewrite Hns.
  pose proof (copy_item_second_run env total i fi cc (tick_poll m)
                (Hfresh fi (or_introl eq_refl))) as H.
  pose proof (copy_item_tally cfg env total i fi cc (tick_poll m)) as Ht.
  pose proof (copy_item_tally_encodable cfg env total i fi cc (tick_poll m)
                (Henc fi (or_introl eq_refl))) as He.
  destruct (copy_item cfg env total i fi cc (tick_poll m)) as [m1 cc1].
  simpl in H, Ht, He. destruct H as (Hfs & Hc & Hs). destruct Ht as (_ & _ & _ & Hb).
  destruct (IH (S i) cc1 m1 Hns) as [IHc IHs].
  { intros fj Hj. rewrite Hb, Hfs. apply Hfresh. right. exact Hj. }
  { rewrite Hb. intros fj Hj. apply Henc. right. exact Hj. }
  unfold tally in He. simpl in He. rewrite IHc, IHs, Hc. lia.
Qed.

End SecondRun.

(** Without a setup fault [start_backup] returns. *)
Lemma start_backup_returns cfg env files0 :
  no_setup_fault cfg env -> exists m', start_backup cfg env (init files0) = Returned m'.
Proof.
  intros (Hroot & Hmeta & Hlog & Harch & Hsave & Hmd & Hdir).
  assert (Hts : Py.utf8_valid (md_timestamp (metadata_of cfg env)) = true).
  { pose proof Hmd as Hmd'. unfold metadata_encodable in Hmd'. cbn [forallb] in Hmd'.
    apply andb_true_iff in Hmd'. destruct Hmd' as [_ Hmd'].
    apply andb_true_iff in Hmd'. destruct Hmd' as [Hts _]. exact Hts. }
  pose proof (collected_facts cfg env files0) as (_ & _ & Hbp & _).
  fold (run_directory cfg env) in Hbp.
  unfold start_backup. rewrite start_backup_body_unfold, Hroot. cbv zeta.
  destruct (Nat.eqb _ 0); [eauto|].
  destruct (compress cfg).
  - unfold _create_compressed_backup. rewrite Harch, Hmd. cbn [negb].
    unfold save_backup_info. rewrite Hsave, log_backup_path.
    match goal with |- context [archive_loop _ _ _ _ _ ?m0] =>
      pose proof (archive_loop_tally cfg env (length (manifest cfg env files0))
                    (manifest cfg env files0) 0 m0) as (_ & _ & Hb) end.
    rewrite Hb. simpl backup_path. rewrite log_backup_path, Hbp, Hdir, Hts. simpl. eauto.
  - rewrite _copy_files_unfold by assumption.
    unfold save_backup_info. rewrite Hsave.
    pose proof (copy_loop_tally cfg env (length (manifest cfg env files0))
                  (manifest cfg env files0) 0 0
                  (loop_start (manifest cfg env files0) (metadata_of cfg env)
                     (collected cfg env files0))) as (_ & _ & Hb).
    simpl in Hb. simpl backup_path. rewrite Hb, Hbp, Hdir, Hts. simpl. eauto.
Qed.

(** The shape of a tree-copy run that returns. *)
Lemma start_backup_tree_returned cfg env files0 m :
  compress cfg = false ->
  start_backup cfg env (init files0) = Returned m ->
  (manifest cfg env files0 = [] /\ fs m = files0 /\ tally m = 0
   /\ total_files (m_stats m) = 0)
  \/ (manifest cfg env files0 <> [] /\
      exists l, l = copy_loop cfg env (length (manifest cfg env files0)) 0
                      (manifest cfg env files0) 0
                      (loop_start (manifest cfg env files0) (metadata_of cfg env)
                         (collected cfg env files0))
        /\ fs m = fs l
        /\ files_copied (m_stats m) = files_copied (m_stats l)
        /\ files_skipped (m_stats m) = files_skipped (m_stats l)
        /\ total_files (m_stats m) = total_files (m_stats l)).
Proof.
  intros Hc. unfold start_backup. rewrite start_backup_body_unfold.
  destruct (makedirs_root_fault env); [discriminate|]. cbv zeta. rewrite Hc.
  destruct (Nat.eqb (length (manifest cfg env files0)) 0) eqn:Hz.
  - apply Nat.eqb_eq in Hz. intros H. injection H as <-. left.
    pose proof (prepared_init cfg env files0) as (Ht & Hf & _).
    pose proof (_collect_files_frame cfg env (prepared cfg env (init files0)))
      as (Hcp & Hsk & _ & Hfs & _).
    unfold tally in *. rewrite log_fs, log_stats. simpl. rewrite Hfs, Hf.
    repeat split; [|lia|exact Hz].
    destruct (manifest cfg env files0); [reflexivity|discriminate].
  - apply Nat.eqb_neq in Hz.
    destruct (_copy_files cfg env _ _ _) as [l|] eqn:Hcopy; [|discriminate].
    apply _copy_files_returned in Hcopy.
    destruct (save_backup_info env (metadata_of cfg env) l) as [m2|] eqn:Hsave; [|discriminate].
    apply save_backup_info_returned in Hsave. subst m2.
    intros H. injection H as <-. right. split.
    { intros E. rewrite E in Hz. apply Hz. reflexivity. }
    eexists. split; [reflexivity|].
    match goal with |- context [finished cfg env ?x] =>
      pose proof (finished_facts cfg env x) as (Fc & Fs & Fn & _) end.
    rewrite Fc, Fs, Fn. subst l.
    unfold finished. rewrite !log_fs. simpl. auto.
Qed.

(** Inside one run directory the skip works.  A second incremental
    tree-copy run of a fresh manager over an unchanged manifest copies
    nothing and counts every item as skipped when it resolves to the
    directory of the first run, that is when both runs read the same clock
    stamp, the first run met no fault on its items, no destination of the
    manifest is one of its sources, and the paths of the manifest encode. *)
Theorem second_run_into_same_directory cfg env1 env2 files0 m1 :
  incremental cfg = true -> compress cfg = false ->
  never_stopped env1 -> never_stopped env2 ->
  no_item_fault env1 -> no_setup_fault cfg env2 ->
  clock_stamp env2 = clock_stamp env1 ->
  start_backup cfg env1 (init files0) = Returned m1 ->
  manifest cfg env2 (fs m1) = manifest cfg env1 files0 ->
  apart cfg (run_directory cfg env1) (manifest cfg env1 files0) ->
  all_encodable cfg (run_directory cfg env1) (manifest cfg env1 files0) ->
  exists m2,
    start_backup cfg env2 (init (fs m1)) = Returned m2
    /\ files_copied (m_stats m2) = 0
    /\ files_skipped (m_stats m2) = total_files (m_stats m2).
Proof.
  intros Hinc Hc Hns1 Hns2 Hnf Hsetup Hstamp Hrun1 Hman Hap Henc.
  unfold run_directory in Hap, Henc.
  destruct (start_backup_returns cfg env2 (fs m1) Hsetup) as (m2 & Hrun2).
  exists m2. split; [exact Hrun2|].
  pose proof (start_backup_tree_returned cfg env2 (fs m1) m2 Hc Hrun2) as H2.
  pose proof (start_backup_tree_returned cfg env1 files0 m1 Hc Hrun1) as H1.
  rewrite Hman in H2.
  destruct H2 as [(_ & _ & Ht & Hn)|(Hne & l2 & Hl2 & _ & Hc2 & Hs2 & Hn2)].
  { unfold tally in Ht. lia. }
  destruct H1 as [(He & _)|(_ & l1 & Hl1 & Hfs1 & _)]; [contradiction|].
  set (files := manifest cfg env1 files0) in *.
  pose proof (collected_facts cfg env1 files0) as (_ & Hf1 & Hb1 & _).
  pose proof (collected_facts cfg env2 (fs m1)) as (Ht2 & Hf2 & Hb2 & Hnum2 & _).
  assert (Hbp : backup_name env2 = backup_name env1).
  { unfold backup_name. rewrite Hstamp. reflexivity. }
  rewrite Hbp in Hb2. rewrite Hman in Hnum2. fold files in Hnum2.
  set (bp := posixpath.join (target_dir cfg) (backup_name env1)) in *.
  (* the first run leaves every destination fresh enough *)
  assert (Hfresh : forall fi, In fi files -> fresh_enough cfg bp (fs m1) fi).
  { destruct (copy_loop_first_run cfg Hinc env1 (length files) files files 0 0
                (loop_start files (metadata_of cfg env1) (collected cfg env1 files0)))
      as [_ Hf]; auto.
    - simpl. rewrite Hb1. exact Hap.
    - intros fi Hin. specialize (Hf fi Hin). simpl in Hf.
      rewrite Hb1 in Hf. rewrite Hfs1, Hl1. exact Hf. }
  (* hence the second run copies nothing *)
  destruct (copy_loop_second_run cfg Hinc env2 (length files) files 0 0
              (loop_start files (metadata_of cfg env2) (collected cfg env2 (fs m1))))
    as [Hcp Hsk]; auto.
  { intros fi Hin. simpl. rewrite Hb2, Hf2. apply Hfresh. exact Hin. }
  { simpl. rewrite Hb2. exact Henc. }
  pose proof (copy_loop_tally cfg env2 (length files) files 0 0
                (loop_start files (metadata_of cfg env2) (collected cfg env2 (fs m1))))
    as (_ & Hnum & _).
  rewrite <- Hl2 in Hcp, Hsk, Hnum. simpl in Hcp, Hsk, Hnum.
  unfold tally in Ht2. rewrite Hc2, Hs2, Hn2, Hcp, Hsk, Hnum, Hnum2. lia.
Qed.

Definition one_file_fs : gmap string file_meta := {[ "/src/a" := meta 10 1 ]}.

Definition first_run (stamp : string) : result :=
  start_backup (sample_cfg [] ["/src/a"]) (sample_env stamp ∅) (init one_file_fs).

Definition second_run (stamp1 stamp2 : string) : result :=
  start_backup (sample_cfg [] ["/src/a"]) (sample_env stamp2 ∅)
    (init (fs (returned (first_run stamp1)))).

(** A second run one second later writes below a new [backup_<stamp>]
    directory, finds no destination there and copies the file again. *)
Lemma second_run_copies_again :
  first_run "20240101_000000" = Returned (returned (first_run "20240101_000000"))
  /\ second_run "20240101_000000" "20240101_000001" =
     Returned (returned (second_run "20240101_000000" "20240101_000001"))
  /\ manifest (sample_cfg [] ["/src/a"]) (sample_env "20240101_000001" ∅)
       (fs (returned (first_run "20240101_000000")))
     = manifest (sample_cfg [] ["/src/a"]) (sample_env "20240101_000000" ∅) one_file_fs
  /\ ~ (files_copied (m_stats (returned (second_run "20240101_000000" "20240101_000001"))) = 0
        /\ files_skipped (m_stats (returned (second_run "20240101_000000" "20240101_000001")))
           = total_files (m_stats (returned (second_run "20240101_000000" "20240101_000001")))).
Proof.
  split; [vm_compute; reflexivity|]. split; [vm_compute; reflexivity|].
  split; [vm_compute; reflexivity|].
  intros [H _]. vm_compute in H. discriminate.
Qed.

(** C2 on the code: two incremental runs of a fresh manager over one
    unchanged file, one second apart.  The first run copies the file below
    [backup_20240101_000000]; the second resolves to the new directory
    [backup_20240101_000001], where [_should_skip_file] finds no
    destination, and returns with 1 file in the manifest, 1 copied and 0
    skipped. *)
Theorem later_run_copies_the_file_again :
  let cfg := sample_cfg [] ["/src/a"] in
  let r1 := first_run "20240101_000000" in
  let r2 := second_run "20240101_000000" "20240101_000001" in
  incremental cfg = true
  /\ r1 = Returned (returned r1)
  /\ r2 = Returned (returned r2)
  /\ fs (returned r1) !! "/src/a" = one_file_fs !! "/src/a"
  /\ fs (returned r1) !! "/dst/backup_20240101_000000/a" = Some (meta 10 1)
  /\ backup_path (returned r2) = "/dst/backup_20240101_000001"
  /\ fs (returned r2) !! "/dst/backup_20240101_000001/a" = Some (meta 10 1)
  /\ total_files (m_stats (returned r2)) = 1
  /\ files_copied (m_stats (returned r2)) = 1
  /\ files_skipped (m_stats (returned r2)) = 0.
Proof. vm_compute. repeat split; reflexivity. Qed.


Lemma one_file_manifest :
  manifest (sample_cfg [] ["/src/a"]) (sample_env "20240101_000000" ∅) one_file_fs
  = [file_item "/src/a" 10].
Proof. vm_compute. reflexivity. Qed.

Lemma second_run_witness :
  exists m2,
    second_run "20240101_000000" "20240101_000000" = Returned m2
    /\ files_copied (m_stats m2) = 0
    /\ files_skipped (m_stats m2) = total_files (m_stats m2).
Proof.
  unfold second_run.
  refine (second_run_into_same_directory (sample_cfg [] ["/src/a"])
            (sample_env "20240101_000000" ∅) (sample_env "20240101_000000" ∅)
            one_file_fs (returned (first_run "20240101_000000")) _ _ _ _ _ _ _ _ _ _ _).
  - reflexivity.
  - reflexivity.
  - intros n. reflexivity.
  - intros n. reflexivity.
  - intros i. split; reflexivity.
  - repeat split; reflexivity.
  - reflexivity.
  - vm_compute. reflexivity.
  - vm_compute. reflexivity.
  - rewrite one_file_manifest.
    intros fi fj tp [<-|[]] [<-|[]] Ht.
    vm_compute in Ht. injection Ht as <-. vm_compute. discriminate.
  - rewrite one_file_manifest. intros fi [<-|[]]. vm_compute. reflexivity.
Defined.

(** ** Collection *)

(** The sizes [_collect_files] adds for the entries [names] of one
    directory: hidden names are passed over under [skip_hidden], names that
    cannot be stat-ed are passed over with a warning. *)
Fixpoint collected_sizes (cfg : config) (f : gmap string file_meta) (root : string)
    (names : list string) : list Z :=
  match names with
  | [] => []
  | name :: rest =>
      if skip_hidden cfg && Py.startswith name "." then collected_sizes cfg f root rest
      else match f !! posixpath.join root name with
           | Some meta => st_size meta :: collected_sizes cfg f root rest
           | None => collected_sizes cfg f root rest
           end
  end.

Definition sumZ (l : list Z) : Z := fold_right Z.add 0%Z l.

Lemma collected_sizes_perm cfg f root names names' :
  Permutation names names' ->
  Permutation (collected_sizes cfg f root names) (collected_sizes cfg f root names').
Proof.
  induction 1 as [|x l l' HP IH|x y l|l l' l'' HP1 IH1 HP2 IH2]; simpl.
  - constructor.
  - destruct (skip_hidden cfg && Py.startswith x "."); [exact IH|].
    destruct (f !! posixpath.join root x); [constructor; exact IH|exact IH].
  - destruct (skip_hidden cfg && Py.startswith x "."), (skip_hidden cfg && Py.startswith y ".");
      try reflexivity;
      destruct (f !! posixpath.join root x), (f !! posixpath.join root y);
      try reflexivity. apply perm_swap.
  - etransitivity; eassumption.
Qed.

Lemma sumZ_perm l l' : Permutation l l' -> sumZ l = sumZ l'.
Proof.
  induction 1 as [|x l l' HP IH|x y l|l l' l'' HP1 IH1 HP2 IH2];
    unfold sumZ in *; simpl in *; lia.
Qed.

Lemma collect_walk_files_never_stopped cfg env sd e names : forall acc m,
  never_stopped env ->
  let r := collect_walk_files cfg env sd e names acc m in
  snd r = false
  /\ fs (snd (fst r)) = fs m
  /\ length (fst (fst r)) = length acc + length (collected_sizes cfg (fs m) (we_root e) names)
  /\ total_size (m_stats (snd (fst r))) =
     (total_size (m_stats m) + sumZ (collected_sizes cfg (fs m) (we_root e) names))%Z.
Proof.
  induction names as [|name rest IH]; intros acc m Hns; simpl.
  - repeat split; unfold sumZ; simpl; lia.
  - rewrite Hns. destruct (skip_hidden cfg && Py.startswith name ".").
    + apply (IH acc (tick_poll m) Hns).
    + unfold getsize. cbn [fs tick_poll].
      destruct (fs m !! posixpath.join (we_root e) name) as [meta0|]; simpl.
      * destruct (IH (acc ++ [directory_item sd e name (st_size meta0)])
                    (set_stats (add_total_size (st_size meta0)) (tick_poll m)) Hns)
          as (H1 & H2 & H3 & H4).
        cbn [fs tick_poll set_stats] in *. rewrite H3, H4, length_app.
        unfold sumZ. simpl. repeat split; auto; lia.
      * destruct (IH acc (log cfg (MsgStatFailed (posixpath.join (we_root e) name))
                            warning (tick_poll m)) Hns) as (H1 & H2 & H3 & H4).
        rewrite log_fs, log_stats in *. cbn [fs tick_poll] in *. auto.
Qed.

(** C9 (amended). A source directory that lists, in any order, three files
    of 10, 20 and 30 bytes whose names do not begin with a dot and the
    hidden file [.secret] is collected, under [skip_hidden], into a manifest
    of exactly 3 items of 60 bytes in all. *)
Theorem scenario_A_three_items cfg env m src names a b c :
  skip_hidden cfg = true ->
  source_dirs cfg = [src] -> source_files cfg = [] ->
  never_stopped env ->
  path_exists m src = true ->
  listing env !! src = Some (DirNode names []) ->
  Permutation names [a; b; c; ".secret"] ->
  Py.startswith a "." = false -> Py.startswith b "." = false ->
  Py.startswith c "." = false ->
  getsize m (posixpath.join src a) = Some 10%Z ->
  getsize m (posixpath.join src b) = Some 20%Z ->
  getsize m (posixpath.join src c) = Some 30%Z ->
  getsize m (posixpath.join src ".secret") = Some 10%Z ->
  length (fst (_collect_files cfg env m)) = 3
  /\ total_size (m_stats (snd (_collect_files cfg env m))) = (total_size (m_stats m) + 60)%Z.
Proof.
  intros Hsk Hdirs Hfiles Hns Hex Hlist Hperm Ha Hb Hc Sa Sb Sc _.
  unfold _collect_files. rewrite Hdirs, Hfiles. cbn [collect_dirs poll].
  rewrite Hns. change (path_exists (tick_poll m) src) with (path_exists m src).
  rewrite Hex. cbn [negb].
  unfold walk. rewrite Hlist. cbn [os.walk collect_walk we_files app map List.filter].
  pose proof (collect_walk_files_never_stopped cfg env src
    {| we_root := src; we_rel := []; we_dirs := []; we_files := names |} names []
    (tick_poll m) Hns) as H.
  destruct (collect_walk_files cfg env src _ names [] (tick_poll m)) as [[acc1 m1] ret].
  cbn [fst snd we_root fs tick_poll m_stats length] in H.
  destruct H as (-> & Hfs & Hlen & Htot). cbn [collect_files_loop fst snd].
  pose proof (collected_sizes_perm cfg (fs m) src _ _ Hperm) as HP.
  assert (Hsizes : collected_sizes cfg (fs m) src [a; b; c; ".secret"] = [10; 20; 30]%Z).
  { unfold getsize in Sa, Sb, Sc. simpl. rewrite Hsk, Ha, Hb, Hc. simpl.
    destruct (fs m !! posixpath.join src a); [|discriminate].
    destruct (fs m !! posixpath.join src b); [|discriminate].
    destruct (fs m !! posixpath.join src c); [|discriminate].
    simpl in *. congruence. }
  rewrite Hsizes in HP.
  rewrite Hlen, Htot, (Permutation_length HP), (sumZ_perm _ _ HP). simpl. split; lia.
Qed.

Definition shuffled_env : environment :=
  sample_env "20240101_000000" {[ "/src" := DirNode [".secret"; "c"; "a"; "b"] [] ]}.

Lemma scenario_A_witness :
  length (fst (_collect_files (sample_cfg ["/src"] []) shuffled_env (init scenario_fs))) = 3
  /\ total_size (m_stats (snd (_collect_files (sample_cfg ["/src"] []) shuffled_env
                                 (init scenario_fs)))) = (0 + 60)%Z.
Proof.
  refine (scenario_A_three_items (sample_cfg ["/src"] []) shuffled_env (init scenario_fs)
            "/src" [".secret"; "c"; "a"; "b"] "a" "b" "c" _ _ _ _ _ _ _ _ _ _ _ _ _ _).
  - reflexivity.
  - reflexivity.
  - reflexivity.
  - intros n. reflexivity.
  - vm_compute. reflexivity.
  - vm_compute. reflexivity.
  - apply Permutation_sym.
    change [".secret"; "c"; "a"; "b"] with ([".secret"; "c"] ++ ["a"; "b"]).
    change ["a"; "b"; "c"; ".secret"] with (["a"; "b"] ++ ["c"; ".secret"]).
    etransitivity; [|apply Permutation_app_comm].
    apply Permutation_app_head. apply perm_swap.
  - reflexivity.
  - reflexivity.
  - reflexivity.
  - vm_compute. reflexivity.
  - vm_compute. reflexivity.
  - vm_compute. reflexivity.
  - vm_compute. reflexivity.
Defined.

(** C9 as stated fails: on the directory of the scenario the manifest has 3
    items and 60 bytes, not 2 items and 50 bytes. *)
Lemma scenario_A_not_two_items :
  skip_hidden (sample_cfg ["/src"] []) = true
  /\ ~ (length (fst (_collect_files (sample_cfg ["/src"] []) scenario_env (init scenario_fs))) = 2
        /\ total_size (m_stats (snd (_collect_files (sample_cfg ["/src"] []) scenario_env
                                       (init scenario_fs)))) = 50%Z).
Proof. split; [reflexivity|]. intros [H _]. vm_compute in H. discriminate. Qed.

(** The figures of the scenario are those of a directory whose 10-byte file
    is [.secret] itself. *)
Lemma scenario_A_hidden_among_three :
  let files0 : gmap string file_meta :=
    <["/src" := meta 4096 5]> (<["/src/b" := meta 20 2]>
      (<["/src/c" := meta 30 3]> (<["/src/.secret" := meta 10 4]> ∅))) in
  let env := sample_env "20240101_000000" {[ "/src" := DirNode [".secret"; "b"; "c"] [] ]} in
  let r := _collect_files (sample_cfg ["/src"] []) env (init files0) in
  List.map relative_path (fst r) = ["b"; "c"] /\ total_size (m_stats (snd r)) = 50%Z.
Proof. vm_compute. split; reflexivity. Qed.

(** ** Hidden entries *)

(** [os.walk] descends only through directories that the filter keeps. *)
Lemma walk_keeps keep : forall t root rel e,
  In e (os.walk keep root rel t) ->
  exists ds, we_rel e = rel ++ ds /\ Forall (fun d => keep d = true) ds.
Proof.
  fix IH 1. intros [files subdirs] root rel e. simpl. intros [<-|Hin].
  - exists []. rewrite app_nil_r. split; [reflexivity|constructor].
  - revert Hin. induction subdirs as [|[d t'] ds IHds]; simpl; [tauto|].
    rewrite in_app_iff. intros [Hin|Hin]; [|exact (IHds Hin)].
    destruct (keep d) eqn:Hk; [|destruct Hin].
    apply IH in Hin as (ds' & -> & Hall). exists (d :: ds').
    rewrite <- app_assoc. split; [reflexivity|constructor; assumption].
Qed.

(** Under [skip_hidden] the walk of a source directory yields no triple
    below a hidden directory: such directories are taken out of [dirs]
    before the descent. *)
Lemma walk_visits_no_hidden_directory cfg env source_dir e d :
  skip_hidden cfg = true ->
  In e (walk cfg env source_dir) -> In d (we_rel e) -> Py.startswith d "." = false.
Proof.
  intros Hskip He Hd. unfold walk in He.
  destruct (listing env !! source_dir) as [t|]; [|destruct He].
  apply walk_keeps in He as (ds & Hrel & Hall). simpl in Hrel. rewrite Hrel in Hd.
  rewrite List.Forall_forall in Hall. specialize (Hall d Hd).
  unfold keep_dir in Hall. rewrite Hskip in Hall. simpl in Hall.
  destruct (Py.startswith d "."); [discriminate|reflexivity].
Qed.

(** C3 on the code: [_collect_files] of [backup_logic.py] applies
    [skip_hidden] below the source directories only; a hidden file named
    among [source_files] enters the manifest. *)
Theorem hidden_loose_file_is_collected :
  let cfg := sample_cfg [] ["/home/u/.bashrc"] in
  let files0 : gmap string file_meta := {[ "/home/u/.bashrc" := meta 120 7 ]} in
  skip_hidden cfg = true
  /\ manifest cfg (sample_env "20240101_000000" ∅) files0 = [file_item "/home/u/.bashrc" 120]
  /\ exists fi seg,
       In fi (manifest cfg (sample_env "20240101_000000" ∅) files0)
       /\ In seg (Py.split "/" (relative_path fi))
       /\ Py.startswith seg "." = true.
Proof.
  split; [reflexivity|]. split; [vm_compute; reflexivity|].
  exists (file_item "/home/u/.bashrc" 120), ".bashrc".
  split; [vm_compute; left; reflexivity|]. split; [vm_compute; left; reflexivity|].
  reflexivity.
Qed.

(* ===================================================================== *)
(** * Properties of the remote worker *)
(* ===================================================================== *)

Module Remote := ParallelSSHBackupWorker.

Lemma int_of_float_le (x : Q) (n : Z) : (x <= inject_Z n)%Q -> (Py.int_of_float x <= n)%Z.
Proof.
  unfold Qle, Py.int_of_float. simpl. intros H.
  apply Z.quot_le_upper_bound; lia.
Qed.

Section RemoteSkip.

Lemma md5_chunks_whole chunk_size : 0 < chunk_size ->
  forall fuel data h, length data < fuel ->
  Remote.md5_chunks chunk_size fuel data h = h ++ data.
Proof.
  intros Hpos. induction fuel as [|fuel IH]; intros data h Hlen; [lia|].
  simpl. destruct data as [|b data]; [destruct chunk_size; rewrite app_nil_r; reflexivity|].
  destruct chunk_size as [|c]; [lia|].
  cbn [firstn skipn]. rewrite IH by (rewrite length_skipn; simpl in Hlen; lia).
  unfold hashlib.update. rewrite <- app_assoc. f_equal.
  change (b :: firstn c data) with ([b] ++ firstn c data).
  rewrite <- app_assoc, firstn_skipn. reflexivity.
Qed.

(** Reading by chunks of 8192 bytes digests the whole file. *)
Lemma _calculate_md5_whole r filepath :
  Remote._calculate_md5 r filepath Remote.default_chunk_size =
  hashlib.md5_hex <$> Remote.read_bytes r filepath.
Proof.
  unfold Remote._calculate_md5.
  destruct (Remote.read_bytes r filepath) as [data|]; [|reflexivity].
  cbn [fmap option_fmap option_map]. f_equal. unfold hashlib.hexdigest. f_equal.
  rewrite md5_chunks_whole; [reflexivity| |lia].
  unfold Remote.default_chunk_size. lia.
Qed.

(** The comparison of the [str] digest with the [bytes] read from the
    side-car never holds. *)
Lemma hash_check_never r local_path remote_path :
  Remote.hash_check r local_path remote_path = false.
Proof.
  unfold Remote.hash_check.
  destruct (Remote.sftp_read r _); [|reflexivity].
  destruct (Remote._calculate_md5 r local_path _); reflexivity.
Qed.

Lemma metadata_check_iff r local_path remote_path :
  Remote.metadata_check r local_path remote_path = true <->
  exists st local_size mtime remote_mtime,
    Remote.sftp_stat r remote_path = Some st
    /\ Remote.getsize r local_path = Some local_size
    /\ Remote.getmtime r local_path = Some mtime
    /\ Remote.int_getattr (Remote.st_mtime st) 0 = Some remote_mtime
    /\ Remote.int_getattr (Remote.st_size st) (-1) = Some local_size
    /\ (Py.int_of_float mtime <= remote_mtime)%Z.
Proof.
  unfold Remote.metadata_check.
  destruct (Remote.sftp_stat r remote_path) as [st|];
    [|split; [discriminate|intros (? & ? & ? & ? & ? & _); discriminate]].
  destruct (Remote.getsize r local_path) as [local_size|];
    [|split; [discriminate|intros (? & ? & ? & ? & _ & ? & _); discriminate]].
  destruct (Remote.getmtime r local_path) as [mtime|];
    [|split; [discriminate|intros (? & ? & ? & ? & _ & _ & ? & _); discriminate]].
  destruct (Remote.int_getattr (Remote.st_mtime st) 0) as [remote_mtime|] eqn:Hmt;
    [|split; [discriminate|intros (? & ? & ? & ? & E & _ & _ & E' & _); simplify_eq]].
  destruct (Remote.int_getattr (Remote.st_size st) (-1)) as [remote_size|] eqn:Hsz;
    [|split; [discriminate|intros (? & ? & ? & ? & E & _ & _ & _ & E' & _); simplify_eq]].
  rewrite andb_true_iff, Z.eqb_eq, Z.leb_le. split.
  - intros [E L]. subst. exists st, local_size, mtime, remote_mtime. repeat split; auto.
  - intros (st' & ls & mt & rm & E1 & E2 & E3 & E4 & E5 & L). simplify_eq. auto.
Qed.

(** The first tier: equal sizes and a remote modification time that is not
    older mean skip. *)
Lemma metadata_tier_skips cfg r local_path remote_path
    st remote_size remote_mtime local_mtime :
  Remote.incremental cfg = true ->
  Remote.sftp_stat r remote_path = Some st ->
  Remote.st_size st = Remote.IntValue remote_size ->
  Remote.st_mtime st = Remote.IntValue remote_mtime ->
  Remote.getsize r local_path = Some remote_size ->
  Remote.getmtime r local_path = Some local_mtime ->
  (local_mtime <= inject_Z remote_mtime)%Q ->
  fst (Remote._should_skip_incremental cfg r local_path remote_path) = true.
Proof.
  intros Hinc Hst Hsz Hmt Hls Hlm L.
  unfold Remote._should_skip_incremental. rewrite Hinc. simpl negb. cbv iota.
  assert (Remote.metadata_check r local_path remote_path = true) as ->; [|reflexivity].
  apply metadata_check_iff. exists st, remote_size, local_mtime, remote_mtime.
  rewrite Hsz, Hmt. simpl. repeat split; auto. apply int_of_float_le. exact L.
Qed.

(** The side-car is opened exactly when the first tier did not say skip and
    [use_hash_check] is on. *)
Lemma hash_tier_runs_iff cfg r local_path remote_path :
  Remote.incremental cfg = true ->
  In (Remote.OpenRead (remote_path +:+ ".hash"))
     (snd (Remote._should_skip_incremental cfg r local_path remote_path)) <->
  Remote.metadata_check r local_path remote_path = false
  /\ Remote.use_hash_check cfg = true.
Proof.
  intros Hinc. unfold Remote._should_skip_incremental. rewrite Hinc. simpl negb. cbv iota.
  destruct (Remote.metadata_check r local_path remote_path);
    destruct (Remote.use_hash_check cfg); simpl; split;
    try (intros [? ?]; discriminate); try tauto;
    intros [E|[]]; discriminate.
Qed.

Lemma remote_skip_unfold cfg r local_path remote_path :
  fst (Remote._should_skip_incremental cfg r local_path remote_path) =
  Remote.incremental cfg
  && (Remote.metadata_check r local_path remote_path
      || (Remote.use_hash_check cfg && Remote.hash_check r local_path remote_path)).
Proof.
  unfold Remote._should_skip_incremental.
  destruct (Remote.incremental cfg); [|reflexivity]. simpl.
  destruct (Remote.metadata_check r local_path remote_path); [reflexivity|].
  destruct (Remote.use_hash_check cfg); reflexivity.
Qed.

(** The answer is that of the first tier alone: the second tier never says
    skip, whatever the side-car holds. *)
Lemma remote_skip_is_metadata_check cfg r local_path remote_path :
  fst (Remote._should_skip_incremental cfg r local_path remote_path) =
  Remote.incremental cfg && Remote.metadata_check r local_path remote_path.
Proof.
  rewrite remote_skip_unfold, hash_check_never, andb_false_r, orb_false_r. reflexivity.
Qed.

Lemma stat_error_inconclusive r local_path remote_path :
  Remote.sftp_stat r remote_path = None ->
  Remote.metadata_check r local_path remote_path = false.
Proof. intros E. unfold Remote.metadata_check. rewrite E. reflexivity. Qed.

(** An item that is not skipped is handed to [_upload_file], whose first
    request after the directories is the [put]. *)
Lemma process_not_skipped cfg r local_path remote_rel :
  let remote_path := Remote.remote_path_of cfg remote_rel in
  fst (Remote._should_skip_incremental cfg r local_path remote_path) = false ->
  fst (fst (Remote.process cfg r (local_path, remote_rel))) <> Remote.Skipped
  /\ In (Remote.Put local_path remote_path)
        (snd (fst (Remote.process cfg r (local_path, remote_rel)))).
Proof.
  cbv zeta. intros Hno. unfold Remote.process.
  fold (Remote.remote_path_of cfg remote_rel).
  destruct (Remote._should_skip_incremental cfg r local_path _) as [skip calls].
  simpl in Hno. subst skip. cbv iota.
  unfold Remote._upload_file.
  destruct (negb (Remote.sftp_put r local_path _)); [|destruct (Remote.use_hash_check cfg);
    [destruct (Remote._calculate_md5 r local_path _)|]];
    simpl; (split; [try discriminate|rewrite ?in_app_iff; simpl; auto 10]).
Qed.

(** C5. A transport error in either check of [_should_skip_incremental]
    means no skip, and the worker uploads the item: when [sftp.stat] raises,
    and when [<remote_path>.hash] is opened for reading and that raises, the
    answer is [False], the item is not counted as skipped and the [put] of
    the file is requested. *)
Theorem transport_error_means_upload cfg r local_path remote_rel :
  let remote_path := Remote.remote_path_of cfg remote_rel in
  let answer := Remote._should_skip_incremental cfg r local_path remote_path in
  Remote.sftp_stat r remote_path = None
  \/ (In (Remote.OpenRead (remote_path +:+ ".hash")) (snd answer)
      /\ Remote.sftp_read r (remote_path +:+ ".hash") = None) ->
  fst answer = false
  /\ fst (fst (Remote.process cfg r (local_path, remote_rel))) <> Remote.Skipped
  /\ In (Remote.Put local_path remote_path)
        (snd (fst (Remote.process cfg r (local_path, remote_rel)))).
Proof.
  cbv zeta. intros Herr.
  assert (Hno : fst (Remote._should_skip_incremental cfg r local_path
                       (Remote.remote_path_of cfg remote_rel)) = false).
  { rewrite remote_skip_unfold. destruct (Remote.incremental cfg) eqn:Hinc; [|reflexivity].
    destruct Herr as [Hstat|[Hopen Hread]].
    - rewrite (stat_error_inconclusive _ _ _ Hstat), hash_check_never, andb_false_r.
      reflexivity.
    - apply hash_tier_runs_iff in Hopen as [-> _]; [|exact Hinc].
      unfold Remote.hash_check. rewrite Hread, andb_false_r. reflexivity. }
  split; [exact Hno|]. apply process_not_skipped. exact Hno.
Qed.

End RemoteSkip.

Definition remote_cfg (hash : bool) : Remote.config :=
  {| Remote.remote_target_dir := "/backup"; Remote.source_dirs := [];
     Remote.source_files := ["/src/a.txt"; "/src/b.txt"];
     Remote.incremental := true; Remote.skip_hidden := true;
     Remote.preserve_structure := true; Remote.compress := false;
     Remote.max_workers := 2; Remote.use_hash_check := hash |}.

Definition abc : list byte := [x61; x62; x63].

(** A session on which every [stat] raises, while the side-car of
    [/backup/a.txt] can be read. *)
Definition stat_fails : Remote.responses :=
  {| Remote.sftp_stat := fun _ => None;
     Remote.sftp_read := fun p => if String.eqb p "/backup/a.txt.hash"
                                  then Some (String.list_byte_of_string (hashlib.md5_hex abc))
                                  else None;
     Remote.sftp_put := fun _ _ => true;
     Remote.sftp_write := fun _ _ => true;
     Remote.sftp_mkdir := fun _ => true;
     Remote.getsize := fun _ => Some 3%Z;
     Remote.getmtime := fun _ => Some (199 # 2);
     Remote.read_bytes := fun _ => Some abc |}.

(** A session that reports the remote file with the size of the local one
    and the modification time [mtime], and whose side-cars hold the digest
    of [abc]; the local files hold [abc] and were modified at 99.5. *)
Definition stat_at (mtime : Z) : Remote.responses :=
  {| Remote.sftp_stat := fun _ => Some {| Remote.st_size := Remote.IntValue 3;
                                          Remote.st_mtime := Remote.IntValue mtime |};
     Remote.sftp_read := fun _ => Some (String.list_byte_of_string (hashlib.md5_hex abc));
     Remote.sftp_put := fun _ _ => true;
     Remote.sftp_write := fun _ _ => true;
     Remote.sftp_mkdir := fun _ => true;
     Remote.getsize := fun _ => Some 3%Z;
     Remote.getmtime := fun _ => Some (199 # 2);
     Remote.read_bytes := fun _ => Some abc |}.

Lemma metadata_tier_example :
  fst (Remote._should_skip_incremental (remote_cfg true) (stat_at 100)
         "/src/a.txt" "/backup/a.txt") = true.
Proof.
  apply (metadata_tier_skips (remote_cfg true) (stat_at 100) "/src/a.txt" "/backup/a.txt"
           {| Remote.st_size := Remote.IntValue 3; Remote.st_mtime := Remote.IntValue 100 |}
           3%Z 100%Z (199 # 2)); try reflexivity.
  unfold Qle. simpl. lia.
Qed.

(** C4. The second tier does not skip on equal digests.  The remote copy
    of [/src/a.txt] has the size of the local file and an older
    modification time, so the first check is inconclusive; [use_hash_check]
    is on and the side-car holds the very digest that [_upload_file] writes
    for the content of the local file, which is the MD5 hex digest of that
    content.  [_should_skip_incremental] opens the side-car and answers
    [False], and the worker uploads the file again. *)
Theorem equal_digest_is_not_skipped :
  let cfg := remote_cfg true in
  let r := stat_at 50 in
  let sidecar := "/backup/a.txt.hash" in
  let digest := "900150983cd24fb0d6963f7d28e17f72" in
  Remote.incremental cfg = true
  /\ Remote.use_hash_check cfg = true
  /\ Remote.metadata_check r "/src/a.txt" "/backup/a.txt" = false
  /\ Remote._calculate_md5 r "/src/a.txt" Remote.default_chunk_size = Some digest
  /\ In (Remote.OpenWrite sidecar digest)
        (snd (fst (Remote._upload_file cfg r "/src/a.txt" "/backup/a.txt" "a.txt")))
  /\ Remote.sftp_read r sidecar = Some (String.list_byte_of_string digest)
  /\ Remote._should_skip_incremental cfg r "/src/a.txt" "/backup/a.txt" =
     (false, [Remote.Stat "/backup/a.txt"; Remote.OpenRead sidecar])
  /\ fst (fst (Remote.process cfg r ("/src/a.txt", "a.txt"))) = Remote.Uploaded
  /\ In (Remote.Put "/src/a.txt" "/backup/a.txt")
        (snd (fst (Remote.process cfg r ("/src/a.txt", "a.txt")))).
Proof.
  cbv zeta.
  assert (Hd : hashlib.md5_hex abc = "900150983cd24fb0d6963f7d28e17f72")
    by (vm_compute; reflexivity).
  assert (Hmd5 : Remote._calculate_md5 (stat_at 50) "/src/a.txt" Remote.default_chunk_size
                 = Some "900150983cd24fb0d6963f7d28e17f72").
  { rewrite _calculate_md5_whole. simpl. rewrite Hd. reflexivity. }
  split; [reflexivity|]. split; [reflexivity|]. split; [vm_compute; reflexivity|].
  split; [exact Hmd5|].
  assert (Hskip : Remote._should_skip_incremental (remote_cfg true) (stat_at 50)
                    "/src/a.txt" "/backup/a.txt" =
                  (false, [Remote.Stat "/backup/a.txt"; Remote.OpenRead "/backup/a.txt.hash"])).
  { unfold Remote._should_skip_incremental.
    replace (Remote.metadata_check (stat_at 50) "/src/a.txt" "/backup/a.txt") with false
      by (vm_compute; reflexivity).
    simpl. rewrite hash_check_never. reflexivity. }
  assert (Hup : Remote._upload_file (remote_cfg true) (stat_at 50)
                  "/src/a.txt" "/backup/a.txt" "a.txt" =
                (true, Remote._mkdirs (stat_at 50) "/backup"
                         ++ [Remote.Put "/src/a.txt" "/backup/a.txt"]
                         ++ [Remote.OpenWrite "/backup/a.txt.hash"
                               "900150983cd24fb0d6963f7d28e17f72"], [])).
  { vm_compute. reflexivity. }
  split; [rewrite Hup; cbn [fst snd]; rewrite !in_app_iff; right; right; left; reflexivity|].
  split; [simpl; rewrite Hd; reflexivity|].
  split; [exact Hskip|].
  unfold Remote.process.
  change (Remote.remote_path_of (remote_cfg true) "a.txt") with "/backup/a.txt".
  rewrite Hskip, Hup. cbv beta iota zeta. cbn [fst snd]. split; [reflexivity|].
  rewrite !in_app_iff. right; right; left; left; reflexivity.
Qed.

Lemma transport_error_witness :
  (fst (Remote._should_skip_incremental (remote_cfg true) stat_fails
          "/src/a.txt" "/backup/a.txt") = false
   /\ fst (fst (Remote.process (remote_cfg true) stat_fails ("/src/a.txt", "a.txt")))
      <> Remote.Skipped)
  /\ fst (Remote._should_skip_incremental (remote_cfg true) stat_fails
            "/src/b.txt" "/backup/b.txt") = false.
Proof.
  split.
  - destruct (transport_error_means_upload (remote_cfg true) stat_fails "/src/a.txt" "a.txt")
      as (Hno & Hnot & _); [left; reflexivity|].
    split; [exact Hno|exact Hnot].
  - destruct (transport_error_means_upload (remote_cfg true) stat_fails "/src/b.txt" "b.txt")
      as (Hno & _); [right; split; [vm_compute; auto|reflexivity]|].
    exact Hno.
Defined.

(** ** The worker pool *)

Section Pool.

Definition is_holding (w : Remote.worker) : bool :=
  match w with Remote.Holding _ => true | _ => false end.

(** The number of workers that hold an item. *)
Definition holding (ws : list Remote.worker) : nat := length (List.filter is_holding ws).

Definition remote_tally (st : Remote.stats) : nat :=
  Remote.files_copied st + Remote.skipped st + Remote.failed st.

Lemma holding_insert ws : forall w old x,
  ws !! w = Some old ->
  holding (<[w := x]> ws) + (if is_holding old then 1 else 0)
  = holding ws + (if is_holding x then 1 else 0).
Proof.
  unfold holding. induction ws as [|a ws IH]; intros w old x Hw; [discriminate|].
  destruct w as [|w]; simpl in *.
  - injection Hw as ->. destruct (is_holding old), (is_holding x); simpl; lia.
  - specialize (IH w old x Hw). destruct (is_holding a); simpl; lia.
Qed.

Lemma holding_repeat n : holding (repeat Remote.AtLoopHead n) = 0.
Proof. unfold holding. induction n; simpl; auto. Qed.

Lemma count_tally o st : remote_tally (Remote.count o st) = S (remote_tally st)
  /\ Remote.total_files (Remote.count o st) = Remote.total_files st.
Proof. unfold remote_tally. destruct o; simpl; split; lia. Qed.


(** The pool as [start_backup] starts it. *)
Definition pool_start (s0 : Remote.scheduler) : Prop :=
  Remote.unfinished_tasks s0 = length (Remote.queue s0)
  /\ holding (Remote.workers s0) = 0.

Definition pool_inv (s0 s : Remote.scheduler) : Prop :=
  exists taken,
    Remote.queue s0 = taken ++ Remote.queue s
    /\ remote_tally (Remote.s_stats s) + holding (Remote.workers s)
       = remote_tally (Remote.s_stats s0) + length taken
    /\ Remote.unfinished_tasks s = length (Remote.queue s) + holding (Remote.workers s)
    /\ Remote.total_files (Remote.s_stats s) = Remote.total_files (Remote.s_stats s0).

Lemma pool_inv_reachable cfg s0 s :
  pool_start s0 -> Remote.reachable cfg s0 s -> pool_inv s0 s.
Proof.
  intros [Hu Hh]. induction 1 as [|s1 s2 Hreach IH Hstep].
  - exists []. simpl. repeat split; lia.
  - destruct IH as (taken & Hq & Ht & Hun & Hn).
    destruct Hstep as [w s1 Hw Hs|w s1 Hw Hs|w s1 it rest Hw Hq1|w s1 Hw Hq1|w s1 it r Hw|s1].
    + pose proof (holding_insert _ w _ Remote.AtQueue Hw) as Hi. simpl in Hi.
      exists taken. simpl. repeat split; auto; lia.
    + pose proof (holding_insert _ w _ Remote.Exited Hw) as Hi. simpl in Hi.
      exists taken. simpl. repeat split; auto; lia.
    + pose proof (holding_insert _ w _ (Remote.Holding it) Hw) as Hi. simpl in Hi.
      exists (taken ++ [it]). simpl. rewrite Hq1 in *. simpl in *.
      rewrite <- app_assoc, length_app. simpl. repeat split; auto; lia.
    + pose proof (holding_insert _ w _ Remote.Exited Hw) as Hi. simpl in Hi.
      exists taken. simpl. repeat split; auto; lia.
    + pose proof (holding_insert _ w _ Remote.AtLoopHead Hw) as Hi. simpl in Hi.
      destruct (count_tally (Remote.process cfg r it).1.1 (Remote.s_stats s1)) as [Hc Hc'].
      exists taken. simpl. rewrite Hc, Hc'. repeat split; auto; lia.
    + exists taken. simpl. repeat split; auto.
Qed.

Definition remote_manifest (cfg : Remote.config) (wd : Remote.world) : list Remote.item :=
  (Remote._collect_files cfg (Remote.stop_reads wd) (Remote.listing wd)
     (Remote.local_size wd) Remote.init_stats).1.1.

Lemma remote_collect_stats cfg stop listing size_of st :
  let r := Remote._collect_files cfg stop listing size_of st in
  Remote.total_files r.1.2 = length r.1.1 /\ remote_tally r.1.2 = remote_tally st.
Proof.
  unfold Remote._collect_files.
  destruct (Remote.collect_dirs cfg stop listing (Remote.source_dirs cfg) [] 0) as [i1 p1].
  destruct (Remote.collect_single_files cfg stop (Remote.source_files cfg) i1 p1) as [i2 p2].
  simpl. auto.
Qed.

Lemma remote_start_pool cfg wd s0 :
  Remote.start_backup cfg wd = Remote.Pool s0 ->
  pool_start s0
  /\ Remote.queue s0 = remote_manifest cfg wd
  /\ remote_tally (Remote.s_stats s0) = 0
  /\ Remote.total_files (Remote.s_stats s0) = length (remote_manifest cfg wd).
Proof.
  unfold Remote.start_backup, remote_manifest.
  destruct (Remote.paramiko_present wd); [|discriminate]. simpl.
  pose proof (remote_collect_stats cfg (Remote.stop_reads wd) (Remote.listing wd)
                (Remote.local_size wd) Remote.init_stats) as [Hn Ht].
  destruct (Remote._collect_files cfg _ _ _ _) as [[items st] polls]. simpl in *.
  destruct items as [|it items]; [discriminate|].
  destruct (Remote.connects wd); [|discriminate]. simpl.
  intros E. injection E as <-. unfold pool_start. simpl.
  rewrite holding_repeat. auto.
Qed.

Lemma remote_start_nothing cfg wd st evs :
  Remote.paramiko_present wd = true ->
  Remote.start_backup cfg wd = Remote.NothingToDo st evs ->
  remote_manifest cfg wd = [] /\ remote_tally st = 0 /\ Remote.total_files st = 0.
Proof.
  unfold Remote.start_backup, remote_manifest. intros ->. simpl.
  pose proof (remote_collect_stats cfg (Remote.stop_reads wd) (Remote.listing wd)
                (Remote.local_size wd) Remote.init_stats) as [Hn Ht].
  destruct (Remote._collect_files cfg _ _ _ _) as [[items st'] polls]. simpl in *.
  destruct items as [|it items].
  - intros E. injection E as <- <-. auto.
  - destruct (Remote.connects wd); discriminate.
Qed.

(** ** The statistics of a completed run *)

(** The counters of the specification, read off the statistics of either
    executor; the local statistics hold no counter for failures, which
    stands for none. *)
Record RunStats := {
  totalFiles : nat;
  filesCopied : nat;
  filesSkipped : nat;
  filesFailed : nat }.

Definition local_view (st : BackupManager.stats) : RunStats :=
  {| totalFiles := total_files st; filesCopied := files_copied st;
     filesSkipped := files_skipped st; filesFailed := 0 |}.

Definition remote_view (st : Remote.stats) : RunStats :=
  {| totalFiles := Remote.total_files st; filesCopied := Remote.files_copied st;
     filesSkipped := Remote.skipped st; filesFailed := Remote.failed st |}.

(** A run that ran to completion, with the size of its manifest and its
    final statistics: a local [start_backup] that returned without the stop
    flag ever found set, in archive mode or over paths that encode; a
    remote [start_backup] that found nothing to send, or whose [join] on the
    queue returned. *)
Inductive completed_run : nat -> RunStats -> Prop :=
| local_completed cfg env files0 m :
    never_stopped env ->
    compress cfg = true
    \/ all_encodable cfg (run_directory cfg env) (manifest cfg env files0) ->
    start_backup cfg env (init files0) = Returned m ->
    completed_run (length (manifest cfg env files0)) (local_view (m_stats m))
| remote_nothing cfg wd st evs :
    Remote.paramiko_present wd = true ->
    Remote.start_backup cfg wd = Remote.NothingToDo st evs ->
    completed_run (length (remote_manifest cfg wd)) (remote_view st)
| remote_joined cfg wd s0 s :
    Remote.start_backup cfg wd = Remote.Pool s0 ->
    Remote.reachable cfg s0 s ->
    Remote.joined s ->
    completed_run (length (remote_manifest cfg wd)) (remote_view (Remote.s_stats s)).

(** At the completion of such a run the counters add up to [total_files],
    which is the number of items of the manifest. *)
Lemma stats_balanced_when_lines_encode (n : nat) (r : RunStats) :
  completed_run n r ->
  filesCopied r + filesSkipped r + filesFailed r = totalFiles r /\ totalFiles r = n.
Proof.
  intros [cfg env files0 m Hns Henc Hrun|cfg wd st evs Hp Hrun|cfg wd s0 s Hrun Hreach Hjoin];
    simpl.
  - pose proof (start_backup_returned cfg env files0 m Hrun) as (Ht & Hn & _).
    specialize (Ht Henc). unfold tally in Ht. rewrite processed_never in Ht by exact Hns. lia.
  - destruct (remote_start_nothing cfg wd st evs Hp Hrun) as (Hm & Ht & Hn).
    unfold remote_tally in Ht. rewrite Hm. simpl. lia.
  - destruct (remote_start_pool cfg wd s0 Hrun) as (Hstart & Hq & Ht0 & Hn0).
    destruct (pool_inv_reachable cfg s0 s Hstart Hreach) as (taken & Hq' & Ht & Hun & Hn).
    unfold Remote.joined in Hjoin. rewrite Hjoin in Hun.
    assert (Hnil : Remote.queue s = [])
      by (destruct (Remote.queue s); [reflexivity|simpl in Hun; lia]).
    rewrite Hnil, app_nil_r in Hq'. rewrite Hnil in Hun. simpl in Hun.
    unfold remote_tally in *. rewrite <- Hq, Hq' in *. lia.
Qed.


End Pool.

(** ** A run of the pool: two items, two workers, one upload fails *)

Lemma reachable_first cfg s0 s1 s :
  Remote.step cfg s0 s1 -> Remote.reachable cfg s1 s -> Remote.reachable cfg s0 s.
Proof.
  intros Hstep. induction 1 as [|s2 s3 Hreach IH Hstep'].
  - eapply Remote.reach_step; [apply Remote.reach_start|exact Hstep].
  - eapply Remote.reach_step; [exact IH|exact Hstep'].
Qed.

Definition session (put_ok : bool) : Remote.responses :=
  {| Remote.sftp_stat := fun _ => None;
     Remote.sftp_read := fun _ => None;
     Remote.sftp_put := fun _ _ => put_ok;
     Remote.sftp_write := fun _ _ => true;
     Remote.sftp_mkdir := fun _ => true;
     Remote.getsize := fun _ => Some 3%Z;
     Remote.getmtime := fun _ => Some (199 # 2);
     Remote.read_bytes := fun _ => Some [x61; x62; x63] |}.

Definition pool_world : Remote.world :=
  {| Remote.paramiko_present := true;
     Remote.stop_reads := fun _ => false;
     Remote.listing := ∅;
     Remote.local_size := fun _ => Some 3%Z;
     Remote.connects := true;
     Remote.root_responses := session true |}.

Definition pool_initial : Remote.scheduler :=
  match Remote.start_backup (remote_cfg false) pool_world with
  | Remote.Pool s => s
  | _ => {| Remote.queue := []; Remote.unfinished_tasks := 0; Remote.workers := [];
            Remote.stop_flag := false; Remote.s_stats := Remote.init_stats;
            Remote.events := []; Remote.calls := [] |}
  end.

(** Worker 0 takes the first item and worker 1 the second before either is
    done; the upload of worker 1 fails, then that of worker 0 succeeds. *)
Definition pool_final : Remote.scheduler :=
  let a : Remote.item := ("/src/a.txt", "a.txt") in
  let b : Remote.item := ("/src/b.txt", "b.txt") in
  let s1 := Remote.with_worker 0 Remote.AtQueue pool_initial in
  let s2 := Remote.with_worker 1 Remote.AtQueue s1 in
  let s3 := Remote.take_item 0 a [b] s2 in
  let s4 := Remote.take_item 1 b [] s3 in
  let s5 := Remote.task_done 1 (Remote.process (remote_cfg false) (session false) b) s4 in
  Remote.task_done 0 (Remote.process (remote_cfg false) (session true) a) s5.

Lemma pool_run :
  Remote.start_backup (remote_cfg false) pool_world = Remote.Pool pool_initial
  /\ Remote.reachable (remote_cfg false) pool_initial pool_final
  /\ Remote.joined pool_final.
Proof.
  split; [vm_compute; reflexivity|]. split; [|vm_compute; reflexivity].
  unfold pool_final. cbv zeta.
  eapply reachable_first; [apply (Remote.step_test_clear _ 0); vm_compute; reflexivity|].
  eapply reachable_first; [apply (Remote.step_test_clear _ 1); vm_compute; reflexivity|].
  eapply reachable_first;
    [apply (Remote.step_get _ 0 _ ("/src/a.txt", "a.txt") [("/src/b.txt", "b.txt")]);
     vm_compute; reflexivity|].
  eapply reachable_first;
    [apply (Remote.step_get _ 1 _ ("/src/b.txt", "b.txt") []); vm_compute; reflexivity|].
  eapply reachable_first;
    [apply (Remote.step_item _ 1 _ ("/src/b.txt", "b.txt") (session false));
     vm_compute; reflexivity|].
  eapply reachable_first;
    [apply (Remote.step_item _ 0 _ ("/src/a.txt", "a.txt") (session true));
     vm_compute; reflexivity|].
  apply Remote.reach_start.
Qed.

Example stats_balanced_example :
  (let m := returned (start_backup (sample_cfg ["/src"] []) scenario_env (init scenario_fs)) in
   files_copied (m_stats m) + files_skipped (m_stats m) + 0 = total_files (m_stats m)
   /\ total_files (m_stats m) = 3)
  /\ (Remote.files_copied (Remote.s_stats pool_final) + Remote.skipped (Remote.s_stats pool_final)
        + Remote.failed (Remote.s_stats pool_final) = Remote.total_files (Remote.s_stats pool_final)
      /\ Remote.total_files (Remote.s_stats pool_final) = 2).
Proof.
  split.
  - assert (Hlen : length (manifest (sample_cfg ["/src"] []) scenario_env scenario_fs) = 3)
      by (vm_compute; reflexivity).
    assert (Hrun : start_backup (sample_cfg ["/src"] []) scenario_env (init scenario_fs)
                   = Returned (returned (start_backup (sample_cfg ["/src"] []) scenario_env
                                           (init scenario_fs))))
      by (vm_compute; reflexivity).
    cbv zeta.
    generalize dependent (returned (start_backup (sample_cfg ["/src"] []) scenario_env
                                     (init scenario_fs))).
    intros m Hrun.
    assert (Henc : all_encodable (sample_cfg ["/src"] [])
                     (run_directory (sample_cfg ["/src"] []) scenario_env)
                     (manifest (sample_cfg ["/src"] []) scenario_env scenario_fs)).
    { intros fi Hin. vm_compute in Hin.
      destruct Hin as [<-|[<-|[<-|[]]]]; vm_compute; reflexivity. }
    destruct (stats_balanced_when_lines_encode _ _
                (local_completed (sample_cfg ["/src"] []) scenario_env scenario_fs m
                   (fun n => eq_refl) (or_intror Henc) Hrun)) as [Hb Hn].
    cbn [local_view filesCopied filesSkipped filesFailed totalFiles] in Hb, Hn.
    split; [exact Hb|]. rewrite Hn. exact Hlen.
  - destruct pool_run as (Hstart & Hreach & Hjoin).
    assert (Hlen : length (remote_manifest (remote_cfg false) pool_world) = 2)
      by (vm_compute; reflexivity).
    generalize dependent pool_final. intros s Hreach Hjoin.
    destruct (stats_balanced_when_lines_encode _ _
                (remote_joined (remote_cfg false) pool_world pool_initial s
                   Hstart Hreach Hjoin)) as [Hb Hn].
    cbn [remote_view filesCopied filesSkipped filesFailed totalFiles] in Hb, Hn.
    split; [exact Hb|]. rewrite Hn. exact Hlen.
Defined.



(* ===================================================================== *)
(** * Further properties of the remote worker *)
(* ===================================================================== *)

(** ** The pool after a stop request, and at the end of a run *)

Definition is_at_queue (w : Remote.worker) : bool :=
  match w with Remote.AtQueue => true | _ => false end.

(** The number of workers that passed the test of the stop flag and are
    about to call [get_nowait]. *)
Definition at_queue (ws : list Remote.worker) : nat := length (List.filter is_at_queue ws).

Lemma at_queue_insert ws : forall w old x,
  ws !! w = Some old ->
  at_queue (<[w := x]> ws) + (if is_at_queue old then 1 else 0)
  = at_queue ws + (if is_at_queue x then 1 else 0).
Proof.
  unfold at_queue. induction ws as [|a ws IH]; intros w old x Hw; [discriminate|].
  destruct w as [|w]; simpl in *.
  - injection Hw as ->. destruct (is_at_queue old), (is_at_queue x); simpl; lia.
  - specialize (IH w old x Hw). destruct (is_at_queue a); simpl; lia.
Qed.

(** Once the flag is set with more items queued than workers about to take
    one, it stays so: the flag is never cleared, and a worker takes one
    more item at most. *)
Lemma stop_with_items_left cfg s s' :
  Remote.reachable cfg s s' ->
  Remote.stop_flag s = true ->
  at_queue (Remote.workers s) < length (Remote.queue s) ->
  Remote.stop_flag s' = true
  /\ at_queue (Remote.workers s') < length (Remote.queue s').
Proof.
  intros Hreach Hstop Hlt. induction Hreach as [|s1 s2 Hreach [IHs IHq] Hstep]; [auto|].
  destruct Hstep as [w s1 Hw Hs|w s1 Hw Hs|w s1 it rest Hw Hq1|w s1 Hw Hq1|w s1 it r Hw|s1];
    simpl.
  - congruence.
  - pose proof (at_queue_insert _ w _ Remote.Exited Hw) as Hi. simpl in Hi.
    split; [assumption|lia].
  - pose proof (at_queue_insert _ w _ (Remote.Holding it) Hw) as Hi. simpl in Hi.
    rewrite Hq1 in IHq. simpl in IHq. split; [assumption|lia].
  - rewrite Hq1 in IHq. simpl in IHq. lia.
  - pose proof (at_queue_insert _ w _ Remote.AtLoopHead Hw) as Hi. simpl in Hi.
    split; [assumption|lia].
  - split; [reflexivity|assumption].
Qed.

Lemma reachable_trans cfg s0 s1 s2 :
  Remote.reachable cfg s0 s1 -> Remote.reachable cfg s1 s2 -> Remote.reachable cfg s0 s2.
Proof.
  intros H01 H12. induction H12 as [|s s' _ IH Hstep]; [exact H01|].
  eapply Remote.reach_step; [exact IH|exact Hstep].
Qed.

(** X1. [stop()] while more items are queued than workers are about to
    take leaves [self._queue.join()] waiting for ever: the workers leave
    their loops, the items that remain are never marked done, and the
    counters stay below [total_files]. *)
Theorem stop_leaves_join_waiting cfg wd s0 s s' :
  Remote.start_backup cfg wd = Remote.Pool s0 ->
  Remote.reachable cfg s0 s ->
  Remote.stop_flag s = true ->
  at_queue (Remote.workers s) < length (Remote.queue s) ->
  Remote.reachable cfg s s' ->
  ~ Remote.joined s'
  /\ Remote.queue s' <> []
  /\ remote_tally (Remote.s_stats s') < Remote.total_files (Remote.s_stats s').
Proof.
  intros Hrun Hreach Hstop Hlt Hreach'.
  destruct (remote_start_pool cfg wd s0 Hrun) as (Hstart & Hq & Ht0 & Hn0).
  destruct (stop_with_items_left cfg s s' Hreach' Hstop Hlt) as [_ Hlt'].
  destruct (pool_inv_reachable cfg s0 s' Hstart (reachable_trans _ _ _ _ Hreach Hreach'))
    as (taken & Hq0 & Ht & Hun & Hn).
  assert (Hlen : length (Remote.queue s0) = length taken + length (Remote.queue s'))
    by (rewrite Hq0, length_app; reflexivity).
  rewrite Hq in Hlen.
  unfold Remote.joined. split; [lia|]. split.
  - intros E. rewrite E in Hlt'. simpl in Hlt'. lia.
  - lia.
Qed.

Lemma stop_witness_reach :
  Remote.reachable (remote_cfg false) pool_initial (Remote.set_stop pool_initial).
Proof. eapply Remote.reach_step; [apply Remote.reach_start|apply Remote.step_stop]. Qed.

Lemma stop_leaves_join_waiting_witness :
  ~ Remote.joined (Remote.set_stop pool_initial)
  /\ Remote.queue (Remote.set_stop pool_initial) <> [].
Proof.
  destruct (stop_leaves_join_waiting (remote_cfg false) pool_world pool_initial
              (Remote.set_stop pool_initial) (Remote.set_stop pool_initial))
    as (Hj & Hq & _).
  - vm_compute. reflexivity.
  - exact stop_witness_reach.
  - reflexivity.
  - vm_compute. lia.
  - apply Remote.reach_start.
  - split; assumption.
Defined.

(** X2. With [max_workers = 0] no thread is started: whatever happens, the
    queue keeps its items, the counters do not move and [join] does not
    return. *)
Theorem no_worker_no_join cfg wd s0 s :
  Remote.max_workers cfg = 0 ->
  Remote.start_backup cfg wd = Remote.Pool s0 ->
  Remote.reachable cfg s0 s ->
  ~ Remote.joined s
  /\ Remote.queue s = remote_manifest cfg wd
  /\ Remote.s_stats s = Remote.s_stats s0.
Proof.
  intros Hzero Hrun Hreach.
  destruct (remote_start_pool cfg wd s0 Hrun) as ([Hu _] & Hq & _ & _).
  assert (Hw0 : Remote.workers s0 = []).
  { revert Hrun. unfold Remote.start_backup.
    destruct (Remote.paramiko_present wd); [|discriminate]. simpl.
    destruct (Remote._collect_files cfg _ _ _ _) as [[items st] polls].
    destruct items; [discriminate|]. destruct (Remote.connects wd); [|discriminate].
    simpl. intros E. injection E as <-. simpl. rewrite Hzero. reflexivity. }
  assert (Hne : Remote.queue s0 <> []).
  { revert Hrun. unfold Remote.start_backup.
    destruct (Remote.paramiko_present wd); [|discriminate]. simpl.
    destruct (Remote._collect_files cfg _ _ _ _) as [[items st] polls].
    destruct items; [discriminate|]. destruct (Remote.connects wd); [|discriminate].
    simpl. intros E. injection E as <-. simpl. discriminate. }
  assert (Hinv : Remote.workers s = [] /\ Remote.queue s = Remote.queue s0
                 /\ Remote.unfinished_tasks s = Remote.unfinished_tasks s0
                 /\ Remote.s_stats s = Remote.s_stats s0).
  { induction Hreach as [|s1 s2 Hreach (IHw & IHq & IHu & IHs) Hstep]; [auto|].
    destruct Hstep as [w s1 Hw Hs|w s1 Hw Hs|w s1 it rest Hw Hq1|w s1 Hw Hq1|w s1 it r Hw|s1];
      try (rewrite IHw in Hw; discriminate).
    simpl. auto. }
  destruct Hinv as (_ & Hqs & Hus & Hss).
  unfold Remote.joined. rewrite Hus, Hu, Hqs, <- Hq. repeat split; auto.
  destruct (Remote.queue s0); [congruence|simpl; lia].
Qed.

Lemma in_insert {A} (l : list A) : forall w x y,
  In x (<[w := y]> l) -> x = y \/ In x l.
Proof.
  induction l as [|a l IH]; intros w x y; [intros []|].
  destruct w as [|w]; simpl.
  - intros [<-|H]; auto.
  - intros [<-|H]; [auto|]. destruct (IH w x y H); auto.
Qed.

(** While the flag is clear a worker has left its loop only on an empty
    queue, and the number of workers is that of the start. *)
Lemma exit_on_empty_queue cfg s0 s :
  ~ In Remote.Exited (Remote.workers s0) ->
  Remote.reachable cfg s0 s ->
  length (Remote.workers s) = length (Remote.workers s0)
  /\ (Remote.stop_flag s = false -> In Remote.Exited (Remote.workers s) -> Remote.queue s = []).
Proof.
  intros H0. induction 1 as [|s1 s2 Hreach [IHl IH] Hstep]; [split; [reflexivity|tauto]|].
  destruct Hstep as [w s1 Hw Hs|w s1 Hw Hs|w s1 it rest Hw Hq1|w s1 Hw Hq1|w s1 it r Hw|s1];
    simpl; rewrite ?length_insert; (split; [exact IHl|]).
  - intros Hf Hin. apply in_insert in Hin as [?|Hin]; [discriminate|auto].
  - congruence.
  - intros Hf Hin. apply in_insert in Hin as [?|Hin]; [discriminate|].
    rewrite (IH Hf Hin) in Hq1. discriminate.
  - intros _ _. exact Hq1.
  - intros Hf Hin. apply in_insert in Hin as [?|Hin]; [discriminate|auto].
  - discriminate.
Qed.

Lemma holding_exited ws : Forall (fun w => w = Remote.Exited) ws -> holding ws = 0.
Proof. unfold holding. induction 1 as [|w ws -> _ IH]; simpl; auto. Qed.

(** X3. Without a stop request, a pool of at least one worker whose
    workers have all left their loops has dealt with every item: the queue
    is empty, [join] returns, and the three counters add up to
    [total_files], the length of the manifest. *)
Theorem all_exited_means_done cfg wd s0 s :
  0 < Remote.max_workers cfg ->
  Remote.start_backup cfg wd = Remote.Pool s0 ->
  Remote.reachable cfg s0 s ->
  Remote.stop_flag s = false ->
  Forall (fun w => w = Remote.Exited) (Remote.workers s) ->
  Remote.joined s
  /\ Remote.queue s = []
  /\ Remote.files_copied (Remote.s_stats s) + Remote.skipped (Remote.s_stats s)
     + Remote.failed (Remote.s_stats s) = Remote.total_files (Remote.s_stats s)
  /\ Remote.total_files (Remote.s_stats s) = length (remote_manifest cfg wd).
Proof.
  intros Hpos Hrun Hreach Hclear Hall.
  destruct (remote_start_pool cfg wd s0 Hrun) as (Hstart & Hq & Ht0 & Hn0).
  assert (Hw0 : Remote.workers s0 = repeat Remote.AtLoopHead (Remote.max_workers cfg)).
  { revert Hrun. unfold Remote.start_backup.
    destruct (Remote.paramiko_present wd); [|discriminate]. simpl.
    destruct (Remote._collect_files cfg _ _ _ _) as [[items st] polls].
    destruct items; [discriminate|]. destruct (Remote.connects wd); [|discriminate].
    simpl. intros E. injection E as <-. reflexivity. }
  destruct (exit_on_empty_queue cfg s0 s) as [Hlen Hexit]; [|exact Hreach|].
  { rewrite Hw0. intros Hin. apply repeat_spec in Hin. discriminate. }
  rewrite Hw0, repeat_length in Hlen.
  assert (Hempty : Remote.queue s = []).
  { apply Hexit; [exact Hclear|]. destruct (Remote.workers s) as [|w ws]; [simpl in Hlen; lia|].
    inversion Hall; subst. left. reflexivity. }
  destruct (pool_inv_reachable cfg s0 s Hstart Hreach) as (taken & Hq0 & Ht & Hun & Hn).
  rewrite (holding_exited _ Hall) in *. rewrite Hempty in *. rewrite app_nil_r in Hq0.
  simpl in Hun. unfold Remote.joined, remote_tally in *.
  rewrite <- Hq, Hq0 in *. repeat split; auto; lia.
Qed.

Definition no_worker_cfg : Remote.config :=
  {| Remote.remote_target_dir := "/backup"; Remote.source_dirs := [];
     Remote.source_files := ["/src/a.txt"; "/src/b.txt"];
     Remote.incremental := true; Remote.skip_hidden := true;
     Remote.preserve_structure := true; Remote.compress := false;
     Remote.max_workers := 0; Remote.use_hash_check := false |}.

Definition idle_pool : Remote.scheduler :=
  match Remote.start_backup no_worker_cfg pool_world with
  | Remote.Pool s => s
  | _ => pool_initial
  end.

Lemma no_worker_no_join_witness :
  ~ Remote.joined idle_pool /\ Remote.s_stats idle_pool = Remote.s_stats idle_pool.
Proof.
  destruct (no_worker_no_join no_worker_cfg pool_world idle_pool idle_pool)
    as (Hj & _ & Hs).
  - reflexivity.
  - vm_compute. reflexivity.
  - apply Remote.reach_start.
  - split; assumption.
Defined.

(** The run of [pool_run], then both workers find the queue empty. *)
Definition pool_done : Remote.scheduler :=
  Remote.with_worker 1 Remote.Exited
    (Remote.with_worker 1 Remote.AtQueue
       (Remote.with_worker 0 Remote.Exited
          (Remote.with_worker 0 Remote.AtQueue pool_final))).

Lemma pool_done_reachable : Remote.reachable (remote_cfg false) pool_initial pool_done.
Proof.
  destruct pool_run as (_ & Hreach & _).
  unfold pool_done.
  eapply Remote.reach_step; [|apply (Remote.step_empty _ 1); vm_compute; reflexivity].
  eapply Remote.reach_step; [|apply (Remote.step_test_clear _ 1); vm_compute; reflexivity].
  eapply Remote.reach_step; [|apply (Remote.step_empty _ 0); vm_compute; reflexivity].
  eapply Remote.reach_step; [|apply (Remote.step_test_clear _ 0); vm_compute; reflexivity].
  exact Hreach.
Qed.

Lemma all_exited_means_done_witness :
  Remote.joined pool_done
  /\ Remote.files_copied (Remote.s_stats pool_done) + Remote.skipped (Remote.s_stats pool_done)
     + Remote.failed (Remote.s_stats pool_done) = Remote.total_files (Remote.s_stats pool_done).
Proof.
  destruct (all_exited_means_done (remote_cfg false) pool_world pool_initial pool_done)
    as (Hj & _ & Hsum & _).
  - vm_compute. lia.
  - vm_compute. reflexivity.
  - exact pool_done_reachable.
  - vm_compute. reflexivity.
  - vm_compute. repeat constructor.
  - split; assumption.
Defined.

(** ** Splitting and joining *)

Fixpoint has_char (c : ascii) (s : string) : bool :=
  match s with
  | EmptyString => false
  | String a r => Ascii.eqb a c || has_char c r
  end.

Lemma split_nonempty sep s : Py.split sep s <> [].
Proof.
  destruct s as [|a r]; simpl; [discriminate|].
  destruct (Py.split sep r); [discriminate|]. destruct (Ascii.eqb a sep); discriminate.
Qed.

Lemma split_cons sep a r :
  Py.split sep (String a r) =
  if Ascii.eqb a sep then EmptyString :: Py.split sep r
  else match Py.split sep r with
       | hd :: tl => String a hd :: tl
       | [] => [String a EmptyString]
       end.
Proof.
  simpl. destruct (Py.split sep r) eqn:E; [destruct (split_nonempty _ _ E)|].
  destruct (Ascii.eqb a sep); reflexivity.
Qed.

Lemma join_cons sep x y r :
  Py.join sep (x :: y :: r) = x +:+ sep +:+ Py.join sep (y :: r).
Proof. reflexivity. Qed.

Lemma join_split sep s : Py.join (String sep EmptyString) (Py.split sep s) = s.
Proof.
  induction s as [|a r IH]; [reflexivity|].
  rewrite split_cons. destruct (Ascii.eqb a sep) eqn:E.
  - apply Ascii.eqb_eq in E. subst a.
    destruct (Py.split sep r) as [|hd tl] eqn:Hs; [destruct (split_nonempty _ _ Hs)|].
    rewrite join_cons, IH. reflexivity.
  - destruct (Py.split sep r) as [|hd tl] eqn:Hs; [destruct (split_nonempty _ _ Hs)|].
    destruct tl as [|y tl].
    + simpl in *. rewrite IH. reflexivity.
    + rewrite join_cons in *. simpl. rewrite <- IH. reflexivity.
Qed.

Lemma split_no_sep sep s : Forall (fun p => has_char sep p = false) (Py.split sep s).
Proof.
  induction s as [|a r IH]; [repeat constructor|].
  rewrite split_cons. destruct (Ascii.eqb a sep) eqn:E.
  - constructor; [reflexivity|exact IH].
  - destruct (Py.split sep r) as [|hd tl]; [repeat constructor; simpl; rewrite E; reflexivity|].
    inversion IH; subst. constructor; [simpl; rewrite E; assumption|assumption].
Qed.

Lemma split_no_char c sep s :
  has_char c s = false -> Forall (fun p => has_char c p = false) (Py.split sep s).
Proof.
  induction s as [|a r IH]; [repeat constructor|].
  simpl has_char. intros H. apply orb_false_iff in H as [Ha Hr]. specialize (IH Hr).
  rewrite split_cons. destruct (Ascii.eqb a sep).
  - constructor; [reflexivity|exact IH].
  - destruct (Py.split sep r) as [|hd tl]; [repeat constructor; simpl; rewrite Ha; reflexivity|].
    inversion IH; subst. constructor; [simpl; rewrite Ha; assumption|assumption].
Qed.

Lemma split_plain sep s : has_char sep s = false -> Py.split sep s = [s].
Proof.
  induction s as [|a r IH]; [reflexivity|].
  simpl has_char. intros H. apply orb_false_iff in H as [Ha Hr].
  rewrite split_cons, Ha, (IH Hr). reflexivity.
Qed.

Lemma split_app sep a b :
  has_char sep a = false ->
  Py.split sep (a +:+ String sep b) = a :: Py.split sep b.
Proof.
  induction a as [|x a IH]; intros H.
  - change (EmptyString +:+ String sep b) with (String sep b).
    rewrite split_cons, Ascii.eqb_refl. reflexivity.
  - simpl has_char in H. apply orb_false_iff in H as [Hx Ha].
    change (String x a +:+ String sep b) with (String x (a +:+ String sep b)).
    rewrite split_cons, Hx, (IH Ha). reflexivity.
Qed.

Lemma split_join sep parts :
  parts <> [] -> Forall (fun p => has_char sep p = false) parts ->
  Py.split sep (Py.join (String sep EmptyString) parts) = parts.
Proof.
  induction parts as [|x parts IH]; [congruence|]. intros _ Hall.
  inversion Hall as [|? ? Hx Hrest]; subst.
  destruct parts as [|y parts]; [apply split_plain; assumption|].
  rewrite join_cons.
  change (x +:+ String sep "" +:+ Py.join (String sep "") (y :: parts))
    with (x +:+ (String sep (Py.join (String sep "") (y :: parts)))).
  rewrite split_app by assumption. f_equal. apply IH; [discriminate|assumption].
Qed.

Lemma has_char_app c a b : has_char c (a +:+ b) = has_char c a || has_char c b.
Proof. induction a as [|x a IH]; [reflexivity|]. simpl. rewrite IH, orb_assoc. reflexivity. Qed.

Lemma has_char_replace old new s :
  old <> new -> has_char old (Py.replace_char old new s) = false.
Proof.
  intros Hne. induction s as [|a r IH]; [reflexivity|]. simpl.
  rewrite IH, orb_false_r. destruct (Ascii.eqb a old) eqn:E.
  - apply Ascii.eqb_neq. congruence.
  - exact E.
Qed.

Lemma replace_absent old new s :
  has_char old s = false -> Py.replace_char old new s = s.
Proof.
  induction s as [|a r IH]; [reflexivity|]. simpl. intros H.
  apply orb_false_iff in H as [Ha Hr]. rewrite Ha, (IH Hr). reflexivity.
Qed.

Lemma startswith_nil s : Py.startswith s EmptyString = true.
Proof. destruct s; reflexivity. Qed.

Lemma startswith_cons a s c p :
  Py.startswith (String a s) (String c p) = Ascii.eqb a c && Py.startswith s p.
Proof.
  unfold Py.startswith. cbn [String.prefix].
  destruct (Ascii.ascii_dec c a) as [->|Hn].
  - rewrite Ascii.eqb_refl. reflexivity.
  - replace (Ascii.eqb a c) with false; [reflexivity|].
    symmetry. apply Ascii.eqb_neq. congruence.
Qed.

Lemma startswith_empty p a : Py.startswith EmptyString (String a p) = false.
Proof. reflexivity. Qed.

Lemma append_assoc a b c : (a +:+ b) +:+ c = a +:+ b +:+ c.
Proof.
  induction a as [|x a IH]; [reflexivity|].
  change ((String x a +:+ b) +:+ c) with (String x ((a +:+ b) +:+ c)).
  rewrite IH. reflexivity.
Qed.

(** ** [_remote_norm] *)

(** A segment of a normalized remote path. *)
Definition clean (c : string) : Prop :=
  c <> "" /\ c <> "." /\ c <> ".." /\ has_char "/" c = false
  /\ has_char Remote.backslash c = false.

Definition slashes (k : nat) : string := Py.join "" (repeat "/" k).

(** The loop body of [normpath]. *)
Definition normpath_step (initial_slashes : nat) (new_comps : list string) (comp : string)
    : list string :=
  if String.eqb comp EmptyString || String.eqb comp "." then new_comps
  else if negb (String.eqb comp "..")
          || (Nat.eqb initial_slashes 0 && Nat.eqb (length new_comps) 0)
          || String.eqb (List.last new_comps EmptyString) ".."
       then new_comps ++ [comp]
       else removelast new_comps.

Lemma last_clean acc : Forall clean acc -> String.eqb (List.last acc EmptyString) ".." = false.
Proof.
  intros H. apply String.eqb_neq. induction H as [|c acc Hc Hacc IH]; [discriminate|].
  destruct acc as [|d acc]; [simpl; apply Hc|exact IH].
Qed.

Lemma Forall_removelast {A} (P : A -> Prop) l : Forall P l -> Forall P (removelast l).
Proof.
  induction 1 as [|x l Hx Hl IH]; [constructor|]. simpl.
  destruct l; [constructor|]. constructor; assumption.
Qed.

Lemma normpath_fold_clean k comps : forall acc,
  k <> 0 ->
  Forall (fun c => has_char "/" c = false /\ has_char Remote.backslash c = false) comps ->
  Forall clean acc ->
  Forall clean (fold_left (normpath_step k) comps acc).
Proof.
  induction comps as [|c comps IH]; intros acc Hk Hall Hacc; [exact Hacc|].
  inversion Hall as [|? ? [Hs Hb] Hrest]; subst. simpl. apply IH; auto.
  unfold normpath_step.
  destruct (String.eqb c "") eqn:E1; [exact Hacc|].
  destruct (String.eqb c ".") eqn:E2; [exact Hacc|]. simpl.
  rewrite (last_clean acc Hacc), orb_false_r.
  destruct k; [congruence|]. simpl. rewrite orb_false_r.
  destruct (String.eqb c "..") eqn:E3; simpl.
  - apply Forall_removelast. exact Hacc.
  - apply Forall_app. split; [exact Hacc|]. constructor; [|constructor].
    apply String.eqb_neq in E1, E2, E3. repeat split; assumption.
Qed.

Lemma normpath_fold_id k comps : forall acc,
  Forall clean comps -> fold_left (normpath_step k) comps acc = acc ++ comps.
Proof.
  induction comps as [|c comps IH]; intros acc Hall; [rewrite app_nil_r; reflexivity|].
  inversion Hall as [|? ? (H1 & H2 & H3 & _) Hrest]; subst. simpl.
  rewrite IH by assumption. unfold normpath_step.
  apply String.eqb_neq in H1, H2, H3. rewrite H1, H2, H3. simpl.
  rewrite <- app_assoc. reflexivity.
Qed.

Lemma normpath_unfold path :
  path <> EmptyString ->
  posixpath.normpath path =
  let k := if Py.startswith path "/" then
             if Py.startswith path "//" && negb (Py.startswith path "///") then 2 else 1
           else 0 in
  let p := slashes k +:+ Py.join "/" (fold_left (normpath_step k) (Py.split "/" path) []) in
  if String.eqb p EmptyString then "." else p.
Proof.
  intros Hne. unfold posixpath.normpath.
  destruct (String.eqb path "") eqn:E; [apply String.eqb_eq in E; congruence|].
  reflexivity.
Qed.

Lemma has_char_join c parts :
  Forall (fun p => has_char c p = false) parts -> c <> "/"%char ->
  has_char c (Py.join "/" parts) = false.
Proof.
  intros Hall Hc. induction Hall as [|x parts Hx Hall IH]; [reflexivity|].
  destruct parts as [|y parts]; [exact Hx|].
  rewrite join_cons, !has_char_app, Hx, IH.
  change (has_char c "/") with (Ascii.eqb "/" c || false).
  replace (Ascii.eqb "/" c) with false by (symmetry; apply Ascii.eqb_neq; congruence).
  reflexivity.
Qed.

(** The normal form of an absolute path: one or two slashes, then clean
    segments separated by single slashes. *)
Lemma normpath_absolute path :
  Py.startswith path "/" = true -> has_char Remote.backslash path = false ->
  exists k comps,
    (k = 1 \/ k = 2) /\ Forall clean comps
    /\ posixpath.normpath path = slashes k +:+ Py.join "/" comps.
Proof.
  intros Hstart Hback.
  assert (Hne : path <> EmptyString) by (intros ->; discriminate).
  rewrite (normpath_unfold path Hne), Hstart. cbv zeta.
  set (k := if Py.startswith path "//" && negb (Py.startswith path "///") then 2 else 1).
  assert (Hk : k = 1 \/ k = 2) by (subst k; destruct (_ && _); auto).
  exists k, (fold_left (normpath_step k) (Py.split "/" path) []).
  split; [exact Hk|]. split.
  - apply normpath_fold_clean; [lia| |constructor].
    pose proof (split_no_sep "/" path) as H1.
    pose proof (split_no_char Remote.backslash "/" path Hback) as H2.
    rewrite List.Forall_forall in *. intros c Hc. split; auto.
  - destruct Hk as [-> | ->]; reflexivity.
Qed.

Lemma join_clean_head comps :
  Forall clean comps -> Py.startswith (Py.join "/" comps) "/" = false.
Proof.
  intros H. destruct H as [|c comps (Hne & _ & _ & Hs & _) _]; [reflexivity|].
  assert (Hc : Py.startswith c "/" = false).
  { destruct c as [|a c]; [congruence|]. simpl in Hs.
    apply orb_false_iff in Hs as [Ha _]. rewrite startswith_cons, Ha. reflexivity. }
  destruct comps as [|d comps]; [exact Hc|]. rewrite join_cons.
  destruct c as [|a c]; [congruence|].
  change (String a c +:+ "/" +:+ Py.join "/" (d :: comps))
    with (String a (c +:+ "/" +:+ Py.join "/" (d :: comps))).
  rewrite startswith_cons in *. apply andb_false_iff in Hc as [->|Hc]; [reflexivity|].
  rewrite startswith_nil in Hc. discriminate.
Qed.
Lemma slashes_cases k : k = 1 \/ k = 2 -> slashes k = "/" \/ slashes k = "//".
Proof. intros [-> | ->]; [left|right]; reflexivity. Qed.

Lemma startswith_slashes k s :
  k = 1 \/ k = 2 -> Py.startswith (slashes k +:+ s) "/" = true.
Proof.
  intros [-> | ->].
  - change (slashes 1 +:+ s) with (String "/" s). rewrite startswith_cons, startswith_nil.
    reflexivity.
  - change (slashes 2 +:+ s) with (String "/" (String "/" s)).
    rewrite startswith_cons, startswith_nil. reflexivity.
Qed.

Lemma remote_norm_form path :
  exists k comps,
    (k = 1 \/ k = 2) /\ Forall clean comps
    /\ Remote._remote_norm path = slashes k +:+ Py.join "/" comps.
Proof.
  unfold Remote._remote_norm.
  set (p := Py.replace_char Remote.backslash "/" path).
  assert (Hp : has_char Remote.backslash p = false)
    by (apply has_char_replace; discriminate).
  set (p' := if Py.startswith p "/" then p else "/" +:+ p).
  assert (Hp' : Py.startswith p' "/" = true /\ has_char Remote.backslash p' = false).
  { subst p'. destruct (Py.startswith p "/") eqn:E; [auto|]. split.
    - change ("/" +:+ p) with (String "/" p). rewrite startswith_cons, startswith_nil.
      reflexivity.
    - change ("/" +:+ p) with (String "/" p). cbn [has_char]. rewrite Hp. reflexivity. }
  destruct Hp' as [Hs Hb].
  destruct (normpath_absolute p' Hs Hb) as (k & comps & Hk & Hc & ->).
  exists k, comps. split; [exact Hk|]. split; [exact Hc|].
  destruct Hk as [-> | ->]; reflexivity.
Qed.

Lemma split_form k comps :
  (k = 1 \/ k = 2) -> Forall clean comps ->
  Py.split "/" (slashes k +:+ Py.join "/" comps) =
  repeat EmptyString k ++ (match comps with [] => [EmptyString] | _ => comps end).
Proof.
  intros Hk Hc.
  assert (Hj : Py.split "/" (Py.join "/" comps) =
               match comps with [] => [EmptyString] | _ => comps end).
  { destruct comps as [|c comps]; [reflexivity|]. apply split_join; [discriminate|].
    rewrite List.Forall_forall in *. intros x Hx. apply (Hc x Hx). }
  destruct Hk as [-> | ->].
  - change (slashes 1 +:+ Py.join "/" comps) with (String "/" (Py.join "/" comps)).
    rewrite split_cons, Hj. reflexivity.
  - change (slashes 2 +:+ Py.join "/" comps) with (String "/" (String "/" (Py.join "/" comps))).
    rewrite !split_cons, Hj. reflexivity.
Qed.

Lemma has_backslash_form k comps :
  (k = 1 \/ k = 2) -> Forall clean comps ->
  has_char Remote.backslash (slashes k +:+ Py.join "/" comps) = false.
Proof.
  intros Hk Hc. rewrite has_char_app, has_char_join; [| |discriminate].
  - destruct Hk as [-> | ->]; reflexivity.
  - rewrite List.Forall_forall in *. intros x Hx. apply (Hc x Hx).
Qed.

Lemma remote_norm_on_form k comps :
  (k = 1 \/ k = 2) -> Forall clean comps ->
  Remote._remote_norm (slashes k +:+ Py.join "/" comps) = slashes k +:+ Py.join "/" comps.
Proof.
  intros Hk Hc. unfold Remote._remote_norm.
  rewrite (replace_absent _ _ _ (has_backslash_form k comps Hk Hc)).
  set (p := slashes k +:+ Py.join "/" comps).
  assert (Hstart : Py.startswith p "/" = true).
  { subst p. apply startswith_slashes. exact Hk. }
  rewrite Hstart.
  assert (Hne : p <> EmptyString) by (intros E; rewrite E in Hstart; discriminate).
  rewrite (normpath_unfold p Hne), Hstart. cbv zeta.
  assert (Hk' : (if Py.startswith p "//" && negb (Py.startswith p "///") then 2 else 1) = k).
  { pose proof (join_clean_head comps Hc) as Hh. subst p. destruct Hk as [-> | ->].
    - change (slashes 1 +:+ Py.join "/" comps) with (String "/" (Py.join "/" comps)).
      rewrite !startswith_cons, Hh. reflexivity.
    - change (slashes 2 +:+ Py.join "/" comps)
        with (String "/" (String "/" (Py.join "/" comps))).
      rewrite !startswith_cons, Hh, startswith_nil. reflexivity. }
  rewrite Hk'. subst p. rewrite (split_form k comps Hk Hc).
  assert (Hfold : fold_left (normpath_step k)
                    (repeat "" k ++ match comps with [] => [""] | _ => comps end) []
                  = comps).
  { rewrite fold_left_app.
    assert (Hrep : fold_left (normpath_step k) (repeat "" k) [] = [])
      by (destruct Hk as [-> | ->]; reflexivity).
    rewrite Hrep. destruct comps as [|c comps]; [reflexivity|].
    apply (normpath_fold_id k (c :: comps) [] Hc). }
  rewrite Hfold.
  destruct Hk as [-> | ->]; reflexivity.
Qed.

(** X4. [_remote_norm] returns an absolute path in which no backslash is
    left and no segment is [.] or [..], and normalizing such a path again
    changes nothing. *)
Theorem remote_norm_is_canonical path :
  let p := Remote._remote_norm path in
  Py.startswith p "/" = true
  /\ has_char Remote.backslash p = false
  /\ (forall c, In c (Py.split "/" p) -> c <> "." /\ c <> "..")
  /\ Remote._remote_norm p = p.
Proof.
  cbv zeta. destruct (remote_norm_form path) as (k & comps & Hk & Hc & ->).
  split; [apply startswith_slashes; exact Hk|].
  split; [apply has_backslash_form; assumption|].
  split; [|apply remote_norm_on_form; assumption].
  intros c Hin. rewrite (split_form k comps Hk Hc) in Hin.
  apply in_app_iff in Hin as [Hin|Hin].
  - apply repeat_spec in Hin. subst c. split; discriminate.
  - destruct comps as [|c0 comps].
    + destruct Hin as [<-|[]]. split; discriminate.
    + rewrite List.Forall_forall in Hc. destruct (Hc c Hin) as (_ & H1 & H2 & _). auto.
Qed.
(** ** [_mkdirs] *)

Lemma rstrip_plain c :
  has_char "/" c = false -> Py.rstrip (Py.is_char "/") c = c.
Proof.
  induction c as [|a r IH]; [reflexivity|]. cbn [has_char]. intros H.
  apply orb_false_iff in H as [Ha Hr]. cbn [Py.rstrip]. rewrite (IH Hr).
  destruct r; [|reflexivity]. unfold Py.is_char. rewrite Ha. reflexivity.
Qed.

Lemma rstrip_app p a c :
  c <> EmptyString -> Py.rstrip p c = c -> Py.rstrip p (a +:+ c) = a +:+ c.
Proof.
  intros Hne Hc. induction a as [|x a IH]; [exact Hc|].
  change (String x a +:+ c) with (String x (a +:+ c)). cbn [Py.rstrip]. rewrite IH.
  destruct (a +:+ c) eqn:E; [|reflexivity].
  destruct a; [change (c = EmptyString) in E; congruence|discriminate].
Qed.

Lemma join_clean_nonempty c comps : c <> EmptyString -> Py.join "/" (c :: comps) <> EmptyString.
Proof.
  intros Hc. destruct comps; [exact Hc|]. rewrite join_cons.
  destruct c; [congruence|discriminate].
Qed.

Lemma rstrip_join comps :
  Forall clean comps -> Py.rstrip (Py.is_char "/") (Py.join "/" comps) = Py.join "/" comps.
Proof.
  induction 1 as [|c comps (Hne & _ & _ & Hs & _) Hrest IH]; [reflexivity|].
  destruct comps as [|d comps]; [apply rstrip_plain; exact Hs|].
  rewrite join_cons. apply rstrip_app.
  - discriminate.
  - apply (rstrip_app _ "/"); [|exact IH].
    inversion Hrest as [|? ? (Hd & _) _]; subst. apply join_clean_nonempty. exact Hd.
Qed.

Lemma lstrip_unslashed s :
  Py.startswith s "/" = false -> Py.lstrip (Py.is_char "/") s = s.
Proof.
  destruct s as [|a s]; [reflexivity|]. rewrite startswith_cons, startswith_nil, andb_true_r.
  intros Ha. cbn [Py.lstrip]. unfold Py.is_char. rewrite Ha. reflexivity.
Qed.

Lemma lstrip_form k comps :
  (k = 1 \/ k = 2) -> Forall clean comps ->
  Py.lstrip (Py.is_char "/") (slashes k +:+ Py.join "/" comps) = Py.join "/" comps.
Proof.
  intros Hk Hc. pose proof (lstrip_unslashed _ (join_clean_head comps Hc)) as Hl.
  destruct Hk as [-> | ->].
  - change (slashes 1 +:+ Py.join "/" comps) with (String "/" (Py.join "/" comps)).
    cbn [Py.lstrip]. exact Hl.
  - change (slashes 2 +:+ Py.join "/" comps)
      with (String "/" (String "/" (Py.join "/" comps))).
    cbn [Py.lstrip]. exact Hl.
Qed.

Lemma endswith_app a c ch :
  c <> EmptyString -> Py.endswith_char (a +:+ c) ch = Py.endswith_char c ch.
Proof.
  intros Hne. induction a as [|x a IH]; [reflexivity|].
  change (String x a +:+ c) with (String x (a +:+ c)). cbn [Py.endswith_char].
  destruct (a +:+ c) eqn:E; [|exact IH].
  destruct a; [change (c = EmptyString) in E; congruence|discriminate].
Qed.

Lemma endswith_plain c ch : has_char ch c = false -> Py.endswith_char c ch = false.
Proof.
  induction c as [|a r IH]; [reflexivity|]. cbn [has_char]. intros H.
  apply orb_false_iff in H as [Ha Hr]. cbn [Py.endswith_char].
  destruct r; [exact Ha|exact (IH Hr)].
Qed.

Lemma join_snoc done c :
  done <> [] -> Py.join "/" (done ++ [c]) = Py.join "/" done +:+ "/" +:+ c.
Proof.
  induction done as [|x done IH]; [congruence|]. intros _.
  destruct done as [|y done]; [reflexivity|].
  change ((x :: y :: done) ++ [c]) with (x :: (y :: done) ++ [c]).
  change ((y :: done) ++ [c]) with (y :: done ++ [c]) at 1.
  rewrite join_cons. change (y :: done ++ [c]) with ((y :: done) ++ [c]).
  rewrite IH by discriminate. rewrite join_cons.
  rewrite !append_assoc. reflexivity.
Qed.

Lemma endswith_join done :
  done <> [] -> Forall clean done ->
  Py.endswith_char ("/" +:+ Py.join "/" done) "/" = false.
Proof.
  intros Hne Hc. destruct (exists_last Hne) as (front & c & ->).
  apply Forall_app in Hc as [Hf Hl]. inversion Hl as [|? ? (Hc1 & _ & _ & Hs & _) _]; subst.
  destruct front as [|f front].
  - simpl app. change (Py.join "/" [c]) with c. rewrite endswith_app by exact Hc1.
    apply endswith_plain. exact Hs.
  - rewrite join_snoc by discriminate.
    rewrite <- !append_assoc. rewrite endswith_app by exact Hc1.
    apply endswith_plain. exact Hs.
Qed.

(** What [_mkdirs] asks about one directory: [stat], and [mkdir] when
    [stat] raised. *)
Definition probe (r : Remote.responses) (cur : string) : list Remote.sftp_call :=
  match Remote.sftp_stat r cur with
  | Some _ => [Remote.Stat cur]
  | None => [Remote.Stat cur; Remote.Mkdir cur]
  end.

Lemma mkdirs_loop_below r rest : forall done,
  done <> [] -> Forall clean done -> Forall clean rest ->
  Remote.mkdirs_loop r rest ("/" +:+ Py.join "/" done) =
  flat_map (probe r)
    (List.map (fun i => "/" +:+ Py.join "/" (done ++ firstn i rest)) (seq 1 (length rest))).
Proof.
  induction rest as [|c rest IH]; intros done Hne Hd Hr; [reflexivity|].
  inversion Hr as [|? ? Hc Hrest]; subst.
  destruct Hc as (Hc1 & Hc2 & Hc3 & Hc4 & Hc5).
  cbn [Remote.mkdirs_loop].
  assert (E1 : String.eqb c EmptyString = false) by (apply String.eqb_neq; exact Hc1).
  rewrite E1.
  assert (E2 : String.eqb ("/" +:+ Py.join "/" done) "/" = false).
  { apply String.eqb_neq. destruct done as [|d done]; [congruence|].
    inversion Hd as [|? ? (Hd1 & _) _]; subst.
    pose proof (join_clean_nonempty d done Hd1) as Hj.
    destruct (Py.join "/" (d :: done)); [congruence|discriminate]. }
  rewrite E2.
  assert (E3 : posixpath.join ("/" +:+ Py.join "/" done) c
               = "/" +:+ Py.join "/" (done ++ [c])).
  { unfold posixpath.join, posixpath.slash.
    assert (Hs : Py.startswith c "/" = false).
    { destruct c as [|a c]; [congruence|]. cbn [has_char] in Hc4.
      apply orb_false_iff in Hc4 as [Ha _]. rewrite startswith_cons, Ha. reflexivity. }
    rewrite Hs, (endswith_join done Hne Hd). cbn [String.eqb orb].
    rewrite join_snoc by exact Hne. rewrite !append_assoc. reflexivity. }
  rewrite E3.
  change (seq 1 (length (c :: rest))) with (1 :: seq 2 (length rest)).
  cbn [List.map flat_map firstn]. fold (probe r ("/" +:+ Py.join "/" (done ++ [c]))).
  f_equal. rewrite IH; [| |apply Forall_app; split; [exact Hd|repeat constructor; auto]|exact Hrest].
  - rewrite <- (seq_shift (length rest) 1), List.map_map. f_equal. apply List.map_ext. intros i.
    cbn [firstn]. rewrite <- app_assoc. reflexivity.
  - destruct done; discriminate.
Qed.

Lemma mkdirs_loop_top r comps :
  Forall clean comps ->
  Remote.mkdirs_loop r comps "/" =
  flat_map (probe r)
    (List.map (fun i => "/" +:+ Py.join "/" (firstn i comps)) (seq 1 (length comps))).
Proof.
  intros Hc. destruct comps as [|c rest]; [reflexivity|].
  inversion Hc as [|? ? Hc0 Hrest]; subst.
  cbn [Remote.mkdirs_loop].
  assert (E1 : String.eqb c EmptyString = false) by (apply String.eqb_neq; apply Hc0).
  rewrite E1. cbn [String.eqb Ascii.eqb Bool.eqb].
  change (seq 1 (length (c :: rest))) with (1 :: seq 2 (length rest)).
  cbn [List.map flat_map firstn]. change (Py.join "/" [c]) with c.
  fold (probe r ("/" +:+ c)). f_equal.
  change (Remote.mkdirs_loop r rest ("/" +:+ c))
    with (Remote.mkdirs_loop r rest ("/" +:+ Py.join "/" [c])).
  rewrite (mkdirs_loop_below r rest [c]);
    [|discriminate|constructor; [exact Hc0|constructor]|exact Hrest].
  rewrite <- (seq_shift (length rest) 1), List.map_map. reflexivity.
Qed.

(** The segments of a path: what stands between its slashes, empty strings
    left out. *)
Definition segments (p : string) : list string :=
  List.filter (fun c => negb (String.eqb c EmptyString)) (Py.split "/" p).

Lemma filter_clean comps :
  Forall clean comps ->
  List.filter (fun c => negb (String.eqb c EmptyString)) comps = comps.
Proof.
  induction 1 as [|c comps (Hne & _) _ IH]; [reflexivity|]. simpl.
  apply String.eqb_neq in Hne. rewrite Hne, IH. reflexivity.
Qed.

Lemma segments_form k comps :
  (k = 1 \/ k = 2) -> Forall clean comps ->
  segments (slashes k +:+ Py.join "/" comps) = comps.
Proof.
  intros Hk Hc. unfold segments. rewrite (split_form k comps Hk Hc), List.filter_app.
  assert (Hrep : List.filter (fun c => negb (String.eqb c "")) (repeat "" k) = [])
    by (destruct Hk as [-> | ->]; reflexivity).
  rewrite Hrep. destruct comps as [|c comps]; [reflexivity|].
  apply (filter_clean (c :: comps) Hc).
Qed.

(** X5. [_mkdirs] asks about every ancestor of the normalized directory,
    from the top down and the directory itself last: one [stat] each, and
    one [mkdir] exactly where the [stat] raised.  For the root it asks
    nothing. *)
Theorem mkdirs_probes_each_ancestor r remote_dir :
  let comps := segments (Remote._remote_norm remote_dir) in
  Remote._mkdirs r remote_dir =
  flat_map (probe r)
    (List.map (fun i => "/" +:+ Py.join "/" (firstn i comps)) (seq 1 (length comps))).
Proof.
  cbv zeta. unfold Remote._mkdirs.
  destruct (remote_norm_form remote_dir) as (k & comps & Hk & Hc & ->).
  rewrite (segments_form k comps Hk Hc), (lstrip_form k comps Hk Hc), (rstrip_join comps Hc).
  destruct comps as [|c comps].
  - destruct Hk as [-> | ->]; reflexivity.
  - assert (E : String.eqb (slashes k +:+ Py.join "/" (c :: comps)) "/"
                || String.eqb (slashes k +:+ Py.join "/" (c :: comps)) "" = false).
    { inversion Hc as [|? ? (Hc1 & _) _]; subst.
      pose proof (join_clean_nonempty c comps Hc1) as Hj.
      destruct (Py.join "/" (c :: comps)) as [|a j] eqn:Ej; [congruence|].
      destruct Hk as [-> | ->]; [|reflexivity].
      change (slashes 1 +:+ String a j) with (String "/" (String a j)).
      cbn [String.eqb]. rewrite Ascii.eqb_refl. reflexivity. }
    rewrite E. rewrite split_join; [apply (mkdirs_loop_top r (c :: comps) Hc)|discriminate|].
    rewrite List.Forall_forall in *. intros x Hx. apply (Hc x Hx).
Qed.

(** ** Digests and uploads *)

Lemma hash_chunks_md5_chunks fuel : forall data h,
  hash_chunks fuel data h = Remote.md5_chunks 4096 fuel data h.
Proof.
  induction fuel as [|fuel IH]; intros data h; [reflexivity|].
  cbn [hash_chunks Remote.md5_chunks].
  destruct (firstn 4096 data); [reflexivity|]. apply IH.
Qed.

(** X6. The digest does not depend on how the file is read: for every
    positive chunk size [_calculate_md5] returns the MD5 hex digest of the
    whole content, and so does [_get_file_hash] with its reads of 4096
    bytes; both raise when the file cannot be read. *)
Theorem digests_agree r filepath chunk_size :
  0 < chunk_size ->
  Remote._calculate_md5 r filepath chunk_size
  = hashlib.md5_hex <$> Remote.read_bytes r filepath
  /\ _get_file_hash (Remote.read_bytes r) filepath
     = match Remote.read_bytes r filepath with
       | Some data => inr (hashlib.md5_hex data)
       | None => inl OSError
       end.
Proof.
  intros Hpos. unfold Remote._calculate_md5, _get_file_hash.
  destruct (Remote.read_bytes r filepath) as [data|]; [|split; reflexivity].
  cbn [fmap option_fmap option_map]. unfold hashlib.hexdigest.
  rewrite hash_chunks_md5_chunks.
  rewrite !md5_chunks_whole; [split; reflexivity| | | |]; lia.
Qed.

Lemma digests_agree_witness :
  Remote._calculate_md5 (stat_at 50) "/src/a.txt" 2
  = Some "900150983cd24fb0d6963f7d28e17f72"
  /\ _get_file_hash (Remote.read_bytes (stat_at 50)) "/src/a.txt"
     = inr "900150983cd24fb0d6963f7d28e17f72".
Proof.
  destruct (digests_agree (stat_at 50) "/src/a.txt" 2) as [H1 H2]; [lia|].
  rewrite H1, H2. vm_compute. split; reflexivity.
Defined.

Lemma mkdirs_loop_calls r parts : forall cur q,
  In q (Remote.mkdirs_loop r parts cur) ->
  exists p, q = Remote.Stat p \/ q = Remote.Mkdir p.
Proof.
  induction parts as [|part rest IH]; intros cur q; [intros []|].
  cbn [Remote.mkdirs_loop]. destruct (String.eqb part EmptyString); [apply IH|].
  rewrite in_app_iff. intros [Hin|Hin]; [|exact (IH _ _ Hin)].
  destruct (Remote.sftp_stat r _); simpl in Hin.
  - destruct Hin as [<-|[]]; eauto.
  - destruct Hin as [<-|[<-|[]]]; eauto.
Qed.

Lemma mkdirs_calls r dir q :
  In q (Remote._mkdirs r dir) -> exists p, q = Remote.Stat p \/ q = Remote.Mkdir p.
Proof.
  unfold Remote._mkdirs. destruct (_ || _); [intros []|]. apply mkdirs_loop_calls.
Qed.

(** X7. [_upload_file] reports success exactly when the [put] went through
    and, with [use_hash_check], the local file could be read once more for
    its digest: a file that was put but cannot be re-read counts as failed.
    It logs one error with the relative path on failure and nothing on
    success; the side-car is written only on success with
    [use_hash_check], and what is written is the MD5 hex digest of the
    content. *)
Theorem upload_succeeds_iff cfg r local_path remote_path remote_rel :
  let ok := fst (fst (Remote._upload_file cfg r local_path remote_path remote_rel)) in
  let calls := snd (fst (Remote._upload_file cfg r local_path remote_path remote_rel)) in
  let evs := snd (Remote._upload_file cfg r local_path remote_path remote_rel) in
  (ok = true <->
   Remote.sftp_put r local_path remote_path = true
   /\ (Remote.use_hash_check cfg = true -> Remote.read_bytes r local_path <> None))
  /\ evs = (if ok then [] else [Remote.Log (Remote.MsgUploadError remote_rel) Remote.error])
  /\ In (Remote.Put local_path remote_path) calls
  /\ (forall p h, In (Remote.OpenWrite p h) calls <->
        ok = true /\ Remote.use_hash_check cfg = true /\ p = remote_path +:+ ".hash"
        /\ exists data, Remote.read_bytes r local_path = Some data
                        /\ h = hashlib.md5_hex data).
Proof.
  cbv zeta. unfold Remote._upload_file.
  assert (Hdig := proj1 (digests_agree r local_path Remote.default_chunk_size
                           ltac:(unfold Remote.default_chunk_size; lia))).
  rewrite Hdig.
  assert (Hno : forall p h, ~ In (Remote.OpenWrite p h)
                  (Remote._mkdirs r (posixpath.dirname remote_path)
                   ++ [Remote.Put local_path remote_path])).
  { intros p h Hin. apply in_app_iff in Hin as [Hin|[Hin|[]]]; [|discriminate].
    apply mkdirs_calls in Hin as (q & [E|E]); discriminate. }
  assert (Hput : In (Remote.Put local_path remote_path)
                   (Remote._mkdirs r (posixpath.dirname remote_path)
                    ++ [Remote.Put local_path remote_path]))
    by (apply in_app_iff; right; left; reflexivity).
  destruct (Remote.sftp_put r local_path remote_path) eqn:Eput; cbn [negb].
  - destruct (Remote.use_hash_check cfg) eqn:Ehash.
    + destruct (Remote.read_bytes r local_path) as [data|] eqn:Eread;
        cbn [fmap option_fmap option_map fst snd].
      * split; [split; [intros _; split; [reflexivity|discriminate]|reflexivity]|].
        split; [reflexivity|]. split; [apply in_app_iff; left; exact Hput|].
        intros p h. rewrite in_app_iff. split.
        -- intros [Hin|[Hin|[]]]; [destruct (Hno p h Hin)|]. injection Hin as <- <-.
           repeat split; eauto.
        -- intros (_ & _ & -> & data' & Hd & ->). injection Hd as <-. right. left. reflexivity.
      * split; [split; [discriminate|intros [_ H]; destruct (H eq_refl eq_refl)]|].
        split; [reflexivity|]. split; [exact Hput|].
        intros p h. split; [intros Hin; destruct (Hno p h Hin)|intros (? & _); discriminate].
    + cbn [fst snd]. split; [split; [intros _; split; [reflexivity|discriminate]|reflexivity]|].
      split; [reflexivity|]. split; [exact Hput|].
      intros p h. split; [intros Hin; destruct (Hno p h Hin)|intros (_ & ? & _); discriminate].
  - cbn [fst snd]. split; [split; [discriminate|intros [? _]; discriminate]|].
    split; [reflexivity|]. split; [exact Hput|].
    intros p h. split; [intros Hin; destruct (Hno p h Hin)|intros (? & _); discriminate].
Qed.

(* ===================================================================== *)
(** * Further properties of the local manager *)
(* ===================================================================== *)

(** ** A run on a manager in any state *)

(** What [_collect_files] returns when [start_backup] is called on [m]. *)
Definition collected_by (cfg : config) (env : environment) (m : manager)
    : list file_info * manager :=
  _collect_files cfg env (prepared cfg env m).

(** The manager as [start_backup] hands it to the executor. *)
Definition handed_over (cfg : config) (env : environment) (m : manager) : manager :=
  let r := collected_by cfg env m in
  log cfg (MsgFound (length (fst r))) info
    (set_stats (with_total_files (length (fst r))) (snd r)).

Lemma start_backup_body_any cfg env m :
  start_backup_body cfg env m =
  match makedirs_root_fault env with
  | Some e => Raised e (prepared cfg env m)
  | None =>
      let r := collected_by cfg env m in
      if Nat.eqb (length (fst r)) 0 then
        Returned (log cfg MsgNoFiles warning
                    (set_stats (with_total_files (length (fst r))) (snd r)))
      else
        match (if compress cfg
               then _create_compressed_backup cfg env (fst r) (metadata_of cfg env)
                      (handed_over cfg env m)
               else _copy_files cfg env (fst r) (metadata_of cfg env)
                      (handed_over cfg env m)) with
        | Raised e m => Raised e m
        | Returned m =>
            match save_backup_info env (metadata_of cfg env) m with
            | Raised e m => Raised e m
            | Returned m => Returned (finished cfg env m)
            end
        end
  end.
Proof.
  unfold start_backup_body, handed_over, collected_by, finished.
  fold (prepared cfg env m).
  destruct (makedirs_root_fault env); [reflexivity|].
  destruct (_collect_files cfg env (prepared cfg env m)) as [all_files m1].
  reflexivity.
Qed.





(** ** What collection changes *)

(** From [(acc, m)] to [(acc', m')] items were appended and [total_size]
    grew by their sizes; the artefacts and the other statistics are those
    of [m]. *)
Definition collect_effect (acc : list file_info) (m : manager)
    (acc' : list file_info) (m' : manager) : Prop :=
  exists new,
    acc' = acc ++ new
    /\ total_size (m_stats m') = (total_size (m_stats m) + sumZ (List.map size new))%Z
    /\ total_files (m_stats m') = total_files (m_stats m)
    /\ start_time (m_stats m') = start_time (m_stats m)
    /\ end_time (m_stats m') = end_time (m_stats m)
    /\ backup_metadata m' = backup_metadata m
    /\ archive m' = archive m.

Lemma collect_effect_refl acc m : collect_effect acc m acc m.
Proof. exists []. rewrite app_nil_r. unfold sumZ. simpl. repeat split. lia. Qed.

Lemma sumZ_app l1 l2 : sumZ (l1 ++ l2) = (sumZ l1 + sumZ l2)%Z.
Proof. unfold sumZ. induction l1 as [|x l1 IH]; simpl; lia. Qed.

Lemma collect_effect_trans acc m acc1 m1 acc2 m2 :
  collect_effect acc m acc1 m1 -> collect_effect acc1 m1 acc2 m2 ->
  collect_effect acc m acc2 m2.
Proof.
  intros (n1 & -> & H1 & H2 & H3 & H4 & H5 & H6) (n2 & -> & G1 & G2 & G3 & G4 & G5 & G6).
  exists (n1 ++ n2). rewrite <- app_assoc, List.map_app, sumZ_app.
  repeat split; try congruence. lia.
Qed.

Lemma collect_effect_tick acc m : collect_effect acc m acc (tick_poll m).
Proof. exists []. rewrite app_nil_r. unfold sumZ. simpl. repeat split. lia. Qed.

Lemma collect_effect_log cfg msg lvl acc m : collect_effect acc m acc (log cfg msg lvl m).
Proof.
  exists []. rewrite app_nil_r. unfold sumZ, log. destruct (log_callback cfg); simpl;
    repeat split; lia.
Qed.

Lemma collect_effect_item acc m fi :
  collect_effect acc m (acc ++ [fi]) (set_stats (add_total_size (size fi)) m).
Proof. exists [fi]. unfold sumZ. simpl. repeat split. lia. Qed.

Create HintDb effect.

#[local] Hint Resolve collect_effect_refl collect_effect_tick collect_effect_log : effect.

Lemma collect_walk_files_effect cfg env sd e names : forall acc m,
  let r := collect_walk_files cfg env sd e names acc m in
  collect_effect acc m (fst (fst r)) (snd (fst r)).
Proof.
  induction names as [|name rest IH]; intros acc m; simpl; [auto with effect|].
  destruct (stop_flag env (polls m)); [simpl; auto with effect|].
  destruct (skip_hidden cfg && Py.startswith name ".").
  - eapply collect_effect_trans; [|apply IH]. auto with effect.
  - unfold getsize. simpl. destruct (fs m !! _) as [meta|]; simpl.
    + eapply collect_effect_trans; [|apply IH].
      eapply collect_effect_trans; [apply collect_effect_tick|].
      apply (collect_effect_item acc (tick_poll m)
               (directory_item sd e name (BackupManager.st_size meta))).
    + eapply collect_effect_trans; [|apply IH].
      eapply collect_effect_trans; [apply collect_effect_tick|apply collect_effect_log].
Qed.

Lemma collect_walk_effect cfg env sd entries : forall acc m,
  let r := collect_walk cfg env sd entries acc m in
  collect_effect acc m (fst (fst r)) (snd (fst r)).
Proof.
  induction entries as [|e rest IH]; intros acc m; simpl; [auto with effect|].
  pose proof (collect_walk_files_effect cfg env sd e (we_files e) acc m) as H.
  destruct (collect_walk_files cfg env sd e (we_files e) acc m) as [[acc1 m1] ret].
  simpl in H. destruct ret; simpl; [exact H|].
  eapply collect_effect_trans; [exact H|apply IH].
Qed.

Lemma collect_dirs_effect cfg env dirs : forall acc m,
  let r := collect_dirs cfg env dirs acc m in
  collect_effect acc m (fst (fst r)) (snd (fst r)).
Proof.
  induction dirs as [|d rest IH]; intros acc m; simpl; [auto with effect|].
  destruct (stop_flag env (polls m)); [simpl; auto with effect|].
  unfold path_exists. simpl. destruct (fs m !! d); simpl.
  - pose proof (collect_walk_effect cfg env d (walk cfg env d) acc (tick_poll m)) as H.
    destruct (collect_walk cfg env d (walk cfg env d) acc (tick_poll m)) as [[acc1 m1] ret].
    simpl in H. destruct ret; simpl.
    + eapply collect_effect_trans; [apply collect_effect_tick|exact H].
    + eapply collect_effect_trans; [|apply IH].
      eapply collect_effect_trans; [apply collect_effect_tick|exact H].
  - eapply collect_effect_trans; [|apply IH].
    eapply collect_effect_trans; [apply collect_effect_tick|apply collect_effect_log].
Qed.

Lemma collect_files_loop_effect cfg env paths : forall acc m,
  let r := collect_files_loop cfg env paths acc m in
  collect_effect acc m (fst r) (snd r).
Proof.
  induction paths as [|p rest IH]; intros acc m; simpl; [auto with effect|].
  destruct (stop_flag env (polls m)); [simpl; auto with effect|].
  unfold path_exists, getsize. simpl. destruct (fs m !! p) as [meta|]; simpl.
  - eapply collect_effect_trans; [|apply IH].
    eapply collect_effect_trans; [apply collect_effect_tick|].
    apply (collect_effect_item acc (tick_poll m) (file_item p (BackupManager.st_size meta))).
  - eapply collect_effect_trans; [|apply IH].
    eapply collect_effect_trans; [apply collect_effect_tick|apply collect_effect_log].
Qed.

Lemma _collect_files_effect cfg env m :
  let r := _collect_files cfg env m in collect_effect [] m (fst r) (snd r).
Proof.
  unfold _collect_files.
  pose proof (collect_dirs_effect cfg env (source_dirs cfg) [] m) as H.
  destruct (collect_dirs cfg env (source_dirs cfg) [] m) as [[acc1 m1] ret].
  simpl in H. destruct ret; simpl; [exact H|].
  eapply collect_effect_trans; [exact H|apply collect_files_loop_effect].
Qed.
(** ** Runs with nothing to copy, and runs on a used manager *)






Lemma last_event_log cfg msg lvl m :
  log_callback cfg = true -> events (log cfg msg lvl m) = events m ++ [Log msg lvl].
Proof. intros H. unfold log. rewrite H. reflexivity. Qed.

(** X9. A run that finds nothing to copy returns after the warning that
    there are no files: it has made the run directory, and it writes neither
    metadata nor log nor archive nor [last_backup.json]; [end_time] is not
    set and the counters of copied and skipped files keep their values. *)
Theorem empty_manifest_run cfg env m :
  makedirs_root_fault env = None ->
  fst (collected_by cfg env m) = [] ->
  exists m',
    start_backup cfg env m = Returned m'
    /\ backup_path m' = run_directory cfg env
    /\ total_files (m_stats m') = 0
    /\ files_copied (m_stats m') = files_copied (m_stats m)
    /\ files_skipped (m_stats m') = files_skipped (m_stats m)
    /\ total_size (m_stats m') = total_size (m_stats m)
    /\ start_time (m_stats m') = Some (clock_start env)
    /\ end_time (m_stats m') = end_time (m_stats m)
    /\ backup_metadata m' = backup_metadata m
    /\ backup_log m' = backup_log m
    /\ archive m' = archive m
    /\ last_backup m' = last_backup m
    /\ fs m' = fs m
    /\ (log_callback cfg = true ->
        exists evs, events m' = evs ++ [Log MsgNoFiles warning]).
Proof.
  intros Hroot Hempty. unfold start_backup. rewrite start_backup_body_any, Hroot.
  cbv zeta. rewrite Hempty. cbn [length Nat.eqb].
  eexists. split; [reflexivity|].
  pose proof (_collect_files_frame cfg env (prepared cfg env m))
    as (Fc & Fs & Fb & Ff & Fl & Fi & _).
  pose proof (_collect_files_effect cfg env (prepared cfg env m))
    as (new & Hnew & Hsz & Hn & Hst & Het & Hmd & Har).
  fold (collected_by cfg env m) in *. rewrite Hempty in Hnew.
  destruct new; [|discriminate]. unfold sumZ in Hsz. simpl in Hsz.
  rewrite log_backup_path, log_fs, log_stats.
  assert (Hlog : forall x, backup_metadata (log cfg MsgNoFiles warning x) = backup_metadata x
                 /\ backup_log (log cfg MsgNoFiles warning x) = backup_log x
                 /\ archive (log cfg MsgNoFiles warning x) = archive x
                 /\ last_backup (log cfg MsgNoFiles warning x) = last_backup x).
  { intros x. unfold log. destruct (log_callback cfg); auto. }
  destruct (Hlog (set_stats (with_total_files 0) (snd (collected_by cfg env m))))
    as (-> & -> & -> & ->).
  cbn [set_stats with_total_files backup_path m_stats total_files files_copied files_skipped
       total_size start_time end_time backup_metadata backup_log archive last_backup fs].
  rewrite Fc, Fs, Fb, Ff, Fl, Fi, Hsz, Hst, Het, Hmd, Har.
  assert (Hp : forall x f, files_copied (m_stats (log cfg f info x)) = files_copied (m_stats x))
    by (intros; rewrite log_stats; reflexivity).
  unfold prepared.
  cbn [set_backup_path backup_path m_stats backup_metadata backup_log archive last_backup fs].
  rewrite !log_stats, !log_fs.
  assert (Hq : forall x msg, backup_metadata (log cfg msg info x) = backup_metadata x
               /\ backup_log (log cfg msg info x) = backup_log x
               /\ archive (log cfg msg info x) = archive x
               /\ last_backup (log cfg msg info x) = last_backup x).
  { intros x msg. unfold log. destruct (log_callback cfg); auto. }
  repeat match goal with
  | |- context [backup_metadata (log cfg ?msg info ?x)] =>
      rewrite (proj1 (Hq x msg))
  | |- context [backup_log (log cfg ?msg info ?x)] =>
      rewrite (proj1 (proj2 (Hq x msg)))
  | |- context [archive (log cfg ?msg info ?x)] =>
      rewrite (proj1 (proj2 (proj2 (Hq x msg))))
  | |- context [last_backup (log cfg ?msg info ?x)] =>
      rewrite (proj2 (proj2 (proj2 (Hq x msg))))
  end.
  cbn. repeat split; try lia.
  intros Hcb. rewrite last_event_log by exact Hcb. eauto.
Qed.

Lemma empty_manifest_run_witness :
  exists m',
    start_backup (sample_cfg [] []) scenario_env (init scenario_fs) = Returned m'
    /\ total_files (m_stats m') = 0 /\ last_backup m' = None /\ backup_metadata m' = None.
Proof.
  destruct (empty_manifest_run (sample_cfg [] []) scenario_env (init scenario_fs))
    as (m' & Hrun & _ & Hn & _ & _ & _ & _ & _ & Hmd & _ & _ & Hl & _).
  - reflexivity.
  - reflexivity.
  - exists m'. repeat split; assumption.
Defined.





(** ** The archive *)









(** ** Two items with one destination *)

Lemma flat_targets_collide cfg bp fi fj :
  preserve_structure cfg = false ->
  posixpath.basename (source_path fi) = posixpath.basename (source_path fj) ->
  target_path_of cfg bp fi = target_path_of cfg bp fj
  /\ target_path_of cfg bp fi
     = inr (posixpath.join bp (posixpath.basename (source_path fi))).
Proof. intros Hp Hb. unfold target_path_of. rewrite Hp, Hb. auto. Qed.

(** X12. Without [preserve_structure] two items with the same base name
    have one destination, and the run keeps one of them: the first is
    copied; the second is skipped when [incremental] is on and it is not
    newer than the first, and overwrites the first otherwise.  Either way
    the destination holds one file for the two. *)
Theorem same_name_keeps_one_file cfg env total i cc m fi fj mi mj :
  preserve_structure cfg = false ->
  posixpath.basename (source_path fi) = posixpath.basename (source_path fj) ->
  let tp := posixpath.join (backup_path m) (posixpath.basename (source_path fi)) in
  stop_flag env (polls m) = false -> stop_flag env (S (polls m)) = false ->
  makedirs_fault env i = None -> makedirs_fault env (S i) = None ->
  copy_fault env i = None -> copy_fault env (S i) = None ->
  fs m !! source_path fi = Some mi -> fs m !! source_path fj = Some mj ->
  fs m !! tp = None ->
  Py.utf8_valid (source_path fi) = true -> Py.utf8_valid (source_path fj) = true ->
  Py.utf8_valid tp = true ->
  let m' := copy_loop cfg env total i [fi; fj] cc m in
  let second_skipped := incremental cfg && (st_mtime mj <=? st_mtime mi)%Z in
  fs m' = <[tp := if second_skipped then mi else mj]> (fs m)
  /\ files_copied (m_stats m')
     = files_copied (m_stats m) + (if second_skipped then 1 else 2)
  /\ files_skipped (m_stats m')
     = files_skipped (m_stats m) + (if second_skipped then 1 else 0).
Proof.
  intros Hp Hb tp Hs1 Hs2 Hd1 Hd2 Hc1 Hc2 Hi Hj Ht Hu1 Hu2 Hu3.
  destruct (flat_targets_collide cfg (backup_path m) fi fj Hp Hb) as [Hsame Htp].
  fold tp in Htp.
  assert (Hne : tp <> source_path fj) by (intros E; rewrite E in Ht; congruence).
  cbv zeta. cbn [copy_loop]. unfold poll. cbn [fst snd]. rewrite Hs1.
  (* the first item *)
  assert (E1 : exists m1 cc1,
             copy_item cfg env total i fi cc (tick_poll m) = (m1, cc1)
             /\ fs m1 = <[tp := mi]> (fs m) /\ polls m1 = S (polls m)
             /\ backup_path m1 = backup_path m
             /\ files_copied (m_stats m1) = S (files_copied (m_stats m))
             /\ files_skipped (m_stats m1) = files_skipped (m_stats m)).
  { unfold copy_item, copy_body. cbn [tick_poll backup_path]. rewrite Htp, Hd1.
    unfold _should_skip_file, path_exists. change (fs (tick_poll m)) with (fs m).
    rewrite Ht. cbn [negb].
    rewrite andb_false_r. unfold copy2. rewrite Hc1. change (fs (tick_poll m)) with (fs m).
    rewrite Hi.
    unfold log_write, line_encodable. rewrite Hu1, Hu3. cbn [andb].
    unfold log. do 2 eexists. split; [reflexivity|].
    destruct (progress_callback cfg), (Nat.eqb (S cc mod 10) 0), (log_callback cfg);
      cbn; auto 10. }
  destruct E1 as (m1 & cc1 & -> & F1 & P1 & B1 & C1 & S1).
  cbn [fst snd]. rewrite P1, Hs2.
  assert (Hsrc : fs m1 !! source_path fj = Some mj).
  { rewrite F1, lookup_insert_ne by exact Hne. exact Hj. }
  assert (Hdst : fs m1 !! tp = Some mi) by (rewrite F1; apply lookup_insert_eq).
  unfold copy_item, copy_body. cbn [tick_poll backup_path]. rewrite B1, <- Hsame, Htp, Hd2.
  unfold _should_skip_file, path_exists, getmtime.
  change (fs (tick_poll m1)) with (fs m1). rewrite Hdst, Hsrc.
  cbn [negb fmap option_fmap option_map].
  destruct (incremental cfg && (st_mtime mj <=? st_mtime mi)%Z) eqn:Hskip.
  - unfold log_write, line_encodable. rewrite Hu2.
    cbn [set_stats append_line fs m_stats incr_skipped files_copied files_skipped tick_poll].
    rewrite F1, C1, S1. repeat split; lia.
  - unfold copy2. rewrite Hc2. change (fs (tick_poll m1)) with (fs m1). rewrite Hsrc.
    unfold log_write, line_encodable. rewrite Hu2, Hu3. cbn [andb].
    unfold log.
    destruct (progress_callback cfg), (Nat.eqb (S cc1 mod 10) 0), (log_callback cfg);
      cbn; rewrite F1, C1, S1, insert_insert_eq; repeat split; lia.
Qed.

Definition flat_cfg : config :=
  {| source_dirs := []; source_files := ["/a/report"; "/b/report"]; target_dir := "/dst";
     incremental := true; skip_hidden := true; compress := false;
     preserve_structure := false; progress_callback := true; log_callback := true |}.

Definition flat_fs : gmap string file_meta :=
  <["/a/report" := meta 5 9]> (<["/b/report" := meta 7 8]> ∅).

Lemma same_name_keeps_one_file_witness :
  let m := set_backup_path "/dst/run" (init flat_fs) in
  let m' := copy_loop flat_cfg (sample_env "s" ∅) 2 0
              [file_item "/a/report" 5; file_item "/b/report" 7] 0 m in
  fs m' = <["/dst/run/report" := meta 5 9]> flat_fs
  /\ files_copied (m_stats m') = 1 /\ files_skipped (m_stats m') = 1.
Proof.
  cbv zeta.
  destruct (same_name_keeps_one_file flat_cfg (sample_env "s" ∅) 2 0 0
              (set_backup_path "/dst/run" (init flat_fs))
              (file_item "/a/report" 5) (file_item "/b/report" 7) (meta 5 9) (meta 7 8))
    as (Hfs & Hc & Hs); try reflexivity.
  split; [exact Hfs|]. split; [exact Hc|exact Hs].
Defined.

(** ** Hidden names below a source directory *)

(** A triple of [os.walk]: the names that lead to its directory are kept
    by the filter, and joined to the top they give its path. *)
Lemma walk_path keep : forall t root rel e,
  In e (os.walk keep root rel t) ->
  exists ds, we_rel e = rel ++ ds /\ Forall (fun d => keep d = true) ds
             /\ we_root e = fold_left posixpath.join ds root.
Proof.
  fix IH 1. intros [files subdirs] root rel e. simpl. intros [<-|Hin].
  - exists []. rewrite app_nil_r. split; [reflexivity|]. split; [constructor|reflexivity].
  - revert Hin. induction subdirs as [|[d t'] ds IHds]; simpl; [tauto|].
    rewrite in_app_iff. intros [Hin|Hin]; [|exact (IHds Hin)].
    destruct (keep d) eqn:Hk; [|destruct Hin].
    apply IH in Hin as (ds' & -> & Hall & Hroot). exists (d :: ds').
    rewrite <- app_assoc. split; [reflexivity|]. split; [constructor; assumption|].
    exact Hroot.
Qed.

(** An item found below a source directory: the file [name] of a triple
    of the walk of that directory, reached through directories and under a
    name none of which begins with a dot. *)
Definition walked_item (cfg : config) (env : environment) (fi : file_info) : Prop :=
  source_type fi = directory ->
  exists source_dir e name,
    In source_dir (source_dirs cfg)
    /\ In e (walk cfg env source_dir)
    /\ In name (we_files e)
    /\ source_root fi = Some source_dir
    /\ we_root e = fold_left posixpath.join (we_rel e) source_dir
    /\ source_path fi = posixpath.join (we_root e) name
    /\ relative_path fi = Py.join "/" (we_rel e ++ [name])
    /\ Forall (fun n => Py.startswith n "." = false) (we_rel e ++ [name]).

Lemma collect_walk_files_walked cfg env sd e names : forall acc m,
  skip_hidden cfg = true ->
  In sd (source_dirs cfg) -> In e (walk cfg env sd) -> incl names (we_files e) ->
  Forall (walked_item cfg env) acc ->
  Forall (walked_item cfg env) (fst (fst (collect_walk_files cfg env sd e names acc m))).
Proof.
  intros acc m Hskip Hsd He. revert acc m.
  induction names as [|name rest IH]; intros acc m Hincl Hacc; simpl; [exact Hacc|].
  assert (Hrest : incl rest (we_files e)) by (intros x Hx; apply Hincl; right; exact Hx).
  destruct (stop_flag env (polls m)); [exact Hacc|]. rewrite Hskip. cbn [andb].
  destruct (Py.startswith name ".") eqn:Hn; [apply IH; assumption|].
  destruct (getsize (tick_poll m) _); apply IH; try assumption.
  apply Forall_app. split; [exact Hacc|]. constructor; [|constructor].
  intros _. exists sd, e, name.
  split; [exact Hsd|]. split; [exact He|]. split; [apply Hincl; left; reflexivity|].
  split; [reflexivity|]. split.
  - unfold walk in He. destruct (listing env !! sd) as [t|]; [|destruct He].
    apply walk_path in He as (ds & Hrel & _ & Hroot). simpl in Hrel. rewrite Hrel. exact Hroot.
  - split; [reflexivity|]. split; [reflexivity|].
    apply Forall_app. split; [|constructor; [exact Hn|constructor]].
    apply List.Forall_forall. intros d Hd.
    exact (walk_visits_no_hidden_directory cfg env sd e d Hskip He Hd).
Qed.

Lemma collect_walk_walked cfg env sd entries : forall acc m,
  skip_hidden cfg = true ->
  In sd (source_dirs cfg) -> incl entries (walk cfg env sd) ->
  Forall (walked_item cfg env) acc ->
  Forall (walked_item cfg env) (fst (fst (collect_walk cfg env sd entries acc m))).
Proof.
  induction entries as [|e rest IH]; intros acc m Hskip Hsd Hincl Hacc; simpl; [exact Hacc|].
  assert (He : In e (walk cfg env sd)) by (apply Hincl; left; reflexivity).
  assert (Hrest : incl rest (walk cfg env sd)) by (intros x Hx; apply Hincl; right; exact Hx).
  pose proof (collect_walk_files_walked cfg env sd e (we_files e) acc m Hskip Hsd He
                (incl_refl _) Hacc) as H.
  destruct (collect_walk_files cfg env sd e (we_files e) acc m) as [[acc1 m1] ret].
  simpl in H. destruct ret; simpl; [exact H|]. apply IH; assumption.
Qed.

Lemma collect_dirs_walked cfg env dirs : forall acc m,
  skip_hidden cfg = true ->
  incl dirs (source_dirs cfg) ->
  Forall (walked_item cfg env) acc ->
  Forall (walked_item cfg env) (fst (fst (collect_dirs cfg env dirs acc m))).
Proof.
  induction dirs as [|d rest IH]; intros acc m Hskip Hincl Hacc; simpl; [exact Hacc|].
  assert (Hd : In d (source_dirs cfg)) by (apply Hincl; left; reflexivity).
  assert (Hrest : incl rest (source_dirs cfg)) by (intros x Hx; apply Hincl; right; exact Hx).
  destruct (stop_flag env (polls m)); [exact Hacc|].
  destruct (negb (path_exists (tick_poll m) d)); [apply IH; assumption|].
  pose proof (collect_walk_walked cfg env d (walk cfg env d) acc (tick_poll m) Hskip Hd
                (incl_refl _) Hacc) as H.
  destruct (collect_walk cfg env d (walk cfg env d) acc (tick_poll m)) as [[acc1 m1] ret].
  simpl in H. destruct ret; simpl; [exact H|]. apply IH; assumption.
Qed.

Lemma collect_files_loop_walked cfg env paths : forall acc m,
  Forall (walked_item cfg env) acc ->
  Forall (walked_item cfg env) (fst (collect_files_loop cfg env paths acc m)).
Proof.
  induction paths as [|p rest IH]; intros acc m Hacc; simpl; [exact Hacc|].
  destruct (stop_flag env (polls m)); [exact Hacc|].
  destruct (negb (path_exists (tick_poll m) p)); [apply IH; assumption|].
  destruct (getsize (tick_poll m) p); apply IH; [|exact Hacc].
  apply Forall_app. split; [exact Hacc|]. constructor; [|constructor].
  intros Hk. discriminate.
Qed.

(** X13. Under [skip_hidden], every item that the local [_collect_files]
    finds below a source directory is a file [name] listed in a directory
    that the walk of a source directory reaches through the directories
    [d1 ... dk]: its path is [source_dir/d1/.../dk/name], its relative path
    the join [d1/.../dk/name], and none of [d1 ... dk] and [name] begins
    with a dot.  When these names hold no slash, they are the segments of
    the relative path, so that no segment of it begins with a dot.  (The
    items named in [source_files] are not filtered.) *)
Theorem directory_items_are_visible cfg env m fi :
  skip_hidden cfg = true ->
  In fi (fst (_collect_files cfg env m)) ->
  source_type fi = directory ->
  exists source_dir e name,
    In source_dir (source_dirs cfg)
    /\ In e (walk cfg env source_dir)
    /\ In name (we_files e)
    /\ source_root fi = Some source_dir
    /\ we_root e = fold_left posixpath.join (we_rel e) source_dir
    /\ source_path fi = posixpath.join (we_root e) name
    /\ relative_path fi = Py.join "/" (we_rel e ++ [name])
    /\ Forall (fun n => Py.startswith n "." = false) (we_rel e ++ [name])
    /\ (Forall (fun n => has_char "/" n = false) (we_rel e ++ [name]) ->
        Py.split "/" (relative_path fi) = we_rel e ++ [name]
        /\ Forall (fun seg => Py.startswith seg "." = false)
             (Py.split "/" (relative_path fi))).
Proof.
  intros Hskip Hin Hdir.
  assert (H : Forall (walked_item cfg env) (fst (_collect_files cfg env m))).
  { unfold _collect_files.
    pose proof (collect_dirs_walked cfg env (source_dirs cfg) [] m Hskip (incl_refl _)
                  (List.Forall_nil _)) as H.
    destruct (collect_dirs cfg env (source_dirs cfg) [] m) as [[acc1 m1] ret].
    simpl in H. destruct ret; simpl; [exact H|].
    apply collect_files_loop_walked. exact H. }
  rewrite List.Forall_forall in H.
  destruct (H fi Hin Hdir) as (sd & e & name & Hsd & He & Hn & Hr & Hroot & Hp & Hrel & Hvis).
  exists sd, e, name. repeat (split; [assumption|]).
  intros Hslash.
  assert (Hsplit : Py.split "/" (relative_path fi) = we_rel e ++ [name]).
  { rewrite Hrel. apply split_join; [|exact Hslash]. destruct (we_rel e); discriminate. }
  split; [exact Hsplit|]. rewrite Hsplit. exact Hvis.
Qed.

(** A directory with a hidden sub-directory and a visible one. *)
Definition nested_env : environment :=
  sample_env "20240101_000000"
    {[ "/src" := DirNode ["a"] [(".git", DirNode ["config"] []);
                                 ("sub", DirNode ["n"; ".hidden"] [])] ]}.

Definition nested_fs : gmap string file_meta :=
  <["/src" := meta 4096 5]> (<["/src/a" := meta 10 1]> (<["/src/sub/n" := meta 20 2]>
  (<["/src/sub/.hidden" := meta 5 3]> (<["/src/.git/config" := meta 7 4]> ∅)))).

Definition nested_item : file_info :=
  {| source_path := "/src/sub/n"; relative_path := "sub/n"; size := 20;
     source_type := directory; source_root := Some "/src" |}.

Lemma directory_items_are_visible_witness :
  List.map relative_path
    (fst (_collect_files (sample_cfg ["/src"] []) nested_env (init nested_fs))) = ["a"; "sub/n"]
  /\ exists e name,
       In e (walk (sample_cfg ["/src"] []) nested_env "/src")
       /\ source_path nested_item = posixpath.join (we_root e) name
       /\ Py.split "/" (relative_path nested_item) = we_rel e ++ [name]
       /\ Forall (fun seg => Py.startswith seg "." = false)
            (Py.split "/" (relative_path nested_item)).
Proof.
  split; [vm_compute; reflexivity|].
  destruct (directory_items_are_visible (sample_cfg ["/src"] []) nested_env (init nested_fs)
              nested_item)
    as (sd & e & name & Hsd & He & Hn & _ & _ & Hp & Hrel & _ & Hseg).
  - reflexivity.
  - vm_compute. right. left. reflexivity.
  - reflexivity.
  - destruct Hsd as [<-|[]]. exists e, name. split; [exact He|]. split; [exact Hp|].
    apply Hseg. clear Hseg Hp.
    vm_compute in He. destruct He as [<-|[<-|[]]]; cbn [we_files we_rel] in *.
    + destruct Hn as [<-|[]]. repeat constructor.
    + destruct Hn as [<-|[<-|[]]]; repeat constructor.
Defined.

(* ===================================================================== *)
(** * Properties of the functions of [backup_logic] *)
(* ===================================================================== *)

(** ** [format_size] *)

Definition unit_of (k : nat) : string := nth k ["B"; "KB"; "MB"; "GB"; "TB"] "PB".

Lemma float_of_int_exact n :
  (0 <= n < 2 ^ 53)%Z -> backup_logic.float_of_int n = Some (inject_Z n).
Proof.
  intros H. unfold backup_logic.float_of_int.
  replace (Z.abs n <? 2 ^ 53)%Z with true; [reflexivity|].
  symmetry. apply Z.ltb_lt. lia.
Qed.

Lemma below_1024_float a b :
  backup_logic.below_1024 (backup_logic.Float (a # b)) = (a <? 1024 * Z.pos b)%Z.
Proof.
  unfold backup_logic.below_1024, Qle_bool. cbn [Qnum Qden].
  rewrite Z.mul_1_r. destruct (Z.leb_spec (1024 * Z.pos b) a), (Z.ltb_spec a (1024 * Z.pos b));
    try reflexivity; lia.
Qed.

Lemma divide_float a b :
  backup_logic.divide_by_1024 (backup_logic.Float (a # b))
  = Some (backup_logic.Float (a # (b * 1024))).
Proof.
  unfold backup_logic.divide_by_1024, Qdiv, Qmult, Qinv. cbn [Qnum Qden].
  rewrite Z.mul_1_r. reflexivity.
Qed.

(** X14. For a size [n] that a double holds exactly, [format_size] picks
    the unit by the powers of 1024: bytes below 1024, and the unit of rank
    [k] from [1024 ^ k] up to [1024 ^ (k + 1)], petabytes from [1024 ^ 5]
    on; the number shown is the exact quotient [n / 1024 ^ k] with two
    decimals, ties rounded to even. *)
Theorem format_size_picks_the_unit (n : Z) (k : nat) :
  (0 <= n < 2 ^ 53)%Z -> k <= 5 ->
  k = 0 \/ (1024 ^ Z.of_nat k <= n)%Z ->
  k = 5 \/ (n < 1024 ^ Z.of_nat (S k))%Z ->
  backup_logic.format_size n
  = Some (backup_logic.format_2f (n # Z.to_pos (1024 ^ Z.of_nat k)) +:+ " " +:+ unit_of k).
Proof.
  intros Hn Hk Hlo Hhi. unfold backup_logic.format_size.
  assert (Hint : backup_logic.format_number (backup_logic.Int n)
                 = Some (backup_logic.format_2f (n # 1))).
  { unfold backup_logic.format_number. rewrite (float_of_int_exact n Hn). reflexivity. }
  assert (Hdiv : backup_logic.divide_by_1024 (backup_logic.Int n)
                 = Some (backup_logic.Float (n # 1024))).
  { unfold backup_logic.divide_by_1024. rewrite (float_of_int_exact n Hn).
    cbn [fmap option_fmap option_map]. unfold inject_Z, Qdiv, Qmult, Qinv. cbn [Qnum Qden].
    rewrite Z.mul_1_r. reflexivity. }
  assert (Hb0 : backup_logic.below_1024 (backup_logic.Int n) = (n <? 1024)%Z) by reflexivity.
  destruct k as [|[|[|[|[|[|k]]]]]]; [| | | | | |exfalso; clear - Hk; lia];
    cbn [backup_logic.format_loop]; rewrite Hb0.
  - assert (Hh : (n < 1024)%Z)
      by (destruct Hhi as [Hhi|Hhi]; [discriminate|exact Hhi]).
    replace (n <? 1024)%Z with true by (symmetry; apply Z.ltb_lt; lia).
    rewrite Hint. reflexivity.
  - assert (Hl : (1024 <= n)%Z)
      by (destruct Hlo as [Hlo|Hlo]; [discriminate|exact Hlo]).
    assert (Hh : (n < 1048576)%Z)
      by (destruct Hhi as [Hhi|Hhi]; [discriminate|exact Hhi]).
    replace (n <? 1024)%Z with false by (symmetry; apply Z.ltb_ge; lia).
    rewrite Hdiv.
    rewrite below_1024_float.
    replace (n <? 1024 * Z.pos 1024)%Z with true
      by (symmetry; apply Z.ltb_lt; lia).
    reflexivity.
  - assert (Hl : (1048576 <= n)%Z)
      by (destruct Hlo as [Hlo|Hlo]; [discriminate|exact Hlo]).
    assert (Hh : (n < 1073741824)%Z)
      by (destruct Hhi as [Hhi|Hhi]; [discriminate|exact Hhi]).
    replace (n <? 1024)%Z with false by (symmetry; apply Z.ltb_ge; lia).
    rewrite Hdiv.
    rewrite below_1024_float.
    replace (n <? 1024 * Z.pos 1024)%Z with false
      by (symmetry; apply Z.ltb_ge; lia).
    rewrite divide_float.
    rewrite below_1024_float.
    replace (n <? 1024 * Z.pos (1024 * 1024))%Z with true
      by (symmetry; apply Z.ltb_lt; lia).
    reflexivity.
  - assert (Hl : (1073741824 <= n)%Z)
      by (destruct Hlo as [Hlo|Hlo]; [discriminate|exact Hlo]).
    assert (Hh : (n < 1099511627776)%Z)
      by (destruct Hhi as [Hhi|Hhi]; [discriminate|exact Hhi]).
    replace (n <? 1024)%Z with false by (symmetry; apply Z.ltb_ge; lia).
    rewrite Hdiv.
    rewrite below_1024_float.
    replace (n <? 1024 * Z.pos 1024)%Z with false
      by (symmetry; apply Z.ltb_ge; lia).
    rewrite divide_float.
    rewrite below_1024_float.
    replace (n <? 1024 * Z.pos (1024 * 1024))%Z with false
      by (symmetry; apply Z.ltb_ge; lia).
    rewrite divide_float.
    rewrite below_1024_float.
    replace (n <? 1024 * Z.pos (1024 * 1024 * 1024))%Z with true
      by (symmetry; apply Z.ltb_lt; lia).
    reflexivity.
  - assert (Hl : (1099511627776 <= n)%Z)
      by (destruct Hlo as [Hlo|Hlo]; [discriminate|exact Hlo]).
    assert (Hh : (n < 1125899906842624)%Z)
      by (destruct Hhi as [Hhi|Hhi]; [discriminate|exact Hhi]).
    replace (n <? 1024)%Z with false by (symmetry; apply Z.ltb_ge; lia).
    rewrite Hdiv.
    rewrite below_1024_float.
    replace (n <? 1024 * Z.pos 1024)%Z with false
      by (symmetry; apply Z.ltb_ge; lia).
    rewrite divide_float.
    rewrite below_1024_float.
    replace (n <? 1024 * Z.pos (1024 * 1024))%Z with false
      by (symmetry; apply Z.ltb_ge; lia).
    rewrite divide_float.
    rewrite below_1024_float.
    replace (n <? 1024 * Z.pos (1024 * 1024 * 1024))%Z with false
      by (symmetry; apply Z.ltb_ge; lia).
    rewrite divide_float.
    rewrite below_1024_float.
    replace (n <? 1024 * Z.pos (1024 * 1024 * 1024 * 1024))%Z with true
      by (symmetry; apply Z.ltb_lt; lia).
    reflexivity.
  - assert (Hl : (1125899906842624 <= n)%Z)
      by (destruct Hlo as [Hlo|Hlo]; [discriminate|exact Hlo]).
    replace (n <? 1024)%Z with false by (symmetry; apply Z.ltb_ge; lia).
    rewrite Hdiv.
    rewrite below_1024_float.
    replace (n <? 1024 * Z.pos 1024)%Z with false
      by (symmetry; apply Z.ltb_ge; lia).
    rewrite divide_float.
    rewrite below_1024_float.
    replace (n <? 1024 * Z.pos (1024 * 1024))%Z with false
      by (symmetry; apply Z.ltb_ge; lia).
    rewrite divide_float.
    rewrite below_1024_float.
    replace (n <? 1024 * Z.pos (1024 * 1024 * 1024))%Z with false
      by (symmetry; apply Z.ltb_ge; lia).
    rewrite divide_float.
    rewrite below_1024_float.
    replace (n <? 1024 * Z.pos (1024 * 1024 * 1024 * 1024))%Z with false
      by (symmetry; apply Z.ltb_ge; lia).
    rewrite divide_float.
    reflexivity.
Qed.

Lemma format_size_picks_the_unit_witness :
  backup_logic.format_size 123456789 = Some "117.74 MB".
Proof.
  rewrite (format_size_picks_the_unit 123456789 2); [vm_compute; reflexivity| | | |]; lia.
Defined.
(** ** [validate_paths] *)

(** X15. [validate_paths] sorts every path into exactly one of the two
    lists, keeping order and repetitions: [valid] holds the paths that
    exist, [invalid] the others. *)
Theorem validate_paths_partitions f paths :
  let result := backup_logic.validate_paths f paths in
  backup_logic.valid result = List.filter (backup_logic.path_exists f) paths
  /\ backup_logic.invalid result
     = List.filter (fun p => negb (backup_logic.path_exists f p)) paths
  /\ length (backup_logic.valid result) + length (backup_logic.invalid result)
     = length paths.
Proof.
  cbv zeta. unfold backup_logic.validate_paths.
  assert (H : forall acc,
             let r := fold_left
                        (fun result path =>
                           if backup_logic.path_exists f path
                           then {| backup_logic.valid := backup_logic.valid result ++ [path];
                                   backup_logic.invalid := backup_logic.invalid result |}
                           else {| backup_logic.valid := backup_logic.valid result;
                                   backup_logic.invalid :=
                                     backup_logic.invalid result ++ [path] |})
                        paths acc in
             backup_logic.valid r
             = backup_logic.valid acc ++ List.filter (backup_logic.path_exists f) paths
             /\ backup_logic.invalid r
                = backup_logic.invalid acc
                  ++ List.filter (fun p => negb (backup_logic.path_exists f p)) paths).
  { induction paths as [|p rest IH]; intros acc; cbn [fold_left List.filter].
    - rewrite !app_nil_r. auto.
    - destruct (IH (if backup_logic.path_exists f p
                    then {| backup_logic.valid := backup_logic.valid acc ++ [p];
                            backup_logic.invalid := backup_logic.invalid acc |}
                    else {| backup_logic.valid := backup_logic.valid acc;
                            backup_logic.invalid := backup_logic.invalid acc ++ [p] |}))
        as [Hv Hi].
      cbv zeta in Hv, Hi. rewrite Hv, Hi.
      destruct (backup_logic.path_exists f p); cbn [negb backup_logic.valid backup_logic.invalid];
        rewrite <- ?app_assoc; auto. }
  destruct (H {| backup_logic.valid := []; backup_logic.invalid := [] |}) as [Hv Hi].
  cbv zeta in Hv, Hi. rewrite Hv, Hi. cbn [backup_logic.valid backup_logic.invalid app].
  split; [reflexivity|]. split; [reflexivity|]. clear H Hv Hi.
  induction paths as [|p rest IH]; [reflexivity|]. cbn [List.filter].
  destruct (backup_logic.path_exists f p); simpl; lia.
Qed.

(** ** [calculate_backup_size] *)

Lemma add_size_shift f total path :
  backup_logic.add_size f total path = (total + backup_logic.add_size f 0 path)%Z.
Proof. unfold backup_logic.add_size. destruct (backup_logic.getsize f path); lia. Qed.

Lemma fold_shift {A} (step : Z -> A -> Z) (l : list A) :
  (forall t x, step t x = (t + step 0 x)%Z) ->
  forall t, fold_left step l t = (t + fold_left step l 0)%Z.
Proof.
  intros Hstep. induction l as [|x l IH]; intros t; cbn [fold_left]; [lia|].
  rewrite IH, (IH (step 0%Z x)), (Hstep t x). lia.
Qed.

Lemma walk_sizes_shift f path total :
  backup_logic.walk_sizes f path total = (total + backup_logic.walk_sizes f path 0)%Z.
Proof.
  unfold backup_logic.walk_sizes. destruct (backup_logic.tree f path); [|lia].
  apply fold_shift. intros t e. apply fold_shift. intros t' file. apply add_size_shift.
Qed.

Lemma size_step_shift f t path :
  (if backup_logic.isfile f path then backup_logic.add_size f t path
   else if backup_logic.isdir f path then backup_logic.walk_sizes f path t else t)
  = (t + (if backup_logic.isfile f path then backup_logic.add_size f 0 path
          else if backup_logic.isdir f path then backup_logic.walk_sizes f path 0 else 0))%Z.
Proof.
  destruct (backup_logic.isfile f path); [apply add_size_shift|].
  destruct (backup_logic.isdir f path); [apply walk_sizes_shift|lia].
Qed.

(** X16. [calculate_backup_size] is additive over the list of paths: the
    size of a concatenation is the sum of the sizes, so that a path named
    twice, or a directory named together with one of its sub-directories,
    is counted once for each mention; the empty list gives 0. *)
Theorem calculate_backup_size_is_additive f paths1 paths2 :
  backup_logic.calculate_backup_size f (paths1 ++ paths2)
  = (backup_logic.calculate_backup_size f paths1
     + backup_logic.calculate_backup_size f paths2)%Z
  /\ backup_logic.calculate_backup_size f [] = 0%Z.
Proof.
  split; [|reflexivity]. unfold backup_logic.calculate_backup_size.
  rewrite fold_left_app. apply fold_shift. intros t path. apply size_step_shift.
Qed.

(** ** The estimate and the collection *)

Lemma walk_ext keep1 keep2 :
  (forall d, keep1 d = keep2 d) ->
  forall t root rel, os.walk keep1 root rel t = os.walk keep2 root rel t.
Proof.
  intros Hk. fix IH 1. intros [files subdirs] root rel. cbn [os.walk]. f_equal.
  - f_equal. induction subdirs as [|[d t'] ds IHds]; [reflexivity|].
    cbn [List.map fst List.filter]. rewrite Hk, IHds. reflexivity.
  - induction subdirs as [|[d t'] ds IHds]; [reflexivity|].
    rewrite Hk, IHds. destruct (keep2 d); [rewrite IH|]; reflexivity.
Qed.

Section Estimate.

Variables (cfg : config) (env : environment) (f : backup_logic.files) (m0 : manager).

Hypothesis Hskip : skip_hidden cfg = false.
Hypothesis Hns : never_stopped env.
Hypothesis Hsize : forall p, backup_logic.getsize f p = getsize m0 p.

Definition file_step (root : string) (t : Z) (file : string) : Z :=
  backup_logic.add_size f t (posixpath.join root file).

Definition entry_step (t : Z) (e : walk_entry) : Z :=
  fold_left (file_step (we_root e)) (we_files e) t.

Definition path_step (t : Z) (path : string) : Z :=
  if backup_logic.isfile f path then backup_logic.add_size f t path
  else if backup_logic.isdir f path then backup_logic.walk_sizes f path t
  else t.

Lemma estimate_walk_files sd e names : forall acc m,
  fs m = fs m0 ->
  let r := collect_walk_files cfg env sd e names acc m in
  snd r = false /\ fs (snd (fst r)) = fs m0
  /\ total_size (m_stats (snd (fst r)))
     = fold_left (file_step (we_root e)) names (total_size (m_stats m)).
Proof.
  induction names as [|name rest IH]; intros acc m Hfs; cbn [collect_walk_files fold_left].
  - auto.
  - unfold poll. cbn [fst snd]. rewrite Hns, Hskip. cbn [andb].
    unfold file_step at 2, backup_logic.add_size. rewrite Hsize.
    unfold getsize. change (fs (tick_poll m)) with (fs m). rewrite Hfs.
    destruct (fs m0 !! posixpath.join (we_root e) name) as [meta|];
      cbn [fmap option_fmap option_map].
    + apply IH. exact Hfs.
    + destruct (IH acc (log cfg (MsgStatFailed (posixpath.join (we_root e) name)) warning
                          (tick_poll m))) as (H1 & H2 & H3).
      { rewrite log_fs. exact Hfs. }
      rewrite log_stats in H3. auto.
Qed.

Lemma estimate_walk sd entries : forall acc m,
  fs m = fs m0 ->
  let r := collect_walk cfg env sd entries acc m in
  snd r = false /\ fs (snd (fst r)) = fs m0
  /\ total_size (m_stats (snd (fst r))) = fold_left entry_step entries (total_size (m_stats m)).
Proof.
  induction entries as [|e rest IH]; intros acc m Hfs; cbn [collect_walk fold_left]; [auto|].
  destruct (estimate_walk_files sd e (we_files e) acc m Hfs) as (H1 & H2 & H3).
  destruct (collect_walk_files cfg env sd e (we_files e) acc m) as [[acc1 m1] ret].
  cbn [fst snd] in *. subst ret. unfold entry_step at 2. rewrite <- H3. apply IH. exact H2.
Qed.

Lemma estimate_dirs dirs : forall acc m,
  fs m = fs m0 ->
  (forall d, In d dirs ->
     backup_logic.isfile f d = false /\ backup_logic.isdir f d = path_exists m0 d
     /\ backup_logic.tree f d = listing env !! d) ->
  let r := collect_dirs cfg env dirs acc m in
  snd r = false /\ fs (snd (fst r)) = fs m0
  /\ total_size (m_stats (snd (fst r))) = fold_left path_step dirs (total_size (m_stats m)).
Proof.
  induction dirs as [|d rest IH]; intros acc m Hfs Hd; cbn [collect_dirs fold_left]; [auto|].
  unfold poll. cbn [fst snd]. rewrite Hns.
  destruct (Hd d (or_introl eq_refl)) as (Hf & Hdir & Htree).
  unfold path_step at 2. rewrite Hf, Hdir.
  assert (Hex : path_exists (tick_poll m) d = path_exists m0 d).
  { unfold path_exists. change (fs (tick_poll m)) with (fs m). rewrite Hfs. reflexivity. }
  rewrite Hex. destruct (path_exists m0 d); cbn [negb].
  - destruct (estimate_walk d (walk cfg env d) acc (tick_poll m) Hfs) as (H1 & H2 & H3).
    destruct (collect_walk cfg env d (walk cfg env d) acc (tick_poll m)) as [[acc1 m1] ret].
    cbn [fst snd] in *. subst ret.
    destruct (IH acc1 m1 H2) as (G1 & G2 & G3); [intros; apply Hd; right; assumption|].
    split; [exact G1|]. split; [exact G2|]. rewrite G3, H3. f_equal.
    unfold backup_logic.walk_sizes, walk. rewrite Htree.
    destruct (listing env !! d) as [t|]; [|reflexivity].
    rewrite (walk_ext (keep_dir cfg) (fun _ => true)); [reflexivity|].
    intros x. unfold keep_dir. rewrite Hskip. reflexivity.
  - destruct (IH acc (log cfg (MsgDirNotFound d) warning (tick_poll m))) as (G1 & G2 & G3).
    + rewrite log_fs. exact Hfs.
    + intros; apply Hd; right; assumption.
    + rewrite log_stats in G3. auto.
Qed.

Lemma estimate_files paths : forall acc m,
  fs m = fs m0 ->
  (forall p, In p paths ->
     backup_logic.isfile f p = path_exists m0 p
     /\ (path_exists m0 p = false -> backup_logic.isdir f p = false)) ->
  let r := collect_files_loop cfg env paths acc m in
  fs (snd r) = fs m0
  /\ total_size (m_stats (snd r)) = fold_left path_step paths (total_size (m_stats m)).
Proof.
  induction paths as [|p rest IH]; intros acc m Hfs Hp; cbn [collect_files_loop fold_left];
    [auto|].
  unfold poll. cbn [fst snd]. rewrite Hns.
  destruct (Hp p (or_introl eq_refl)) as (Hf & Hdir).
  unfold path_step at 2. rewrite Hf.
  assert (Hex : path_exists (tick_poll m) p = path_exists m0 p).
  { unfold path_exists. change (fs (tick_poll m)) with (fs m). rewrite Hfs. reflexivity. }
  rewrite Hex. unfold backup_logic.add_size. rewrite Hsize.
  unfold path_exists in *. unfold getsize.
  change (fs (tick_poll m)) with (fs m). rewrite Hfs.
  destruct (fs m0 !! p) as [meta|]; cbn [negb fmap option_fmap option_map].
  - destruct (IH (acc ++ [file_item p (BackupManager.st_size meta)])
                 (set_stats (add_total_size (BackupManager.st_size meta)) (tick_poll m)))
      as (G1 & G2); [exact Hfs|intros; apply Hp; right; assumption|].
    split; [exact G1|exact G2].
  - rewrite (Hdir eq_refl).
    destruct (IH acc (log cfg (MsgFileNotFound p) warning (tick_poll m))) as (G1 & G2).
    + rewrite log_fs. exact Hfs.
    + intros; apply Hp; right; assumption.
    + rewrite log_stats in G2. auto.
Qed.

End Estimate.

(** X17. The estimate agrees with the collection.  When hidden entries are
    not skipped and the stop flag is never set, and the source directories
    are directories and the source files files, [_collect_files] adds to
    [total_size] exactly what [calculate_backup_size] returns for the
    sources: unreadable and missing entries count for nothing in both. *)
Theorem estimate_agrees_with_collection cfg env f m :
  skip_hidden cfg = false ->
  never_stopped env ->
  (forall p, backup_logic.getsize f p = getsize m p) ->
  (forall d, In d (source_dirs cfg) ->
     backup_logic.isfile f d = false /\ backup_logic.isdir f d = path_exists m d
     /\ backup_logic.tree f d = listing env !! d) ->
  (forall p, In p (source_files cfg) ->
     backup_logic.isfile f p = path_exists m p
     /\ (path_exists m p = false -> backup_logic.isdir f p = false)) ->
  total_size (m_stats (snd (_collect_files cfg env m)))
  = (total_size (m_stats m)
     + backup_logic.calculate_backup_size f (source_dirs cfg ++ source_files cfg))%Z.
Proof.
  intros Hskip Hns Hsize Hdirs Hfiles. unfold _collect_files.
  destruct (estimate_dirs cfg env f m Hskip Hns Hsize (source_dirs cfg) [] m eq_refl Hdirs)
    as (H1 & H2 & H3).
  destruct (collect_dirs cfg env (source_dirs cfg) [] m) as [[acc1 m1] ret].
  cbn [fst snd] in *. subst ret.
  destruct (estimate_files cfg env f m Hns Hsize (source_files cfg) acc1 m1 H2 Hfiles)
    as (G1 & G2).
  rewrite G2, H3. unfold backup_logic.calculate_backup_size.
  rewrite fold_left_app.
  fold (path_step f).
  rewrite (fold_shift (path_step f) (source_files cfg));
    [|intros t x; apply size_step_shift].
  rewrite (fold_shift (path_step f) (source_dirs cfg) (fun t x => size_step_shift f t x)
             (total_size (m_stats m))).
  rewrite (fold_shift (path_step f) (source_files cfg) (fun t x => size_step_shift f t x)
             (fold_left (path_step f) (source_dirs cfg) 0%Z)).
  lia.
Qed.

Definition open_cfg : config :=
  {| source_dirs := ["/src"]; source_files := []; target_dir := "/dst";
     incremental := true; skip_hidden := false; compress := false;
     preserve_structure := true; progress_callback := true; log_callback := true |}.

Definition scenario_files : backup_logic.files :=
  {| backup_logic.path_exists := path_exists (init scenario_fs);
     backup_logic.isfile :=
       fun p => negb (String.eqb p "/src") && path_exists (init scenario_fs) p;
     backup_logic.isdir := fun p => String.eqb p "/src";
     backup_logic.getsize := getsize (init scenario_fs);
     backup_logic.tree := fun p => listing scenario_env !! p |}.

Lemma estimate_agrees_with_collection_witness :
  total_size (m_stats (snd (_collect_files open_cfg scenario_env (init scenario_fs)))) = 70%Z
  /\ backup_logic.calculate_backup_size scenario_files ["/src"] = 70%Z.
Proof.
  rewrite (estimate_agrees_with_collection open_cfg scenario_env scenario_files
             (init scenario_fs)).
  - split; vm_compute; reflexivity.
  - reflexivity.
  - intros n. reflexivity.
  - intros p. reflexivity.
  - intros d [<-|[]]. vm_compute. auto.
  - intros p [].
Defined.

(** ** [_to_json_safe] *)







(* ===================================================================== *)
(** * Properties of the widget-free parts of [PoogaloBackup] *)
(* ===================================================================== *)

Module GUI := PoogaloBackup.

(** ** [_ssh_delete_recursive] *)

(** What a call sends when no request is refused. *)
Definition deletion_plan (path : string) (node : GUI.remote_node) : list GUI.sftp_request :=
  fst (GUI._ssh_delete_recursive (fun _ => false) path node).

(** A run against its plan: it returned after the whole plan, no request
    of which was refused; or it raised at the first refused request of the
    plan and sent nothing after it. *)
Definition stops_at_refusal (raises : GUI.sftp_request -> bool)
    (run : list GUI.sftp_request * bool) (plan : list GUI.sftp_request) : Prop :=
  (snd run = true -> fst run = plan /\ Forall (fun q => raises q = false) plan)
  /\ (snd run = false ->
      exists done refused rest,
        fst run = done ++ [refused] /\ plan = done ++ refused :: rest
        /\ raises refused = true /\ Forall (fun q => raises q = false) done).

(** First [r1], then [r2] if [r1] returned. *)
Definition and_then (r1 r2 : list GUI.sftp_request * bool) : list GUI.sftp_request * bool :=
  if snd r1 then (fst r1 ++ fst r2, snd r2) else (fst r1, false).

Lemma stops_one raises q : stops_at_refusal raises ([q], negb (raises q)) [q].
Proof.
  split; cbn [fst snd]; intros H.
  - apply negb_true_iff in H. split; [reflexivity|]. constructor; [exact H|constructor].
  - apply negb_false_iff in H. exists [], q, []. repeat split; [exact H|constructor].
Qed.

Lemma stops_nil raises : stops_at_refusal raises ([], true) [].
Proof. split; cbn [fst snd]; [intros _; split; [reflexivity|constructor]|discriminate]. Qed.

Lemma stops_and_then raises r1 p1 r2 p2 :
  stops_at_refusal raises r1 p1 -> stops_at_refusal raises r2 p2 ->
  stops_at_refusal raises (and_then r1 r2) (p1 ++ p2).
Proof.
  intros [H1 H1'] [H2 H2']. unfold and_then. destruct (snd r1) eqn:E1.
  - destruct (H1 eq_refl) as [Hq1 Hf1]. cbn [fst snd]. split; intros E2.
    + destruct (H2 E2) as [Hq2 Hf2]. rewrite Hq1, Hq2. split; [reflexivity|].
      apply Forall_app. split; assumption.
    + destruct (H2' E2) as (done & refused & rest & Hq2 & Hp2 & Hr & Hd).
      exists (p1 ++ done), refused, rest. rewrite Hq1, Hq2, Hp2, <- !app_assoc.
      split; [reflexivity|]. split; [reflexivity|]. split; [exact Hr|].
      apply Forall_app. split; assumption.
  - cbn [fst snd]. split; [discriminate|]. intros _.
    destruct (H1' eq_refl) as (done & refused & rest & Hq1 & Hp1 & Hr & Hd).
    exists done, refused, (rest ++ p2). rewrite Hq1, Hp1, <- app_assoc.
    split; [reflexivity|]. split; [reflexivity|]. split; assumption.
Qed.

Lemma and_then_returned r1 r2 :
  snd r1 = true ->
  snd (and_then r1 r2) = snd r2 /\ fst (and_then r1 r2) = fst r1 ++ fst r2.
Proof. intros H. unfold and_then. rewrite H. split; reflexivity. Qed.

(** The loop over the entries of a directory. *)
Definition each_entry (raises : GUI.sftp_request -> bool) (path : string)
    : list (string * GUI.remote_node) -> list GUI.sftp_request * bool :=
  fix each (entries : list (string * GUI.remote_node)) : list GUI.sftp_request * bool :=
    match entries with
    | [] => ([], true)
    | (filename, entry) :: rest =>
        let entry_path := posixpath.join path filename in
        let '(requests, returned) :=
          match entry with
          | GUI.RemoteDir _ => GUI._ssh_delete_recursive raises entry_path entry
          | GUI.RemoteFile =>
              ([GUI.Remove entry_path], negb (raises (GUI.Remove entry_path)))
          end in
        if returned
        then let '(more, returned) := each rest in (requests ++ more, returned)
        else (requests, false)
    end.

Lemma delete_unfold raises path entries :
  GUI._ssh_delete_recursive raises path (GUI.RemoteDir entries) =
  and_then ([GUI.ListDir path], negb (raises (GUI.ListDir path)))
    (and_then (each_entry raises path entries)
       ([GUI.Rmdir path], negb (raises (GUI.Rmdir path)))).
Proof.
  cbn [GUI._ssh_delete_recursive]. fold (each_entry raises path).
  unfold and_then. cbn [fst snd].
  destruct (raises (GUI.ListDir path)); cbn [negb]; [reflexivity|].
  destruct (each_entry raises path entries) as [requests returned]. cbn [fst snd].
  destruct returned; reflexivity.
Qed.

Lemma each_entry_cons raises path filename entry rest :
  each_entry raises path ((filename, entry) :: rest) =
  and_then
    (match entry with
     | GUI.RemoteDir _ =>
         GUI._ssh_delete_recursive raises (posixpath.join path filename) entry
     | GUI.RemoteFile =>
         ([GUI.Remove (posixpath.join path filename)],
          negb (raises (GUI.Remove (posixpath.join path filename))))
     end)
    (each_entry raises path rest).
Proof.
  cbn [each_entry]. unfold and_then.
  destruct (match entry with GUI.RemoteFile => _ | GUI.RemoteDir _ => _ end)
    as [requests returned].
  cbn [fst snd]. destruct returned; [|reflexivity].
  destruct (each_entry raises path rest). reflexivity.
Qed.

Lemma delete_stops raises : forall node path,
  match node with
  | GUI.RemoteFile => True
  | GUI.RemoteDir _ =>
      snd (GUI._ssh_delete_recursive (fun _ => false) path node) = true
      /\ stops_at_refusal raises (GUI._ssh_delete_recursive raises path node)
           (deletion_plan path node)
  end.
Proof.
  fix IH 1. intros [|entries] path; [exact I|].
  assert (Hin : snd (each_entry (fun _ => false) path entries) = true
                /\ stops_at_refusal raises (each_entry raises path entries)
                     (fst (each_entry (fun _ => false) path entries))).
  { induction entries as [|[filename entry] rest IHrest].
    - split; [reflexivity|apply stops_nil].
    - destruct IHrest as [Hr Hs]. rewrite !each_entry_cons.
      pose proof (IH entry (posixpath.join path filename)) as He.
      destruct entry as [|sub].
      + destruct (and_then_returned
                    ([GUI.Remove (posixpath.join path filename)], negb false)
                    (each_entry (fun _ => false) path rest) eq_refl) as [-> ->].
        split; [exact Hr|]. apply stops_and_then; [apply stops_one|exact Hs].
      + destruct He as [Hd Hsd].
        destruct (and_then_returned _ (each_entry (fun _ => false) path rest) Hd)
          as [-> ->].
        split; [exact Hr|]. apply stops_and_then; [exact Hsd|exact Hs]. }
  destruct Hin as [Hr Hs]. unfold deletion_plan. rewrite !delete_unfold.
  pose proof (and_then_returned (each_entry (fun _ => false) path entries)
                ([GUI.Rmdir path], negb false) Hr) as [Ha Hb].
  destruct (and_then_returned ([GUI.ListDir path], negb false)
              (and_then (each_entry (fun _ => false) path entries)
                 ([GUI.Rmdir path], negb false)) eq_refl) as [-> ->].
  rewrite Ha, Hb. split; [reflexivity|].
  apply stops_and_then; [apply stops_one|].
  apply stops_and_then; [exact Hs|apply stops_one].
Qed.

Lemma deletion_plan_shape path entries :
  deletion_plan path (GUI.RemoteDir entries) =
  GUI.ListDir path :: fst (each_entry (fun _ => false) path entries) ++ [GUI.Rmdir path].
Proof.
  unfold deletion_plan. rewrite delete_unfold.
  assert (Hr : snd (each_entry (fun _ => false) path entries) = true).
  { induction entries as [|[filename entry] rest IHrest]; [reflexivity|].
    rewrite each_entry_cons.
    pose proof (delete_stops (fun _ => false) entry (posixpath.join path filename)) as He.
    destruct entry as [|sub].
    - destruct (and_then_returned
                  ([GUI.Remove (posixpath.join path filename)], negb false)
                  (each_entry (fun _ => false) path rest) eq_refl) as [-> _]. exact IHrest.
    - destruct He as [Hd _].
      destruct (and_then_returned _ (each_entry (fun _ => false) path rest) Hd) as [-> _].
      exact IHrest. }
  destruct (and_then_returned ([GUI.ListDir path], negb false)
              (and_then (each_entry (fun _ => false) path entries)
                 ([GUI.Rmdir path], negb false)) eq_refl) as [_ ->].
  destruct (and_then_returned (each_entry (fun _ => false) path entries)
                ([GUI.Rmdir path], negb false) Hr) as [_ ->].
  reflexivity.
Qed.

(** X19. [_ssh_delete_recursive] on a directory stops at the first request
    that the server refuses.  It returns exactly when no request of the
    fault-free deletion is refused, and has then sent all of them; when it
    raises, what it has sent is the part of the fault-free deletion up to
    and including the first refused request, so everything removed before
    stays removed and nothing after it is attempted.  The fault-free
    deletion lists the directory first and removes it last. *)
Theorem delete_stops_at_first_refusal raises path entries :
  let node := GUI.RemoteDir entries in
  let plan := deletion_plan path node in
  let run := GUI._ssh_delete_recursive raises path node in
  (snd run = true <-> forall q, In q plan -> raises q = false)
  /\ (snd run = true -> fst run = plan)
  /\ (snd run = false ->
      exists done refused rest,
        fst run = done ++ [refused] /\ plan = done ++ refused :: rest
        /\ raises refused = true /\ forall q, In q done -> raises q = false)
  /\ (exists inner, plan = GUI.ListDir path :: inner ++ [GUI.Rmdir path]).
Proof.
  intros node plan run.
  destruct (delete_stops raises node path) as [_ [Hok Hko]].
  fold plan in Hok, Hko. fold run in Hok, Hko.
  split; [|split; [|split]].
  - split.
    + intros H. destruct (Hok H) as [_ Hf]. apply List.Forall_forall. exact Hf.
    + intros Hall. destruct (snd run) eqn:E; [reflexivity|].
      destruct (Hko eq_refl) as (done & refused & rest & _ & Hp & Hr & _).
      rewrite (Hall refused) in Hr; [discriminate|].
      rewrite Hp. apply in_or_app. right. left. reflexivity.
  - intros H. apply (Hok H).
  - intros H. destruct (Hko H) as (done & refused & rest & Hq & Hp & Hr & Hd).
    exists done, refused, rest. repeat split; try assumption.
    apply List.Forall_forall. exact Hd.
  - eexists. apply deletion_plan_shape.
Qed.

(** ** [ssh_go_up] *)

Lemma rstrip_slash s :
  Py.rstrip (Py.is_char "/") (s +:+ "/") = Py.rstrip (Py.is_char "/") s.
Proof.
  induction s as [|a r IH]; [reflexivity|].
  change (String a r +:+ "/") with (String a (r +:+ "/")). cbn [Py.rstrip].
  rewrite IH. reflexivity.
Qed.

Lemma dirname_split p front c :
  front <> [] -> Py.split "/" p = front ++ [c] ->
  posixpath.dirname p =
  let head := Py.join "/" front +:+ "/" in
  match Py.lstrip (Py.is_char "/") head with
  | EmptyString => head
  | _ => Py.rstrip (Py.is_char "/") head
  end.
Proof.
  intros Hne Hs. unfold posixpath.dirname, posixpath.slash. rewrite Hs, rev_app_distr.
  cbn [rev app]. destruct (rev front) as [|y ys] eqn:E.
  - apply (f_equal (@rev string)) in E. rewrite rev_involutive in E. contradiction.
  - rewrite <- E, rev_involutive. reflexivity.
Qed.

Lemma join_under_slashes k d ds :
  k = 1 \/ k = 2 ->
  Py.join "/" (repeat EmptyString k ++ d :: ds) = slashes k +:+ Py.join "/" (d :: ds).
Proof. intros [-> | ->]; reflexivity. Qed.

Lemma dirname_form k done c :
  k = 1 \/ k = 2 -> Forall clean (done ++ [c]) ->
  posixpath.dirname (slashes k +:+ Py.join "/" (done ++ [c])) =
  slashes k +:+ Py.join "/" done.
Proof.
  intros Hk Hc.
  assert (Hs : Py.split "/" (slashes k +:+ Py.join "/" (done ++ [c])) =
               (repeat EmptyString k ++ done) ++ [c]).
  { rewrite (split_form k _ Hk Hc), <- app_assoc. destruct done; reflexivity. }
  assert (Hne : repeat EmptyString k ++ done <> []).
  { destruct Hk as [-> | ->]; cbn [repeat app]; discriminate. }
  rewrite (dirname_split _ _ _ Hne Hs).
  apply Forall_app in Hc as [Hd _].
  destruct done as [|d ds].
  - destruct Hk as [-> | ->]; reflexivity.
  - rewrite (join_under_slashes k d ds Hk). cbv zeta.
    set (J := Py.join "/" (d :: ds)).
    assert (HJ : J <> EmptyString).
    { apply join_clean_nonempty. inversion Hd as [|? ? (Hd0 & _) _]. exact Hd0. }
    pose proof (join_clean_head (d :: ds) Hd) as Hh. fold J in Hh.
    assert (Hl : Py.lstrip (Py.is_char "/") ((slashes k +:+ J) +:+ "/") <> EmptyString).
    { destruct J as [|a J']; [congruence|].
      rewrite startswith_cons, startswith_nil, andb_true_r in Hh.
      destruct Hk as [-> | ->].
      - change ((slashes 1 +:+ String a J') +:+ "/") with (String "/" (String a (J' +:+ "/"))).
        cbn [Py.lstrip]. unfold Py.is_char at 1. cbn [Ascii.eqb Bool.eqb andb].
        unfold Py.is_char. rewrite Hh. discriminate.
      - change ((slashes 2 +:+ String a J') +:+ "/")
          with (String "/" (String "/" (String a (J' +:+ "/")))).
        cbn [Py.lstrip]. unfold Py.is_char at 1. cbn [Ascii.eqb Bool.eqb andb].
        unfold Py.is_char at 1. cbn [Ascii.eqb Bool.eqb andb].
        unfold Py.is_char. rewrite Hh. discriminate. }
    destruct (Py.lstrip (Py.is_char "/") ((slashes k +:+ J) +:+ "/")); [congruence|].
    rewrite rstrip_slash. apply rstrip_app; [exact HJ|]. apply rstrip_join. exact Hd.
Qed.

Lemma form_not_root k c comps :
  k = 1 \/ k = 2 -> c <> EmptyString ->
  String.eqb (slashes k +:+ Py.join "/" (c :: comps)) "/" = false.
Proof.
  intros Hk Hc. pose proof (join_clean_nonempty c comps Hc) as HJ.
  destruct (Py.join "/" (c :: comps)) as [|a J]; [congruence|].
  destruct Hk as [-> | ->]; reflexivity.
Qed.

Lemma form_nonempty k s : k = 1 \/ k = 2 -> String.eqb (slashes k +:+ s) EmptyString = false.
Proof. intros [-> | ->]; reflexivity. Qed.

Lemma ssh_norm_form p :
  exists k comps,
    (k = 1 \/ k = 2) /\ Forall clean comps
    /\ GUI._ssh_norm p = slashes k +:+ Py.join "/" comps.
Proof. exact (remote_norm_form p). Qed.

Lemma ssh_norm_on_form k comps :
  (k = 1 \/ k = 2) -> Forall clean comps ->
  GUI._ssh_norm (slashes k +:+ Py.join "/" comps) = slashes k +:+ Py.join "/" comps.
Proof. exact (remote_norm_on_form k comps). Qed.

Lemma go_up_from_double_slash :
  GUI._ssh_norm "/" = "/" /\ segments "/" = [] /\ segments "//" = []
  /\ String.eqb "//" "/" = false
  /\ posixpath.dirname (Py.rstrip (Py.is_char "/") "//") = EmptyString.
Proof. vm_compute. repeat split. Qed.

(** X20. [ssh_go_up] moves the remote browser to the parent directory:
    without a session nothing changes; with one, the normal form of the
    new path has the segments of the normal form of the old one but the
    last, and unless the browser was at the root the new path is stored in
    normal form.  At the root the stored path is left as it was. *)
Theorem go_up_drops_last_segment connected p :
  let new := GUI.ssh_go_up connected p in
  (connected = false -> new = p)
  /\ (connected = true ->
      segments (GUI._ssh_norm new) = removelast (segments (GUI._ssh_norm p))
      /\ (GUI._ssh_norm p = "/" -> new = p)
      /\ (GUI._ssh_norm p <> "/" -> GUI._ssh_norm new = new)).
Proof.
  intros new. split; [intros ->; reflexivity|]. intros ->.
  subst new. unfold GUI.ssh_go_up. cbn [negb].
  destruct (ssh_norm_form p) as (k & comps & Hk & Hc & E). rewrite !E.
  destruct comps as [|x xs].
  - destruct Hk as [-> | ->].
    + change (slashes 1 +:+ Py.join "/" []) with "/". rewrite String.eqb_refl. cbv iota.
      rewrite E. destruct go_up_from_double_slash as (_ & -> & _).
      split; [reflexivity|]. split; [reflexivity|congruence].
    + change (slashes 2 +:+ Py.join "/" []) with "//".
      destruct go_up_from_double_slash as (Hn & Hs1 & Hs2 & He & Hd).
      rewrite He, Hd, String.eqb_refl. cbv iota. rewrite !Hn, Hs1, Hs2.
      split; [reflexivity|]. split; [discriminate|]. reflexivity.
  - assert (Hx : x <> EmptyString) by (inversion Hc as [|? ? (Hne & _) _]; exact Hne).
    rewrite (form_not_root k x xs Hk Hx).
    destruct (@exists_last _ (x :: xs) ltac:(discriminate)) as (done & c & Hl).
    rewrite Hl in *.
    assert (Hr : Py.rstrip (Py.is_char "/") (slashes k +:+ Py.join "/" (done ++ [c])) =
                 slashes k +:+ Py.join "/" (done ++ [c])).
    { apply rstrip_app; [|apply rstrip_join; exact Hc].
      rewrite <- Hl. apply join_clean_nonempty. exact Hx. }
    rewrite Hr, (dirname_form k done c Hk Hc), (form_nonempty k _ Hk).
    pose proof Hc as Hd. apply Forall_app in Hd as [Hd _].
    rewrite !(ssh_norm_on_form k done Hk Hd).
    rewrite (segments_form k done Hk Hd), (segments_form k (done ++ [c]) Hk Hc).
    rewrite removelast_last. split; [reflexivity|]. split; [|reflexivity].
    intros H. rewrite <- Hl in H.
    pose proof (form_not_root k x xs Hk Hx) as Hn. rewrite H in Hn. discriminate.
Qed.

(** ** [add_log] *)

(** One call [add_log(message, log_type)] and the time stamp it reads. *)
Record log_call := { at_time : string; message : string; log_type : string }.

Definition entry_of (c : log_call) : GUI.log_entry :=
  {| GUI.ts := at_time c; GUI.level := GUI._normalize_level (log_type c);
     GUI.msg := message c |}.

(** [self.logs_data] after a sequence of calls. *)
Definition log_all (max_logs_keep : nat) (calls : list log_call)
    (logs_data : list GUI.log_entry) : list GUI.log_entry :=
  fold_left (fun logs c => GUI.add_log max_logs_keep (at_time c) logs (message c) (log_type c))
    calls logs_data.

Lemma log_all_snoc max calls c store :
  log_all max (calls ++ [c]) store =
  GUI.add_log max (at_time c) (log_all max calls store) (message c) (log_type c).
Proof. unfold log_all. rewrite fold_left_app. reflexivity. Qed.

Lemma add_log_entry max c logs :
  GUI.add_log max (at_time c) logs (message c) (log_type c) =
  if max <? length (logs ++ [entry_of c])
  then GUI.last_entries max (logs ++ [entry_of c]) else logs ++ [entry_of c].
Proof. reflexivity. Qed.

Lemma log_all_unbounded calls : log_all 0 calls [] = List.map entry_of calls.
Proof.
  induction calls as [|c calls IH] using rev_ind; [reflexivity|].
  rewrite log_all_snoc, add_log_entry, IH, map_app.
  rewrite length_app. cbn [length List.map]. unfold GUI.last_entries. cbn [Nat.eqb].
  destruct (0 <? length (List.map entry_of calls) + 1); reflexivity.
Qed.

Lemma log_all_bounded max calls :
  0 < max ->
  log_all max calls [] =
  skipn (length (List.map entry_of calls) - max) (List.map entry_of calls).
Proof.
  intros Hmax. induction calls as [|c calls IH] using rev_ind; [reflexivity|].
  rewrite log_all_snoc, add_log_entry, IH, map_app. cbn [List.map].
  set (all := List.map entry_of calls). rewrite !length_app, length_skipn.
  cbn [length]. unfold GUI.last_entries.
  replace (max =? 0) with false by (symmetry; apply Nat.eqb_neq; lia).
  rewrite length_app, length_skipn. cbn [length].
  destruct (max <? length all - (length all - max) + 1) eqn:E.
  - apply Nat.ltb_lt in E.
    rewrite drop_app_le by (rewrite length_drop; lia).
    rewrite drop_drop, drop_app_le by lia. f_equal. f_equal. lia.
  - apply Nat.ltb_ge in E. rewrite drop_app_le by lia. f_equal. f_equal. lia.
Qed.

(** X21. The log store keeps the latest messages: after any sequence of
    [add_log] calls on an empty store it holds the entries of the last
    [max_logs_keep] calls, in call order, each with the level its type
    maps to (ERROR, WARN or INFO); a bound of 0 keeps every entry, since
    the slice [[-0:]] is the whole list.  With a bound of 0 or of at least 200
    the mini log of the sources page shows the latest 200 of them. *)
Theorem log_store_keeps_the_latest max calls :
  let all := List.map entry_of calls in
  let store := log_all max calls [] in
  (max = 0 -> store = all)
  /\ (0 < max ->
      store = skipn (length calls - max) all
      /\ length store = Nat.min (length calls) max)
  /\ (max = 0 \/ 200 <= max -> GUI.mini_log store = skipn (length calls - 200) all)
  /\ (forall e, In e store -> In (GUI.level e) ["ERROR"; "WARN"; "INFO"]).
Proof.
  intros all store.
  assert (Hin : forall e, In e all -> In (GUI.level e) ["ERROR"; "WARN"; "INFO"]).
  { intros e He. apply in_map_iff in He as (c & <- & _).
    cbn [entry_of GUI.level]. unfold GUI._normalize_level.
    destruct (String.eqb (log_type c) "error"); [left; reflexivity|].
    destruct (String.eqb (log_type c) "warning"); [right; left; reflexivity|].
    destruct (String.eqb (log_type c) "success"); right; right; left; reflexivity. }
  assert (Hlen : length all = length calls) by apply length_map.
  assert (Hb : 0 < max -> store = skipn (length calls - max) all).
  { intros H. subst store. rewrite (log_all_bounded max calls H). fold all.
    rewrite Hlen. reflexivity. }
  split; [|split; [|split]].
  - intros ->. apply log_all_unbounded.
  - intros H. split; [exact (Hb H)|]. rewrite (Hb H), length_skipn. lia.
  - intros [-> | H].
    + subst store. rewrite log_all_unbounded. fold all. rewrite <- Hlen. reflexivity.
    + rewrite Hb by lia. unfold GUI.mini_log, GUI.last_entries. cbn [Nat.eqb].
      rewrite length_skipn, drop_drop. f_equal. lia.
  - intros e He. apply Hin. destruct max as [|m].
    + subst store. rewrite log_all_unbounded in He. exact He.
    + rewrite Hb in He by lia. rewrite <- (firstn_skipn (length calls - S m) all).
      apply in_or_app. right. exact He.
Qed.

(** ** The lists of sources and the profiles *)

(** What the user does to the lists of sources. *)
Inductive edit :=
| PickDirectory (path : option string)
| PickFiles (files : list string)
| ClearSources
| RemoveSource (index : Z) (source_type : string).

Definition apply_edit (s : GUI.app) (e : edit) : GUI.app :=
  match e with
  | PickDirectory path => GUI.on_directory_selected path s
  | PickFiles files => GUI.on_files_selected files s
  | ClearSources => GUI.clear_sources s
  | RemoveSource index source_type => GUI.remove_source index source_type s
  end.

Definition edited (edits : list edit) (s : GUI.app) : GUI.app :=
  fold_left apply_edit edits s.

(** The two lists that the sources page shows. *)
Definition sources (s : GUI.app) : list string * list string :=
  (GUI.content s (GUI.source_dirs s), GUI.content s (GUI.source_files s)).

(** The application holds the same list objects. *)
Definition same_objects (s s' : GUI.app) : Prop :=
  GUI.source_dirs s' = GUI.source_dirs s /\ GUI.source_files s' = GUI.source_files s
  /\ GUI.next_ref s' = GUI.next_ref s.

Lemma same_objects_refl s : same_objects s s.
Proof. repeat split. Qed.

Lemma same_objects_trans s1 s2 s3 :
  same_objects s1 s2 -> same_objects s2 s3 -> same_objects s1 s3.
Proof. unfold same_objects. intros (-> & -> & ->) (-> & -> & ->). repeat split. Qed.

Lemma set_content_same r l s : same_objects s (GUI.set_content r l s).
Proof. repeat split. Qed.

Lemma on_files_selected_same files : forall s, same_objects s (GUI.on_files_selected files s).
Proof.
  unfold GUI.on_files_selected.
  induction files as [|f files IH]; intros s; [apply same_objects_refl|].
  cbn [fold_left]. eapply same_objects_trans; [|apply IH]. apply set_content_same.
Qed.

Lemma apply_edit_same s e : same_objects s (apply_edit s e).
Proof.
  destruct e as [[p|]|files| |index source_type]; cbn [apply_edit].
  - unfold GUI.on_directory_selected.
    destruct (String.eqb p EmptyString); [apply same_objects_refl|apply set_content_same].
  - apply same_objects_refl.
  - apply on_files_selected_same.
  - unfold GUI.clear_sources.
    eapply same_objects_trans; apply set_content_same.
  - unfold GUI.remove_source.
    destruct (GUI.pop index _) as [[x rest]|];
      [apply set_content_same|apply same_objects_refl].
Qed.

Lemma edited_same edits : forall s, same_objects s (edited edits s).
Proof.
  unfold edited. induction edits as [|e edits IH]; intros s; [apply same_objects_refl|].
  cbn [fold_left]. eapply same_objects_trans; [apply apply_edit_same|apply IH].
Qed.

Lemma load_profile_objects p rd rf s :
  GUI.profile_dirs p = Some rd -> GUI.profile_files p = Some rf ->
  GUI.load_profile p s =
  {| GUI.heap := GUI.heap s; GUI.next_ref := GUI.next_ref s;
     GUI.source_dirs := rd; GUI.source_files := rf |}.
Proof. intros Hd Hf. unfold GUI.load_profile. rewrite Hd, Hf. reflexivity. Qed.

Lemma clear_sources_empty s : sources (GUI.clear_sources s) = ([], []).
Proof.
  unfold sources, GUI.clear_sources, GUI.content, GUI.set_content.
  cbn [GUI.heap GUI.source_dirs GUI.source_files]. f_equal.
  - destruct (decide (GUI.source_files s = GUI.source_dirs s)) as [E|E].
    + rewrite E, lookup_insert_eq. reflexivity.
    + rewrite lookup_insert_ne by exact E. rewrite lookup_insert_eq. reflexivity.
  - rewrite lookup_insert_eq. reflexivity.
Qed.

(** X23. Loading a profile makes the application share the profile's
    list objects, so every later edit of the sources (adding a directory or
    files, removing an entry, clearing) is an edit of the profile held by
    the row: the lists of the profile are the lists shown, and loading the
    same profile again changes nothing, it does not bring back the lists
    that were saved.  After [clear_sources], loading it again shows no
    source. *)
Theorem reload_does_not_restore p rd rf edits s :
  GUI.profile_dirs p = Some rd -> GUI.profile_files p = Some rf ->
  let s1 := edited edits (GUI.load_profile p s) in
  sources s1 = (GUI.content s1 rd, GUI.content s1 rf)
  /\ GUI.load_profile p s1 = s1
  /\ sources (GUI.load_profile p (GUI.clear_sources s1)) = ([], []).
Proof.
  intros Hd Hf s1.
  assert (Hre : forall es, GUI.load_profile p (edited es (GUI.load_profile p s)) =
                           edited es (GUI.load_profile p s)).
  { intros es. rewrite (load_profile_objects p rd rf s Hd Hf).
    match goal with |- GUI.load_profile p ?t = _ =>
      destruct (edited_same es _ : same_objects _ t) as (Ed & Ef & _);
      rewrite (load_profile_objects p rd rf t Hd Hf); destruct t as [h n sd sf] end.
    cbn [GUI.source_dirs GUI.source_files GUI.heap GUI.next_ref] in *.
    rewrite Ed, Ef. reflexivity. }
  split; [|split].
  - destruct (edited_same edits (GUI.load_profile p s)) as (Ed & Ef & _).
    fold s1 in Ed, Ef. rewrite (load_profile_objects p rd rf s Hd Hf) in Ed, Ef.
    cbn [GUI.source_dirs GUI.source_files] in Ed, Ef.
    unfold sources. rewrite Ed, Ef. reflexivity.
  - apply Hre.
  - replace (GUI.clear_sources s1)
      with (edited (edits ++ [ClearSources]) (GUI.load_profile p s))
      by (unfold s1, edited; rewrite fold_left_app; reflexivity).
    rewrite Hre. unfold edited. rewrite fold_left_app. apply clear_sources_empty.
Qed.

(** A profile with two directories and a file, loaded into a fresh
    application; the user then removes the first directory. *)
Definition fresh_app : GUI.app :=
  {| GUI.heap := <[0 := []]> (<[1 := []]> ∅); GUI.next_ref := 2;
     GUI.source_dirs := 0; GUI.source_files := 1 |}.

Definition with_profile : GUI.app :=
  {| GUI.heap := <[2 := ["/src/docs"; "/src/music"]]> (<[3 := ["/src/a.txt"]]> (GUI.heap fresh_app));
     GUI.next_ref := 4; GUI.source_dirs := 0; GUI.source_files := 1 |}.

Definition row_profile : GUI.profile :=
  {| GUI.profile_dirs := Some 2; GUI.profile_files := Some 3 |}.

Lemma reload_does_not_restore_witness :
  sources (GUI.load_profile row_profile
             (edited [RemoveSource 0 "dir"] (GUI.load_profile row_profile with_profile))) =
  (["/src/music"], ["/src/a.txt"]).
Proof.
  destruct (reload_does_not_restore row_profile 2 3 [RemoveSource 0 "dir"] with_profile
              eq_refl eq_refl) as (_ & -> & _).
  vm_compute. reflexivity.
Defined.

(** Reading the profiles again allocates above the objects that exist and
    leaves these as they are. *)
Lemma parse_list_keeps l s :
  let (entry, s') := GUI.parse_list l s in
  GUI.next_ref s <= GUI.next_ref s'
  /\ (forall r, r < GUI.next_ref s -> GUI.heap s' !! r = GUI.heap s !! r)
  /\ GUI.source_dirs s' = GUI.source_dirs s /\ GUI.source_files s' = GUI.source_files s
  /\ match l, entry with
     | Some l, Some r => r < GUI.next_ref s' /\ GUI.heap s' !! r = Some l
     | None, None => True
     | _, _ => False
     end.
Proof.
  destruct l as [l|]; cbn [GUI.parse_list GUI.alloc GUI.next_ref GUI.heap
                           GUI.source_dirs GUI.source_files].
  - split; [lia|]. split; [intros r Hr; apply lookup_insert_ne; lia|].
    split; [reflexivity|]. split; [reflexivity|]. split; [lia|apply lookup_insert_eq].
  - repeat split; lia.
Qed.

Lemma load_profiles_list_keeps stored : forall s,
  let (ps, s') := GUI.load_profiles_list stored s in
  GUI.next_ref s <= GUI.next_ref s'
  /\ (forall r, r < GUI.next_ref s -> GUI.heap s' !! r = GUI.heap s !! r)
  /\ GUI.source_dirs s' = GUI.source_dirs s /\ GUI.source_files s' = GUI.source_files s.
Proof.
  induction stored as [|sp rest IH]; intros s; cbn [GUI.load_profiles_list].
  - repeat split; lia.
  - pose proof (parse_list_keeps (GUI.stored_dirs sp) s) as H1.
    destruct (GUI.parse_list (GUI.stored_dirs sp) s) as [dirs s1].
    pose proof (parse_list_keeps (GUI.stored_files sp) s1) as H2.
    destruct (GUI.parse_list (GUI.stored_files sp) s1) as [files s2].
    specialize (IH s2). destruct (GUI.load_profiles_list rest s2) as [ps s3].
    destruct H1 as (N1 & K1 & D1 & F1 & _), H2 as (N2 & K2 & D2 & F2 & _),
      IH as (N3 & K3 & D3 & F3).
    split; [lia|]. split; [|split; congruence].
    intros r Hr. rewrite K3, K2, K1 by lia. reflexivity.
Qed.

(** A profile as the row holds it, against what the file stores. *)
Definition holds (s : GUI.app) (sp : GUI.stored_profile) (p : GUI.profile) : Prop :=
  match GUI.stored_dirs sp, GUI.profile_dirs p with
  | Some l, Some r => r < GUI.next_ref s /\ GUI.heap s !! r = Some l
  | None, None => True
  | _, _ => False
  end
  /\ match GUI.stored_files sp, GUI.profile_files p with
     | Some l, Some r => r < GUI.next_ref s /\ GUI.heap s !! r = Some l
     | None, None => True
     | _, _ => False
     end.

Lemma load_profiles_list_holds stored : forall s,
  Forall2 (holds (snd (GUI.load_profiles_list stored s))) stored
    (fst (GUI.load_profiles_list stored s)).
Proof.
  induction stored as [|sp rest IH]; intros s; cbn [GUI.load_profiles_list].
  - constructor.
  - pose proof (parse_list_keeps (GUI.stored_dirs sp) s) as H1.
    destruct (GUI.parse_list (GUI.stored_dirs sp) s) as [dirs s1].
    pose proof (parse_list_keeps (GUI.stored_files sp) s1) as H2.
    destruct (GUI.parse_list (GUI.stored_files sp) s1) as [files s2].
    specialize (IH s2). pose proof (load_profiles_list_keeps rest s2) as H3.
    destruct (GUI.load_profiles_list rest s2) as [ps s3]. cbn [fst snd] in *.
    destruct H1 as (N1 & K1 & _ & _ & P1), H2 as (N2 & K2 & _ & _ & P2),
      H3 as (N3 & K3 & _).
    constructor; [|exact IH]. unfold holds. cbn [GUI.profile_dirs GUI.profile_files].
    split.
    + destruct (GUI.stored_dirs sp), dirs; try exact P1. destruct P1 as [L1 E1].
      split; [lia|]. rewrite K3, K2 by lia. exact E1.
    + destruct (GUI.stored_files sp), files; try exact P2. destruct P2 as [L2 E2].
      split; [lia|]. rewrite K3 by lia. exact E2.
Qed.

Lemma load_profile_holds s sp p :
  holds s sp p ->
  sources (GUI.load_profile p s) =
  (default [] (GUI.stored_dirs sp), default [] (GUI.stored_files sp)).
Proof.
  intros [Hd Hf]. unfold GUI.load_profile, sources, GUI.content.
  destruct (GUI.stored_dirs sp) as [ld|], (GUI.profile_dirs p) as [rd|]; try contradiction;
    destruct (GUI.stored_files sp) as [lf|], (GUI.profile_files p) as [rf|];
    try contradiction;
    cbn [GUI.get_list GUI.alloc GUI.heap GUI.next_ref GUI.source_dirs GUI.source_files
         default].
  - destruct Hd as [_ ->], Hf as [_ ->]. reflexivity.
  - destruct Hd as [L E]. rewrite lookup_insert_eq, lookup_insert_ne, E by lia.
    reflexivity.
  - destruct Hf as [L E]. rewrite lookup_insert_eq, lookup_insert_ne, E by lia.
    reflexivity.
  - rewrite lookup_insert_eq, lookup_insert_ne, lookup_insert_eq by lia. reflexivity.
Qed.

(** X24. Reading [profiles.json] again builds new list objects: a
    profile loaded from a row built then shows the lists that the file
    stores for it, and an empty list for a key that the file does not
    have, whatever the application held or edited before. *)
Theorem fresh_rows_restore stored s i sp :
  stored !! i = Some sp ->
  exists p,
    fst (GUI.load_profiles_list stored s) !! i = Some p
    /\ sources (GUI.load_profile p (snd (GUI.load_profiles_list stored s))) =
       (default [] (GUI.stored_dirs sp), default [] (GUI.stored_files sp)).
Proof.
  intros Hi. pose proof (load_profiles_list_holds stored s) as H.
  destruct (Forall2_lookup_l _ _ _ _ _ H Hi) as (p & Hp & Hh).
  exists p. split; [exact Hp|]. apply load_profile_holds. exact Hh.
Qed.

Definition stored_rows : list GUI.stored_profile :=
  [{| GUI.stored_dirs := Some ["/src/docs"; "/src/music"]; GUI.stored_files := None |}].

Lemma fresh_rows_restore_witness :
  exists p,
    fst (GUI.load_profiles_list stored_rows with_profile) !! 0 = Some p
    /\ sources (GUI.load_profile p (snd (GUI.load_profiles_list stored_rows with_profile))) =
       (["/src/docs"; "/src/music"], []).
Proof.
  apply (fresh_rows_restore stored_rows with_profile 0
           {| GUI.stored_dirs := Some ["/src/docs"; "/src/music"];
              GUI.stored_files := None |}).
  reflexivity.
Defined.

(** ** The profile store *)

Definition is_dict (p : GUI.doc) : Prop := exists members, p = GUI.DDict members.

(** The profile carries the string [timestamp_iso] under [timestamp]. *)
Definition has_timestamp (timestamp_iso : string) (p : GUI.doc) : bool :=
  match p with
  | GUI.DDict members => negb (GUI.other_timestamp members timestamp_iso)
  | _ => false
  end.

Lemma new_profiles_filter ts profiles :
  Forall is_dict profiles ->
  GUI.new_profiles ts profiles =
  Some (List.filter (fun p => negb (has_timestamp ts p)) profiles).
Proof.
  induction 1 as [|p rest [members ->] Hrest IH]; [reflexivity|].
  cbn [GUI.new_profiles List.filter has_timestamp]. rewrite IH, negb_involutive.
  destruct (GUI.other_timestamp members ts); reflexivity.
Qed.

Lemma new_profiles_none ts profiles :
  ~ Forall is_dict profiles -> GUI.new_profiles ts profiles = None.
Proof.
  induction profiles as [|p rest IH]; intros Hn; [destruct Hn; constructor|].
  destruct p as [| | | | | |members]; try reflexivity.
  cbn [GUI.new_profiles]. rewrite IH; [reflexivity|].
  intros Hrest. apply Hn. constructor; [exists members; reflexivity|exact Hrest].
Qed.

Lemma new_profile_timestamp name dirs files target settings now :
  has_timestamp now (GUI.new_profile name dirs files target settings now) = true.
Proof.
  unfold has_timestamp, GUI.new_profile, GUI.other_timestamp.
  cbn [GUI.dict_get]. 
  replace (String.eqb "name" "timestamp") with false by reflexivity.
  replace (String.eqb "source_dirs" "timestamp") with false by reflexivity.
  replace (String.eqb "source_files" "timestamp") with false by reflexivity.
  replace (String.eqb "target_dir" "timestamp") with false by reflexivity.
  replace (String.eqb "settings" "timestamp") with false by reflexivity.
  replace (String.eqb "timestamp" "timestamp") with true by reflexivity.
  rewrite String.eqb_refl. reflexivity.
Qed.

(** X26. Profiles are told apart by their time stamp only.  When the
    store holds dicts and the writes go through, [save_profile] appends the
    new profile to those stored (a name may occur twice), and
    [delete_profile] then leaves exactly the profiles that do not carry the
    given time stamp, in order, those without a time stamp among them:
    deleting the profile just saved also deletes every older profile with
    the same time stamp and otherwise gives back the store as it was.  When
    an entry of the store is not a dict, [delete_profile] writes nothing. *)
Theorem profiles_go_by_timestamp name dirs files target settings now f :
  name <> EmptyString ->
  Forall is_dict (GUI._read_profiles f) ->
  let saved := fst (GUI.save_profile None name dirs files target settings now f) in
  GUI._read_profiles saved =
    GUI._read_profiles f ++ [GUI.new_profile name dirs files target settings now]
  /\ (forall ts,
        GUI._read_profiles (fst (GUI.delete_profile None ts saved)) =
        List.filter (fun p => negb (has_timestamp ts p)) (GUI._read_profiles saved))
  /\ GUI._read_profiles (fst (GUI.delete_profile None now saved)) =
     List.filter (fun p => negb (has_timestamp now p)) (GUI._read_profiles f)
  /\ (forall fault ts g,
        ~ Forall is_dict (GUI._read_profiles g) ->
        GUI.delete_profile fault ts g = (g, "error")).
Proof.
  intros Hname Hdicts saved.
  assert (Hs : GUI._read_profiles saved =
               GUI._read_profiles f ++ [GUI.new_profile name dirs files target settings now]).
  { unfold saved, GUI.save_profile.
    rewrite (proj2 (String.eqb_neq _ _) Hname). reflexivity. }
  assert (Hall : Forall is_dict (GUI._read_profiles saved)).
  { rewrite Hs. apply Forall_app. split; [exact Hdicts|].
    constructor; [eexists; reflexivity|constructor]. }
  assert (Hd : forall ts,
             GUI._read_profiles (fst (GUI.delete_profile None ts saved)) =
             List.filter (fun p => negb (has_timestamp ts p)) (GUI._read_profiles saved)).
  { intros ts. unfold GUI.delete_profile. rewrite (new_profiles_filter ts _ Hall).
    reflexivity. }
  split; [exact Hs|]. split; [exact Hd|]. split.
  - rewrite Hd, Hs, List.filter_app. cbn [List.filter].
    rewrite new_profile_timestamp. cbn [negb]. apply app_nil_r.
  - intros fault ts g Hg. unfold GUI.delete_profile.
    rewrite (new_profiles_none ts _ Hg). reflexivity.
Qed.

Definition older_profile : GUI.doc :=
  GUI.DDict [("name", GUI.DStr "work"); ("timestamp", GUI.DStr "2024-01-01T10:00:00")].

Lemma profiles_go_by_timestamp_witness :
  GUI._read_profiles
    (fst (GUI.delete_profile None "2024-05-05T12:00:00"
            (fst (GUI.save_profile None "work" ["/src"] [] "/dst" (GUI.DDict [])
                    "2024-05-05T12:00:00" (GUI.Stored (GUI.DList [older_profile])))))) =
  [older_profile].
Proof.
  destruct (profiles_go_by_timestamp "work" ["/src"] [] "/dst" (GUI.DDict [])
              "2024-05-05T12:00:00" (GUI.Stored (GUI.DList [older_profile])))
    as (_ & _ & -> & _).
  - discriminate.
  - repeat constructor. exists [("name", GUI.DStr "work");
                                ("timestamp", GUI.DStr "2024-01-01T10:00:00")]. reflexivity.
  - vm_compute. reflexivity.
Defined.

(* ===================================================================== *)
(** * Where the remote worker puts the files *)
(* ===================================================================== *)

(** A name as a directory lists it, and free of backslashes. *)
Definition plain_name (c : string) : bool :=
  negb (String.eqb c EmptyString) && negb (String.eqb c ".") && negb (String.eqb c "..")
  && negb (has_char "/" c) && negb (has_char Remote.backslash c).

Fixpoint plain_tree (t : dir_tree) : bool :=
  match t with
  | DirNode files subdirs =>
      forallb plain_name files
      && forallb (fun dt => plain_name (fst dt) && plain_tree (snd dt)) subdirs
  end.

Lemma plain_name_clean c : plain_name c = true <-> clean c.
Proof.
  unfold plain_name, clean. rewrite !andb_true_iff, !negb_true_iff, !String.eqb_neq.
  tauto.
Qed.

Lemma plain_names_clean names :
  Forall (fun n => plain_name n = true) names <-> Forall clean names.
Proof.
  split; intros H; induction H; constructor; try assumption; apply plain_name_clean; assumption.
Qed.

Lemma walk_plain keep : forall t root rel,
  plain_tree t = true -> Forall clean rel ->
  Forall (fun e => Forall clean (we_rel e) /\ Forall clean (we_files e))
    (os.walk keep root rel t).
Proof.
  fix IH 1. intros [files subdirs] root rel Ht Hrel.
  cbn [plain_tree] in Ht. apply andb_true_iff in Ht as [Hf Hs].
  cbn [os.walk]. constructor.
  - cbn [we_rel we_files]. split; [exact Hrel|].
    apply plain_names_clean. apply List.Forall_forall. intros x Hx.
    exact (proj1 (forallb_forall _ _) Hf x Hx).
  - induction subdirs as [|[d t'] ds IHds]; [constructor|].
    cbn [forallb fst snd] in Hs. apply andb_true_iff in Hs as [Hd Hds].
    apply andb_true_iff in Hd as [Hd Ht'].
    apply Forall_app. split; [|exact (IHds Hds)].
    destruct (keep d); [|constructor].
    apply IH; [exact Ht'|]. apply Forall_app. split; [exact Hrel|].
    constructor; [apply plain_name_clean; exact Hd|constructor].
Qed.

Lemma join_app l1 l2 :
  l1 <> [] -> l2 <> [] ->
  Py.join "/" (l1 ++ l2) = Py.join "/" l1 +:+ "/" +:+ Py.join "/" l2.
Proof.
  intros H1 H2. induction l1 as [|x l1 IH]; [congruence|].
  destruct l1 as [|y l1].
  - destruct l2 as [|z l2]; [congruence|]. reflexivity.
  - change ((x :: y :: l1) ++ l2) with (x :: y :: l1 ++ l2).
    rewrite !join_cons. change (y :: l1 ++ l2) with ((y :: l1) ++ l2).
    rewrite IH by discriminate. rewrite !append_assoc. reflexivity.
Qed.

Lemma endswith_join_clean names :
  names <> [] -> Forall clean names -> Py.endswith_char (Py.join "/" names) "/" = false.
Proof.
  intros Hne Hc. destruct (exists_last Hne) as (front & c & ->).
  apply Forall_app in Hc as [_ Hl]. inversion Hl as [|? ? (Hc1 & _ & _ & Hs & _) _]; subst.
  destruct front as [|f front].
  - apply endswith_plain. exact Hs.
  - rewrite join_snoc by discriminate. rewrite <- !append_assoc.
    rewrite endswith_app by exact Hc1. apply endswith_plain. exact Hs.
Qed.

Lemma join_names_nonempty names :
  names <> [] -> Forall clean names -> Py.join "/" names <> EmptyString.
Proof.
  intros Hne Hc. destruct names as [|c names]; [congruence|].
  apply join_clean_nonempty. inversion Hc as [|? ? (H & _) _]. exact H.
Qed.

Lemma posix_join_plain a b :
  a <> EmptyString -> Py.endswith_char a "/" = false -> Py.startswith b "/" = false ->
  posixpath.join a b = a +:+ "/" +:+ b.
Proof.
  intros Ha He Hb. unfold posixpath.join, posixpath.slash. rewrite Hb, He.
  destruct a; [congruence|reflexivity].
Qed.

Lemma posix_join_names l1 l2 :
  l1 <> [] -> l2 <> [] -> Forall clean l1 -> Forall clean l2 ->
  posixpath.join (Py.join "/" l1) (Py.join "/" l2) = Py.join "/" (l1 ++ l2).
Proof.
  intros H1 H2 Hc1 Hc2. rewrite posix_join_plain.
  - symmetry. apply join_app; assumption.
  - apply join_names_nonempty; assumption.
  - apply endswith_join_clean; assumption.
  - apply join_clean_head. exact Hc2.
Qed.

(** [rel_posix] is the path made of the directories walked through and
    the file name. *)
Lemma rel_posix_names e fn :
  Forall clean (we_rel e) -> clean fn ->
  Remote.rel_posix_of e fn = Py.join "/" (we_rel e ++ [fn]).
Proof.
  intros Hrel Hfn. unfold Remote.rel_posix_of.
  assert (Hall : Forall clean (we_rel e ++ [fn])).
  { apply Forall_app. split; [exact Hrel|]. constructor; [exact Hfn|constructor]. }
  assert (Hb : has_char Remote.backslash (Py.join "/" (we_rel e ++ [fn])) = false).
  { apply has_char_join; [|discriminate].
    apply List.Forall_forall. intros x Hx.
    rewrite List.Forall_forall in Hall. apply (Hall x Hx). }
  destruct (we_rel e) as [|d ds] eqn:E.
  - cbn [Py.join String.eqb app]. cbn [Py.join app] in Hb. apply replace_absent. exact Hb.
  - rewrite (proj2 (String.eqb_neq _ _))
      by (apply join_names_nonempty; [discriminate|exact Hrel]).
    change fn with (Py.join "/" [fn]) at 1.
    rewrite posix_join_names;
      [|discriminate|discriminate|exact Hrel|constructor; [exact Hfn|constructor]].
    apply replace_absent. exact Hb.
Qed.

Lemma last_split_cons a r :
  has_char "/" r = true ->
  List.last (Py.split "/" (String a r)) EmptyString = List.last (Py.split "/" r) EmptyString.
Proof.
  intros Hr. rewrite split_cons.
  destruct (Py.split "/" r) as [|hd tl] eqn:E; [exfalso; exact (split_nonempty _ _ E)|].
  destruct (Ascii.eqb a "/"); [reflexivity|].
  destruct tl as [|x tl]; [|reflexivity].
  exfalso. destruct r as [|b r]; [discriminate|].
  pose proof (split_no_sep "/" (String b r)) as Hn. rewrite E in Hn.
  inversion Hn as [|? ? Hhd _]; subst.
  pose proof (join_split "/" (String b r)) as Hj. rewrite E in Hj. cbn [Py.join] in Hj.
  rewrite Hj in Hhd. congruence.
Qed.

Lemma basename_after_slash a fn :
  has_char "/" fn = false -> posixpath.basename (a +:+ "/" +:+ fn) = fn.
Proof.
  intros Hfn. unfold posixpath.basename, posixpath.slash.
  induction a as [|x a IH].
  - change (EmptyString +:+ "/" +:+ fn) with (String "/" fn).
    rewrite split_cons, (split_plain _ _ Hfn). reflexivity.
  - change (String x a +:+ "/" +:+ fn) with (String x (a +:+ "/" +:+ fn)).
    rewrite last_split_cons; [exact IH|].
    rewrite has_char_app. change ("/" +:+ fn) with (String "/" fn).
    cbn [has_char]. rewrite Ascii.eqb_refl. apply orb_true_r.
Qed.

Lemma endswith_slash a :
  Py.endswith_char a "/" = true -> exists a0, a = a0 +:+ "/".
Proof.
  induction a as [|x a IH]; [discriminate|]. cbn [Py.endswith_char].
  destruct a as [|y a].
  - intros H. apply Ascii.eqb_eq in H. subst x. exists EmptyString. reflexivity.
  - intros H. destruct (IH H) as (a0 & E). exists (String x a0). rewrite E. reflexivity.
Qed.

Lemma basename_join root fn :
  clean fn -> posixpath.basename (posixpath.join root fn) = fn.
Proof.
  intros (Hne & _ & _ & Hs & _).
  assert (Hst : Py.startswith fn "/" = false).
  { destruct fn as [|c fn]; [congruence|].
    rewrite startswith_cons, startswith_nil, andb_true_r.
    cbn [has_char] in Hs. apply orb_false_iff in Hs as [Hc _].
    rewrite Ascii.eqb_sym. exact Hc. }
  unfold posixpath.join, posixpath.slash. rewrite Hst.
  destruct (String.eqb root EmptyString) eqn:Er.
  - apply String.eqb_eq in Er. subst root. cbn [orb].
    unfold posixpath.basename, posixpath.slash.
    change (EmptyString +:+ fn) with fn. rewrite (split_plain _ _ Hs). reflexivity.
  - cbn [orb]. destruct (Py.endswith_char root "/") eqn:Ee.
    + destruct (endswith_slash root Ee) as (a0 & ->).
      rewrite append_assoc. apply basename_after_slash. exact Hs.
    + apply basename_after_slash. exact Hs.
Qed.

(** The remote path of an item whose relative path is made of plain names:
    the names appended to the segments of the normalized target. *)
Lemma remote_path_of_names cfg names :
  names <> [] -> Forall clean names ->
  exists k comps,
    (k = 1 \/ k = 2) /\ Forall clean comps
    /\ Remote._remote_norm (Remote.remote_target_dir cfg) = slashes k +:+ Py.join "/" comps
    /\ Remote.remote_path_of cfg (Py.join "/" names) =
       slashes k +:+ Py.join "/" (comps ++ names).
Proof.
  intros Hne Hc.
  destruct (remote_norm_form (Remote.remote_target_dir cfg)) as (k & comps & Hk & Hcc & E).
  exists k, comps. split; [exact Hk|]. split; [exact Hcc|]. split; [exact E|].
  unfold Remote.remote_path_of. rewrite E.
  assert (Hb : has_char Remote.backslash (Py.join "/" names) = false).
  { apply has_char_join; [|discriminate].
    apply List.Forall_forall. intros x Hx.
    rewrite List.Forall_forall in Hc. apply (Hc x Hx). }
  rewrite (replace_absent _ _ _ Hb).
  pose proof (join_clean_head names Hc) as Hh.
  destruct comps as [|c comps].
  - cbn [app]. unfold posixpath.join, posixpath.slash. rewrite Hh.
    destruct Hk as [-> | ->]; reflexivity.
  - rewrite posix_join_plain.
    + rewrite (join_app (c :: comps) names) by (discriminate || exact Hne).
      rewrite !append_assoc. reflexivity.
    + destruct Hk as [-> | ->]; discriminate.
    + rewrite endswith_app by (apply join_names_nonempty; [discriminate|exact Hcc]).
      apply endswith_join_clean; [discriminate|exact Hcc].
    + exact Hh.
Qed.

(** An item that is uploaded below the target: its relative path is made
    of plain names, and its remote path is the normal form that has the
    segments of the target followed by these names. *)
Definition below_target (cfg : Remote.config) (it : Remote.item) : Prop :=
  exists names,
    names <> [] /\ Forall (fun n => plain_name n = true) names
    /\ snd it = Py.join "/" names
    /\ segments (Remote.remote_path_of cfg (snd it)) =
       segments (Remote._remote_norm (Remote.remote_target_dir cfg)) ++ names
    /\ Remote._remote_norm (Remote.remote_path_of cfg (snd it)) =
       Remote.remote_path_of cfg (snd it).

Lemma below_target_names cfg local_path names :
  names <> [] -> Forall clean names ->
  below_target cfg (local_path, Py.join "/" names).
Proof.
  intros Hne Hc. exists names. cbn [snd].
  destruct (remote_path_of_names cfg names Hne Hc) as (k & comps & Hk & Hcc & En & Ep).
  assert (Hall : Forall clean (comps ++ names)) by (apply Forall_app; split; assumption).
  split; [exact Hne|]. split; [apply plain_names_clean; exact Hc|].
  split; [reflexivity|]. rewrite Ep, En. split.
  - rewrite !segments_form by assumption. reflexivity.
  - apply remote_norm_on_form; assumption.
Qed.

Lemma collect_walk_files_below cfg stop base e fns : forall items polls,
  clean base -> Forall clean (we_rel e) -> Forall clean fns ->
  Forall (below_target cfg) items ->
  Forall (below_target cfg)
    (fst (Remote.collect_walk_files cfg stop base e fns items polls)).
Proof.
  intros items polls Hbase Hrel Hfns. revert items polls.
  induction Hfns as [|fn rest Hfn Hrest IH]; intros items polls Hitems;
    cbn [Remote.collect_walk_files]; [exact Hitems|].
  destruct (stop polls); [exact Hitems|].
  destruct (Remote.skip_hidden cfg && Py.startswith fn "."); [apply IH; exact Hitems|].
  destruct (Remote.skip_hidden cfg && Remote._is_hidden_rel (Remote.rel_posix_of e fn));
    [apply IH; exact Hitems|].
  apply IH. apply Forall_app. split; [exact Hitems|]. constructor; [|constructor].
  destruct (Remote.preserve_structure cfg).
  - rewrite (rel_posix_names e fn Hrel Hfn).
    assert (Hall : Forall clean (we_rel e ++ [fn])).
    { apply Forall_app. split; [exact Hrel|]. constructor; [exact Hfn|constructor]. }
    change base with (Py.join "/" [base]) at 1.
    rewrite posix_join_names;
      [|discriminate|destruct (we_rel e); discriminate
       |constructor; [exact Hbase|constructor]|exact Hall].
    apply below_target_names; [discriminate|].
    constructor; [exact Hbase|exact Hall].
  - rewrite (basename_join _ fn Hfn). change fn with (Py.join "/" [fn]) at 2.
    apply below_target_names; [discriminate|]. constructor; [exact Hfn|constructor].
Qed.

Lemma collect_walk_below cfg stop base entries : forall items polls,
  clean base ->
  Forall (fun e => Forall clean (we_rel e) /\ Forall clean (we_files e)) entries ->
  Forall (below_target cfg) items ->
  Forall (below_target cfg) (fst (Remote.collect_walk cfg stop base entries items polls)).
Proof.
  intros items polls Hbase Hall. revert items polls.
  induction Hall as [|e rest [Hrel Hfiles] Hrest IH]; intros items polls Hitems;
    cbn [Remote.collect_walk]; [exact Hitems|].
  destruct (stop polls); [exact Hitems|].
  pose proof (collect_walk_files_below cfg stop base e (we_files e) items (S polls)
                Hbase Hrel Hfiles Hitems) as H.
  destruct (Remote.collect_walk_files cfg stop base e (we_files e) items (S polls))
    as [items1 polls1].
  apply IH. exact H.
Qed.

Lemma collect_dirs_below cfg stop listing dirs : forall items polls,
  Forall (fun d => plain_name (Remote.base_name_of d) = true) dirs ->
  map_Forall (fun _ t => plain_tree t = true) listing ->
  Forall (below_target cfg) items ->
  Forall (below_target cfg) (fst (Remote.collect_dirs cfg stop listing dirs items polls)).
Proof.
  intros items polls Hdirs Hlist. revert items polls.
  induction Hdirs as [|d rest Hd Hrest IH]; intros items polls Hitems;
    cbn [Remote.collect_dirs]; [exact Hitems|].
  apply plain_name_clean in Hd.
  assert (Hw : Forall (fun e => Forall clean (we_rel e) /\ Forall clean (we_files e))
                 match listing !! d with
                 | Some t => os.walk (Remote.keep_dir cfg) d [] t
                 | None => []
                 end).
  { destruct (listing !! d) as [t|] eqn:E; [|constructor].
    apply walk_plain; [exact (Hlist d t E)|constructor]. }
  pose proof (collect_walk_below cfg stop (Remote.base_name_of d) _ items polls Hd Hw Hitems)
    as H.
  destruct (Remote.collect_walk cfg stop (Remote.base_name_of d) _ items polls)
    as [items1 polls1].
  apply IH. exact H.
Qed.

Lemma collect_single_files_below cfg stop fps : forall items polls,
  Forall (fun fp => plain_name (posixpath.basename fp) = true) fps ->
  Forall (below_target cfg) items ->
  Forall (below_target cfg) (fst (Remote.collect_single_files cfg stop fps items polls)).
Proof.
  intros items polls Hfps. revert items polls.
  induction Hfps as [|fp rest Hfp Hrest IH]; intros items polls Hitems;
    cbn [Remote.collect_single_files]; [exact Hitems|].
  destruct (stop polls); [exact Hitems|].
  destruct (Remote.skip_hidden cfg && Py.startswith (posixpath.basename fp) ".");
    [apply IH; exact Hitems|].
  apply IH. apply Forall_app. split; [exact Hitems|]. constructor; [|constructor].
  apply plain_name_clean in Hfp.
  change (posixpath.basename fp) with (Py.join "/" [posixpath.basename fp]).
  apply below_target_names; [discriminate|]. constructor; [exact Hfp|constructor].
Qed.

(** X22. Every upload goes below the remote target directory.  When the
    names that the source directories list are free of backslashes, and the
    base names of the source directories and source files are plain names
    (not empty, not [.] or [..], free of backslashes), every item that the
    remote [_collect_files] returns has a relative path made of plain
    names, and the remote path the worker computes for it is in normal form
    and consists of the segments of the normalized target followed by these
    names; this holds in both layouts, whatever the stop flag does. *)
Theorem uploads_go_below_the_target cfg stop listing size_of st it :
  Forall (fun d => plain_name (Remote.base_name_of d) = true) (Remote.source_dirs cfg) ->
  Forall (fun fp => plain_name (posixpath.basename fp) = true) (Remote.source_files cfg) ->
  map_Forall (fun _ t => plain_tree t = true) listing ->
  In it (fst (fst (Remote._collect_files cfg stop listing size_of st))) ->
  exists names,
    names <> [] /\ Forall (fun n => plain_name n = true) names
    /\ snd it = Py.join "/" names
    /\ segments (Remote.remote_path_of cfg (snd it)) =
       segments (Remote._remote_norm (Remote.remote_target_dir cfg)) ++ names
    /\ Remote._remote_norm (Remote.remote_path_of cfg (snd it)) =
       Remote.remote_path_of cfg (snd it).
Proof.
  intros Hdirs Hfiles Hlist Hin.
  assert (Hall : Forall (below_target cfg)
                   (fst (fst (Remote._collect_files cfg stop listing size_of st)))).
  { unfold Remote._collect_files.
    pose proof (collect_dirs_below cfg stop listing (Remote.source_dirs cfg) [] 0
                  Hdirs Hlist (List.Forall_nil _)) as H1.
    destruct (Remote.collect_dirs cfg stop listing (Remote.source_dirs cfg) [] 0)
      as [items1 polls1].
    pose proof (collect_single_files_below cfg stop (Remote.source_files cfg) items1 polls1
                  Hfiles H1) as H2.
    destruct (Remote.collect_single_files cfg stop (Remote.source_files cfg) items1 polls1)
      as [items2 polls2].
    exact H2. }
  rewrite List.Forall_forall in Hall. exact (Hall it Hin).
Qed.

(** A remote run over one directory with a sub-directory, and one loose
    file. *)
Definition nested_cfg : Remote.config :=
  {| Remote.remote_target_dir := "/backup"; Remote.source_dirs := ["/src/docs"];
     Remote.source_files := ["/src/a.txt"];
     Remote.incremental := true; Remote.skip_hidden := true;
     Remote.preserve_structure := true; Remote.compress := false;
     Remote.max_workers := 2; Remote.use_hash_check := false |}.

Definition nested_listing : gmap string dir_tree :=
  <["/src/docs" := DirNode ["r.txt"] [("sub", DirNode ["n.txt"] [])]]> ∅.

Definition nested_stats : Remote.stats :=
  {| Remote.total_files := 0; Remote.files_copied := 0; Remote.total_size_mb := 0;
     Remote.skipped := 0; Remote.failed := 0 |}.

Lemma uploads_go_below_the_target_witness :
  exists names,
    names <> [] /\ Forall (fun n => plain_name n = true) names
    /\ "docs/sub/n.txt" = Py.join "/" names
    /\ segments (Remote.remote_path_of nested_cfg "docs/sub/n.txt") =
       segments (Remote._remote_norm "/backup") ++ names
    /\ Remote._remote_norm (Remote.remote_path_of nested_cfg "docs/sub/n.txt") =
       Remote.remote_path_of nested_cfg "docs/sub/n.txt".
Proof.
  apply (uploads_go_below_the_target nested_cfg (fun _ => false) nested_listing
           (fun _ => None) nested_stats ("/src/docs/sub/n.txt", "docs/sub/n.txt")).
  - vm_compute. repeat constructor.
  - vm_compute. repeat constructor.
  - apply map_Forall_insert_2; [reflexivity|apply map_Forall_empty].
  - vm_compute. right. left. reflexivity.
Defined.

(* ===================================================================== *)
(** * The rows of the remote browser *)
(* ===================================================================== *)

(** ** [ssh_rename] *)

Lemma row_path_form k comps name :
  k = 1 \/ k = 2 -> Forall clean comps -> clean name ->
  GUI.row_path (slashes k +:+ Py.join "/" comps) name =
  slashes k +:+ Py.join "/" (comps ++ [name]).
Proof.
  intros Hk Hc Hn. unfold GUI.row_path.
  assert (Hh : Py.startswith name "/" = false).
  { apply (join_clean_head [name]). constructor; [exact Hn|constructor]. }
  destruct comps as [|c comps].
  - cbn [app Py.join]. destruct Hk as [-> | ->]; [reflexivity|].
    change (slashes 2 +:+ EmptyString) with "//". cbn [String.eqb Ascii.eqb Bool.eqb negb].
    unfold posixpath.join, posixpath.slash. rewrite Hh. reflexivity.
  - assert (Hx : c <> EmptyString) by (inversion Hc as [|? ? (H & _) _]; exact H).
    rewrite (form_not_root k c comps Hk Hx). cbn [negb].
    rewrite posix_join_plain.
    + rewrite (join_app (c :: comps) [name]) by discriminate.
      rewrite !append_assoc. reflexivity.
    + destruct Hk as [-> | ->]; discriminate.
    + rewrite endswith_app by (apply join_names_nonempty; [discriminate|exact Hc]).
      apply endswith_join_clean; [discriminate|exact Hc].
    + exact Hh.
Qed.

Lemma basename_form k comps name :
  k = 1 \/ k = 2 -> Forall clean comps -> clean name ->
  posixpath.basename (slashes k +:+ Py.join "/" (comps ++ [name])) = name.
Proof.
  intros Hk Hc Hn. unfold posixpath.basename, posixpath.slash.
  assert (Hall : Forall clean (comps ++ [name])).
  { apply Forall_app. split; [exact Hc|]. constructor; [exact Hn|constructor]. }
  rewrite (split_form k _ Hk Hall).
  replace (match comps ++ [name] with [] => [EmptyString] | _ :: _ => comps ++ [name] end)
    with (comps ++ [name]) by (destruct comps; reflexivity).
  rewrite app_assoc. apply last_last.
Qed.

(** X25. A rename in the remote browser stays in the directory shown.
    For a directory in normal form and plain names, the path of a row
    splits back into the directory and the name, and [ssh_rename] asks for
    the path that the row of the new name would have in the same
    directory; a new name that begins with a slash is taken as the whole
    new path, wherever the entry was. *)
Theorem rename_stays_in_directory p name new_name :
  plain_name name = true -> plain_name new_name = true ->
  let cur := GUI._ssh_norm p in
  let old_path := GUI.row_path cur name in
  posixpath.dirname old_path = cur
  /\ posixpath.basename old_path = name
  /\ GUI.ssh_rename_target old_path new_name = GUI.row_path cur new_name
  /\ forall moved, Py.startswith moved "/" = true ->
       GUI.ssh_rename_target old_path moved = moved.
Proof.
  intros Hn Hm cur old_path. apply plain_name_clean in Hn, Hm.
  destruct (ssh_norm_form p) as (k & comps & Hk & Hc & E). fold cur in E.
  assert (Hall : Forall clean (comps ++ [name])).
  { apply Forall_app. split; [exact Hc|]. constructor; [exact Hn|constructor]. }
  assert (Ho : old_path = slashes k +:+ Py.join "/" (comps ++ [name])).
  { unfold old_path. rewrite E. apply row_path_form; assumption. }
  assert (Hd : posixpath.dirname old_path = cur).
  { rewrite Ho, E. apply dirname_form; assumption. }
  split; [exact Hd|]. split; [rewrite Ho; apply basename_form; assumption|].
  unfold GUI.ssh_rename_target. rewrite Hd. split.
  - rewrite E, (row_path_form k comps new_name Hk Hc Hm).
    pose proof (row_path_form k comps new_name Hk Hc Hm) as Hr.
    unfold GUI.row_path in Hr. destruct comps as [|c comps].
    + destruct Hk as [-> | ->].
      * assert (Hh : Py.startswith new_name "/" = false).
        { apply (join_clean_head [new_name]). constructor; [exact Hm|constructor]. }
        unfold posixpath.join, posixpath.slash. rewrite Hh. reflexivity.
      * exact Hr.
    + assert (Hx : c <> EmptyString) by (inversion Hc as [|? ? (H & _) _]; exact H).
      rewrite (form_not_root k c comps Hk Hx) in Hr. exact Hr.
  - intros moved Hmv. unfold posixpath.join. rewrite Hmv. reflexivity.
Qed.

Lemma rename_stays_in_directory_witness :
  posixpath.dirname (GUI.row_path (GUI._ssh_norm "/srv//data/") "old.txt") =
    GUI._ssh_norm "/srv//data/"
  /\ GUI.ssh_rename_target (GUI.row_path (GUI._ssh_norm "/srv//data/") "old.txt") "new.txt" =
     "/srv/data/new.txt".
Proof.
  destruct (rename_stays_in_directory "/srv//data/" "old.txt" "new.txt" eq_refl eq_refl)
    as (Hd & _ & Hr & _).
  split; [exact Hd|]. rewrite Hr. vm_compute. reflexivity.
Defined.

Example split_ex : Py.split "/"%char "a/b//c" = ["a"; "b"; ""; "c"].
Proof. reflexivity. Qed.
Example dirname_ex : posixpath.dirname "/x/y/z.txt" = "/x/y" /\ posixpath.dirname "/z" = "/"
  /\ posixpath.dirname "z" = "" /\ posixpath.dirname "a//b" = "a".
Proof. repeat split; reflexivity. Qed.
Example basename_ex : posixpath.basename "/x/y/z.txt" = "z.txt" /\ posixpath.basename "x/" = "".
Proof. repeat split; reflexivity. Qed.
Example strip_ex : Py.strip "  ab c
" = "ab c".
Proof. reflexivity. Qed.
Example normpath_ex :
  posixpath.normpath "/a//b/./c/../d/" = "/a/b/d" /\ posixpath.normpath "//x" = "//x"
  /\ posixpath.normpath "///x/.." = "/" /\ posixpath.normpath "a/../.." = ".."
  /\ posixpath.normpath "/.." = "/".
Proof. repeat split; reflexivity. Qed.
Example int_ex : Py.int_of_float (-7 # 2) = (-3)%Z /\ Py.int_of_float (7 # 2) = 3%Z.
Proof. split; reflexivity. Qed.

(** The digests of RFC 1321 and of messages around the padding boundary. *)
Example md5_empty_ex : hashlib.md5_hex [] = "d41d8cd98f00b204e9800998ecf8427e".
Proof. vm_compute. reflexivity. Qed.

Example md5_abc_ex : hashlib.md5_hex abc = "900150983cd24fb0d6963f7d28e17f72".
Proof. vm_compute. reflexivity. Qed.

Example md5_55_ex : hashlib.md5_hex (repeat x61 55) = "ef1772b6dff9a122358552954ad0df65".
Proof. vm_compute. reflexivity. Qed.

Example md5_56_ex : hashlib.md5_hex (repeat x61 56) = "3b0c8ac703f828b04c6c197006d17218".
Proof. vm_compute. reflexivity. Qed.

Example md5_64_ex : hashlib.md5_hex (repeat x61 64) = "014842d480b571495a4a0363793f7367".
Proof. vm_compute. reflexivity. Qed.

Example md5_80_ex : hashlib.md5_hex (repeat x61 80) = "b15af9cdabbaea0516866a33d8fd0f98".
Proof. vm_compute. reflexivity. Qed.

Example bytes_strip_ex : Py.bytes_strip [x20; x61; x20; x62; x0a] = [x61; x20; x62].
Proof. reflexivity. Qed.

Example format_size_ex0 : backup_logic.format_size 0 = Some "0.00 B". Proof. vm_compute. reflexivity. Qed.
Example format_size_ex1 : backup_logic.format_size 1023 = Some "1023.00 B". Proof. vm_compute. reflexivity. Qed.
Example format_size_ex2 : backup_logic.format_size 1024 = Some "1.00 KB". Proof. vm_compute. reflexivity. Qed.
Example format_size_ex3 : backup_logic.format_size 1536 = Some "1.50 KB". Proof. vm_compute. reflexivity. Qed.
Example format_size_ex4 : backup_logic.format_size 1029 = Some "1.00 KB". Proof. vm_compute. reflexivity. Qed.
Example format_size_ex5 : backup_logic.format_size 1048575 = Some "1024.00 KB". Proof. vm_compute. reflexivity. Qed.
Example format_size_ex6 : backup_logic.format_size 123456789 = Some "117.74 MB". Proof. vm_compute. reflexivity. Qed.
Example format_size_ex7 : backup_logic.format_size 9007199254740993 = Some "8.00 PB". Proof. vm_compute. reflexivity. Qed.
Example format_size_ex8 : backup_logic.format_size 1152921504606859321 = Some "1024.00 PB". Proof. vm_compute. reflexivity. Qed.
Example format_size_ex9 : backup_logic.format_size (-5) = Some "-5.00 B". Proof. vm_compute. reflexivity. Qed.
Example format_size_ex10 : backup_logic.format_size (-9007199254740993) = Some "-9007199254740992.00 B". Proof. vm_compute. reflexivity. Qed.
Example format_size_ex11 : backup_logic.format_size 1000000000000000000000000000000 = Some "888178419700125.25 PB". Proof. vm_compute. reflexivity. Qed.
Example format_size_ex12 : backup_logic.format_size 1285 = Some "1.25 KB". Proof. vm_compute. reflexivity. Qed.
Example format_size_ex13 : backup_logic.format_size 5125 = Some "5.00 KB". Proof. vm_compute. reflexivity. Qed.
Example format_size_ex14 : backup_logic.format_size 1180591620717411434497 = Some "1048576.00 PB". Proof. vm_compute. reflexivity. Qed.
Example format_size_ex15 : backup_logic.format_size 13510798882111489 = Some "12.00 PB". Proof. vm_compute. reflexivity. Qed.
Example format_size_ex16 : backup_logic.format_size (2 ^ 1024) = None. Proof. vm_compute. reflexivity. Qed.
Example format_size_ex17 : backup_logic.format_size (2 ^ 1024 - 2 ^ 970) = None. Proof. vm_compute. reflexivity. Qed.
Example format_size_ex18 : exists s, backup_logic.format_size (2 ^ 1024 - 2 ^ 970 - 1) = Some s. Proof. eexists. vm_compute. reflexivity. Qed.

Example isoformat_ex :
  json.isoformat {| json.year := 2024; json.month := 3; json.day := 9; json.hour := 7;
                    json.minute := 5; json.second := 0; json.microsecond := 1200 |}
  = "2024-03-09T07:05:00.001200".
Proof. reflexivity. Qed.
